(** * Batch-retry-resume workflow of the AI-playground scripts

    A shallow embedding of [ai_explain.py] and [ai_yes_no.py]: the sentence
    loader, the prompt builder, the retrying API client, the batch
    dispatcher and the CSV / text-log persisters, followed by the
    properties the specification states about them. *)

From Stdlib Require Import NArith List Lia Bool String Ascii Permutation.
From Stdlib Require Import DecimalPos DecimalN.
From stdpp Require Import base list.
Import ListNotations.

Local Open Scope N_scope.

(** ** Python [str]

    A Python string is a sequence of Unicode code points.  Literals of the
    source are written [py "..."], which decodes the UTF-8 bytes of the
    literal. *)

Abbreviation char := N (only parsing).
Abbreviation pystr := (list N) (only parsing).

Module PyStr.

Definition byte_of_ascii (a : ascii) : N := N_of_ascii a.

Fixpoint utf8_decode (bs : list N) : pystr :=
  match bs with
  | [] => []
  | b0 :: r0 =>
      if b0 <? 0x80 then b0 :: utf8_decode r0
      else if b0 <? 0xE0 then
        match r0 with
        | b1 :: r1 =>
            N.lor (N.shiftl (N.land b0 0x1F) 6) (N.land b1 0x3F) :: utf8_decode r1
        | _ => []
        end
      else if b0 <? 0xF0 then
        match r0 with
        | b1 :: b2 :: r2 =>
            N.lor (N.shiftl (N.land b0 0x0F) 12)
              (N.lor (N.shiftl (N.land b1 0x3F) 6) (N.land b2 0x3F))
              :: utf8_decode r2
        | _ => []
        end
      else
        match r0 with
        | b1 :: b2 :: b3 :: r3 =>
            N.lor (N.shiftl (N.land b0 0x07) 18)
              (N.lor (N.shiftl (N.land b1 0x3F) 12)
                 (N.lor (N.shiftl (N.land b2 0x3F) 6) (N.land b3 0x3F)))
              :: utf8_decode r3
        | _ => []
        end
  end.

Definition py (s : string) : pystr :=
  utf8_decode (map byte_of_ascii (list_ascii_of_string s)).

Definition LF : char := 10.
Definition CR : char := 13.
Definition SP : char := 32.

(** [str.isspace] on one code point (CPython's [_PyUnicode_IsWhitespace]);
    [str.strip] and the regular expression class [\s] both use it. *)
Definition isspace (c : char) : bool :=
  ((0x09 <=? c) && (c <=? 0x0D)) || ((0x1C <=? c) && (c <=? 0x20))
  || (c =? 0x85) || (c =? 0xA0) || (c =? 0x1680)
  || ((0x2000 <=? c) && (c <=? 0x200A))
  || (c =? 0x2028) || (c =? 0x2029) || (c =? 0x202F) || (c =? 0x205F)
  || (c =? 0x3000).

Fixpoint lstrip (s : pystr) : pystr :=
  match s with
  | [] => []
  | c :: s' => if isspace c then lstrip s' else s
  end.

Definition rstrip (s : pystr) : pystr := rev (lstrip (rev s)).

(** [s.strip()] *)
Definition strip (s : pystr) : pystr := rstrip (lstrip s).

(** [s.split('\n')] *)
Fixpoint split_lf (s : pystr) : list pystr :=
  match s with
  | [] => [[]]
  | c :: s' =>
      if c =? LF then [] :: split_lf s'
      else match split_lf s' with
           | l :: ls => (c :: l) :: ls
           | [] => [[c]]
           end
  end.

(** [sep.join(ls)] *)
Fixpoint join (sep : pystr) (ls : list pystr) : pystr :=
  match ls with
  | [] => []
  | l :: ls' =>
      match ls' with
      | [] => l
      | _ :: _ => l ++ sep ++ join sep ls'
      end
  end.

Fixpoint pystr_eqb (a b : pystr) : bool :=
  match a, b with
  | [], [] => true
  | x :: a', y :: b' => (x =? y) && pystr_eqb a' b'
  | _, _ => false
  end.

Fixpoint startswith (pre s : pystr) : bool :=
  match pre, s with
  | [], _ => true
  | p :: pre', c :: s' => (p =? c) && startswith pre' s'
  | _ :: _, [] => false
  end.

(** [s.endswith(suf)] *)
Definition endswith (suf s : pystr) : bool := startswith (rev suf) (rev s).

(** [s.endswith((a, b, ...))]: true when one of the suffixes fits. *)
Definition endswith_any (sufs : list pystr) (s : pystr) : bool :=
  existsb (fun suf => endswith suf s) sufs.

(** Truth value of a string: [bool(s)]. *)
Definition truthy (s : pystr) : bool :=
  match s with [] => false | _ :: _ => true end.

(** [x in l] for a list of strings. *)
Definition str_in (x : pystr) (l : list pystr) : bool :=
  existsb (pystr_eqb x) l.

(** [l.index(x)]: position of the first occurrence, [None] for the
    [ValueError] of a missing element. *)
Fixpoint index_of (x : pystr) (l : list pystr) : option nat :=
  match l with
  | [] => None
  | y :: l' => if pystr_eqb y x then Some 0%nat
               else option_map S (index_of x l')
  end.

(** Decimal digits of a natural number, as [str(n)] prints them. *)
Fixpoint digits_of_uint (d : Decimal.uint) : pystr :=
  match d with
  | Decimal.Nil => []
  | Decimal.D0 d' => 48 :: digits_of_uint d'
  | Decimal.D1 d' => 49 :: digits_of_uint d'
  | Decimal.D2 d' => 50 :: digits_of_uint d'
  | Decimal.D3 d' => 51 :: digits_of_uint d'
  | Decimal.D4 d' => 52 :: digits_of_uint d'
  | Decimal.D5 d' => 53 :: digits_of_uint d'
  | Decimal.D6 d' => 54 :: digits_of_uint d'
  | Decimal.D7 d' => 55 :: digits_of_uint d'
  | Decimal.D8 d' => 56 :: digits_of_uint d'
  | Decimal.D9 d' => 57 :: digits_of_uint d'
  end.

(** [str(n)] for a non-negative integer. *)
Definition str_of_int (n : N) : pystr := digits_of_uint (N.to_uint n).

End PyStr.
Import PyStr.

(** ** Outcomes of Python code

    A call either returns a value or raises. *)

Inductive pyexn :=
| ValueError | IndexError | KeyError | TypeError
| ServerError (msg : pystr)
| OtherException (msg : pystr).

Inductive outcome (A : Type) :=
| Returns (a : A)
| Raises (e : pyexn).
Arguments Returns {A} a.
Arguments Raises {A} e.

Definition bind {A B} (m : outcome A) (k : A -> outcome B) : outcome B :=
  match m with
  | Returns a => k a
  | Raises e => Raises e
  end.

Notation "'call' x <- m 'in' k" := (bind m (fun x => k))
  (at level 10, x pattern, m at level 100, k at level 200).

(** ** [str.format] with one positional argument

    The format-string scanner of CPython ([MarkupIterator_next],
    [parse_field], [field_name_split]) for the call
    [template.format(sentence)]: literal text, the escapes [{{] and [}}],
    and replacement fields that are empty or a name.  A field with a
    conversion ([!]), a format specification ([:]), an attribute or an
    index ([.], [[]), or a non-ASCII character in its name is outside the
    model: the result is then [None]. *)

Module Format.

Definition LBRACE : char := 123.
Definition RBRACE : char := 125.

Definition PY_SSIZE_T_MAX : N := 2 ^ 63 - 1.

(** State of the automatic field numbering. *)
Inductive an_state := ANS_INIT | ANS_AUTO | ANS_MANUAL.

Inductive mode :=
| InText
| InField (name_rev : pystr).

Definition is_ascii_digit (c : char) : bool := (48 <=? c) && (c <=? 57).

(** [get_integer]: [Some (Returns n)] for a run of digits, [Some (Raises _)]
    when it overflows [Py_ssize_t], [None] when the name is no integer. *)
Fixpoint get_integer (acc : N) (name : pystr) : option (outcome N) :=
  match name with
  | [] => Some (Returns acc)
  | c :: name' =>
      if is_ascii_digit c then
        let digitval := c - 48 in
        if (PY_SSIZE_T_MAX - digitval) / 10 <? acc then Some (Raises ValueError)
        else get_integer (acc * 10 + digitval) name'
      else None
  end.

Definition unmodelled_char (c : char) : bool :=
  (c =? 33) || (c =? 58) || (c =? 46) || (c =? 91) || (128 <=? c).

Definition lift_cons (c : char) (r : option (outcome pystr))
  : option (outcome pystr) :=
  match r with
  | Some (Returns s) => Some (Returns (c :: s))
  | other => other
  end.

Definition lift_app (a : pystr) (r : option (outcome pystr))
  : option (outcome pystr) :=
  match r with
  | Some (Returns s) => Some (Returns (a ++ s))
  | other => other
  end.

(** One pass over the template; [arg] is the only positional argument. *)
Fixpoint format_from (arg : pystr) (ans : an_state) (next : N) (m : mode)
    (s : pystr) : option (outcome pystr) :=
  match m, s with
  | InText, [] => Some (Returns [])
  | InText, c :: s' =>
      if c =? LBRACE then
        match s' with
        | [] => Some (Raises ValueError)
        | c' :: s'' =>
            if c' =? LBRACE
            then lift_cons LBRACE (format_from arg ans next InText s'')
            else format_from arg ans next (InField []) s'
        end
      else if c =? RBRACE then
        match s' with
        | [] => Some (Raises ValueError)
        | c' :: s'' =>
            if c' =? RBRACE
            then lift_cons RBRACE (format_from arg ans next InText s'')
            else Some (Raises ValueError)
        end
      else lift_cons c (format_from arg ans next InText s')
  | InField _, [] => Some (Raises ValueError)
  | InField name_rev, c :: s' =>
      if c =? LBRACE then Some (Raises ValueError)
      else if c =? RBRACE then
        match rev name_rev with
        | [] =>
            match ans with
            | ANS_MANUAL => Some (Raises ValueError)
            | _ =>
                if next =? 0
                then lift_app arg (format_from arg ANS_AUTO (next + 1) InText s')
                else Some (Raises IndexError)
            end
        | name =>
            match get_integer 0 name with
            | Some (Raises e) => Some (Raises e)
            | Some (Returns idx) =>
                match ans with
                | ANS_AUTO => Some (Raises ValueError)
                | _ =>
                    if idx =? 0
                    then lift_app arg (format_from arg ANS_MANUAL next InText s')
                    else Some (Raises IndexError)
                end
            | None => Some (Raises KeyError)
            end
        end
      else if unmodelled_char c then None
      else format_from arg ans next (InField (c :: name_rev)) s'
  end.

(** [template.format(arg)] *)
Definition format (template arg : pystr) : option (outcome pystr) :=
  format_from arg ANS_INIT 0 InText template.

End Format.

(** ** The remote endpoint and what a worker does

    [call_gemini_api] is an opaque collaborator: text in, text out (the
    response may carry no text), or an error.  A [remote] tells what the
    k-th call made for a prompt answers. *)

Inductive api_outcome :=
| ApiText (text : option pystr)
| ApiServerError (msg : pystr)
| ApiOtherError (msg : pystr).

Definition remote := pystr -> nat -> api_outcome.

Inductive event :=
| EvJitter (lo hi : N)
| EvCall (prompt : pystr)
| EvRetryMsg (attempt retries : nat) (err : pystr) (delay : N)
| EvSleep (delay : N)
| EvFailedMsg (prompt : pystr).

Definition trace := list event.

Definition is_call (e : event) : bool :=
  match e with EvCall _ => true | _ => false end.

Definition is_retry_msg (e : event) : bool :=
  match e with EvRetryMsg _ _ _ _ => true | _ => false end.

(** ** Text files

    A file is absent or holds text.  Reading is in universal-newlines mode
    (the default of [open]): [\r] and [\r\n] arrive as [\n]. *)

Module TextFile.

Definition file := option pystr.

(** [open(path, 'w')] followed by the writes [out]. *)
Definition write_w (f : file) (out : pystr) : file := Some out.

(** [open(path, 'a')] followed by the writes [out]. *)
Definition write_a (f : file) (out : pystr) : file :=
  match f with
  | Some old => Some (old ++ out)
  | None => Some out
  end.

Fixpoint universal_newlines (s : pystr) : pystr :=
  match s with
  | [] => []
  | c :: s' =>
      if c =? CR then
        LF :: match s' with
              | c' :: s'' =>
                  if c' =? LF then universal_newlines s''
                  else universal_newlines s'
              | [] => []
              end
      else c :: universal_newlines s'
  end.

(** The lines a text yields, each with its terminating [\n]. *)
Fixpoint lines_of (s : pystr) : list pystr :=
  match s with
  | [] => []
  | c :: s' =>
      if c =? LF then [LF] :: lines_of s'
      else match lines_of s' with
           | l :: ls => (c :: l) :: ls
           | [] => [[c]]
           end
  end.

(** [for line in f] on a file opened with [open(path, 'r')]. *)
Definition read_lines (content : pystr) : list pystr :=
  lines_of (universal_newlines content).

End TextFile.
Import TextFile.

(** ** Regular expressions of the scripts *)

Module Regex.

(** [(.*?)] followed by the delimiter [d]: the shortest run of characters
    other than [\n] after which [d] stands; returns the run and what
    follows the delimiter. *)
Fixpoint lazy_until (d s : pystr) : option (pystr * pystr) :=
  if startswith d s then Some ([], skipn (length d) s)
  else match s with
       | [] => None
       | c :: s' =>
           if c =? LF then None
           else match lazy_until d s' with
                | Some (g, r) => Some (c :: g, r)
                | None => None
                end
       end.

(** A match of [(d1|d2|..)(.*?)\1] at the start of [s]. *)
Fixpoint match_at (delims : list pystr) (s : pystr) : option (pystr * pystr) :=
  match delims with
  | [] => None
  | d :: ds =>
      if startswith d s then
        match lazy_until d (skipn (length d) s) with
        | Some r => Some r
        | None => match_at ds s
        end
      else match_at ds s
  end.

(** [re.sub(r'(d1|d2|..)(.*?)\1', r'\2', s)]: leftmost matches, replaced
    by their inner group; [fuel] bounds the number of scan steps. *)
Fixpoint sub_from (fuel : nat) (delims : list pystr) (s : pystr) : pystr :=
  match fuel with
  | O => s
  | S fuel' =>
      match s with
      | [] => []
      | c :: s' =>
          match match_at delims s with
          | Some (g, r) => g ++ sub_from fuel' delims r
          | None => c :: sub_from fuel' delims s'
          end
      end
  end.

Definition sub_pairs (delims : list pystr) (s : pystr) : pystr :=
  sub_from (length s) delims s.

Fixpoint span (p : char -> bool) (s : pystr) : pystr * pystr :=
  match s with
  | [] => ([], [])
  | c :: s' =>
      if p c then let '(a, b) := span p s' in (c :: a, b)
      else ([], s)
  end.

Section FailedLine.

(** [Py_UNICODE_TODECIMAL]: the decimal value of a code point of category
    Nd, taken from the interpreter's Unicode database. *)
Variable to_decimal : char -> option N.

Definition is_decimal (c : char) : bool :=
  match to_decimal c with Some _ => true | None => false end.

(** [int(digits)] *)
Definition int_of (digits : pystr) : N :=
  fold_left
    (fun acc c => acc * 10 + match to_decimal c with Some v => v | None => 0 end)
    digits 0.

(** [re.match] of the failure-line pattern at the start of [line]: an
    opening bracket, one or more decimal digits (group 1), a closing
    bracket, one or more whitespace characters, then the rest of the line
    up to a newline (group 2).  Returns [int] of group 1 and group 2.
    Both runs are taken as long as possible: a closing bracket is no
    decimal digit, and group 2 may be empty, so the engine never has to
    give a character back. *)
Definition match_failed_line (line : pystr) : option (N * pystr) :=
  match line with
  | [] => None
  | c :: rest =>
      if c =? 91 then
        let '(digits, rest1) := span is_decimal rest in
        match digits, rest1 with
        | _ :: _, c1 :: rest2 =>
            if c1 =? 93 then
              let '(ws, rest3) := span isspace rest2 in
              match ws with
              | _ :: _ =>
                  Some (int_of digits, fst (span (fun x => negb (x =? LF)) rest3))
              | [] => None
              end
            else None
        | _, _ => None
        end
      else None
  end.

End FailedLine.

(** The database on ASCII: only [0]..[9] are decimal digits. *)
Definition ascii_decimal (c : char) : option N :=
  if (48 <=? c) && (c <=? 57) then Some (c - 48) else None.

End Regex.

(** ** Shared data

    A parsed CSV file is the list of rows [csv.reader] yields, each a list
    of cells.  A submitted task is known by what [future.result()] gives
    once it has run. *)

Abbreviation row := (list pystr) (only parsing).
Abbreviation table := (list (list pystr)) (only parsing).
Abbreviation future := (outcome (option pystr)) (only parsing).

(** ** [ai_explain.py] *)

Module AiExplain.

Definition terminators : list pystr :=
  [py "。"; py "."; py "！"; py "!"; py "？"; py "?"].

(** Body of the loop of [load_sentences_from_csv] for one row. *)
Definition load_row (idx : N) (r : row) : list (N * pystr) :=
  match r with
  | [] => []
  | cell :: _ =>
      if truthy (strip cell) then
        let sentence := strip cell in
        let sentence :=
          if negb (endswith_any terminators sentence)
          then sentence ++ py "。" else sentence in
        [(idx, sentence)]
      else []
  end.

(** [for idx, row in enumerate(reader, start=idx)] *)
Fixpoint load_rows (idx : N) (rows : list row) : list (N * pystr) :=
  match rows with
  | [] => []
  | r :: rows' => load_row idx r ++ load_rows (idx + 1) rows'
  end.

(** [load_sentences_from_csv]: [next(reader, None)] drops the header. *)
Definition load_sentences_from_csv (t : table) : list (N * pystr) :=
  load_rows 1 (tl t).

(** [split_result_lines]; [None] stands for the pair [(None, None)]. *)
Definition split_result_lines (text : pystr) : option (pystr * pystr) :=
  let lines :=
    map strip
      (List.filter (fun line => truthy (strip line)) (split_lf (strip text))) in
  match lines with
  | [] => None
  | judgment :: rest =>
      Some (judgment,
            if (1 <? length lines)%nat then join [LF] rest else [])
  end.

(** [build_prompts]: the comprehension calls [template.format] once per
    sentence, in order; the first exception leaves the comprehension. *)
Fixpoint build_prompts (template : pystr) (indexed_sentences : list (N * pystr))
  : option (outcome (list pystr)) :=
  match indexed_sentences with
  | [] => Some (Returns [])
  | (_, sentence) :: rest =>
      match Format.format template sentence with
      | None => None
      | Some (Raises e) => Some (Raises e)
      | Some (Returns p) =>
          match build_prompts template rest with
          | Some (Returns ps) => Some (Returns (p :: ps))
          | other => other
          end
      end
  end.

(** The [for i in range(retries)] loop of [process_prompt_with_retry];
    [i] is the loop variable, [n] the number of iterations left. *)
Fixpoint retry_loop (api : remote) (prompt : pystr) (retries : nat) (delay : N)
    (i n : nat) (tr : trace) : outcome (option pystr) * trace :=
  match n with
  | O => (Returns None, tr)
  | S n' =>
      let tr := tr ++ [EvCall prompt] in
      match api prompt i with
      | ApiText text => (Returns text, tr)
      | ApiServerError e =>
          retry_loop api prompt retries delay (S i) n'
            (tr ++ [EvRetryMsg (i + 1) retries e delay; EvSleep delay])
      | ApiOtherError e => (Raises (OtherException e), tr)
      end
  end.

Definition process_prompt_with_retry (api : remote) (prompt : pystr)
    (retries : nat) (delay : N) : outcome (option pystr) * trace :=
  retry_loop api prompt retries delay 0 retries [EvJitter 1 2].

(** [clean_formatting]: three [re.sub] passes that drop paired markers. *)
Definition clean_formatting (text : pystr) : pystr :=
  let text := Regex.sub_pairs [py "**"; py "__"] text in
  let text := Regex.sub_pairs [py "*"; py "_"] text in
  Regex.sub_pairs [py "`"] text.

(** [while len(r) < w: r.append("")] *)
Definition pad_row (w : nat) (r : row) : row :=
  r ++ replicate (w - length r) [].

(** [r[j] = v] *)
Definition set_cell (r : row) (j : nat) (v : pystr) : outcome row :=
  if (j <? length r)%nat then Returns (<[j := v]> r) else Raises IndexError.

(** [header.index(name)] *)
Definition column (name : pystr) (header : row) : outcome nat :=
  match index_of name header with
  | Some j => Returns j
  | None => Raises ValueError
  end.

(** [if name not in header: header.append(name)] *)
Definition ensure_column (name : pystr) (header : row) : row :=
  if str_in name header then header else header ++ [name].

Definition or_empty (o : option pystr) : pystr :=
  match o with Some s => s | None => [] end.

(** Writing a judgment and an explanation into data row [row_index]:
    lines 78 to 81 of [write_results_to_csv]. *)
Definition write_cells (header : row) (data_rows : list row) (row_index : nat)
    (judgment explanation : option pystr) : outcome (list row) :=
  match data_rows !! row_index with
  | None => Raises IndexError
  | Some r =>
      let r := pad_row (length header) r in
      call jc <- column (py "ai判断") header in
      call r <- set_cell r jc (or_empty judgment) in
      call ec <- column (py "ai理解") header in
      call r <- set_cell r ec (or_empty explanation) in
      Returns (<[row_index := r]> data_rows)
  end.

(** [for i, result in enumerate(results)] of [write_results_to_csv]. *)
Fixpoint write_results (header : row) (data_rows : list row) (offset i : nat)
    (results : list (option pystr)) : outcome (list row) :=
  match results with
  | [] => Returns data_rows
  | result :: rest =>
      call data_rows <-
        match result with
        | Some text =>
            if truthy text then
              let parsed := split_result_lines text in
              write_cells header data_rows (offset + i)
                (option_map fst parsed) (option_map snd parsed)
            else Returns data_rows
        | None => Returns data_rows
        end in
      write_results header data_rows offset (S i) rest
  end.

(** [write_results_to_csv]: from the rows read to the rows written; when
    it raises, nothing is written. *)
Definition write_results_to_csv (csv : table) (results : list (option pystr))
    (offset : nat) : outcome table :=
  match csv with
  | [] => Raises IndexError
  | header :: data_rows =>
      let header := ensure_column (py "ai判断") header in
      let header := ensure_column (py "ai理解") header in
      call data_rows <- write_results header data_rows offset 0 results in
      Returns (header :: data_rows)
  end.

Definition success_block (idx : N) (sentence text : pystr) : pystr :=
  let parsed := split_result_lines text in
  py "[行号 " ++ str_of_int idx ++ py "] " ++ sentence ++ [LF]
  ++ py "AI判断: " ++ or_empty (option_map fst parsed) ++ [LF]
  ++ py "AI理解: " ++ or_empty (option_map snd parsed) ++ [LF]
  ++ repeat 45 40 ++ [LF].

(** [write_success_results_to_txt]: appends one block per result that is
    not [None]. *)
Definition write_success_results_to_txt (indexed_sentences : list (N * pystr))
    (results : list (option pystr)) (f : file) : file :=
  write_a f
    (concat (map (fun '((idx, sentence), result) =>
                    match result with
                    | Some text => success_block idx sentence text
                    | None => []
                    end)
               (combine indexed_sentences results))).

Definition failed_line (idx : N) (sentence : pystr) : pystr :=
  py "[" ++ str_of_int idx ++ py "] " ++ sentence ++ [LF].

(** [write_failed_to_txt]: opens with mode ['w']. *)
Definition write_failed_to_txt (indexed_sentences : list (N * pystr))
    (results : list (option pystr)) (f : file) : file :=
  write_w f
    (concat (map (fun '((idx, sentence), result) =>
                    match result with
                    | None => failed_line idx sentence
                    | Some _ => []
                    end)
               (combine indexed_sentences results))).

(** [load_failed_sentences]: a missing file gives the empty list. *)
Definition load_failed_sentences (to_decimal : char -> option N) (f : file)
  : list (N * pystr) :=
  match f with
  | None => []
  | Some content =>
      concat (map (fun line =>
                     match Regex.match_failed_line to_decimal (strip line) with
                     | Some m => [m]
                     | None => []
                     end)
                (read_lines content))
  end.

(** Body of the [as_completed] loop for the future of task [i].  When the
    worker returned [None], [clean_formatting(None)] raises a [TypeError]
    that the [except] clause swallows, so the slot keeps its value, as it
    does when [future.result()] itself raises. *)
Definition collect (futures : list future) (results : list (option pystr))
    (i : nat) : list (option pystr) :=
  match futures !! i with
  | Some (Returns (Some text)) => <[i := Some (clean_formatting text)]> results
  | Some (Returns None) => results
  | Some (Raises _) => results
  | None => results
  end.

(** [process_all_prompts]: task [i] runs [process_prompt_with_retry] on
    prompt [i] against [apis i]; [order] lists the tasks in the order in
    which [as_completed] yields their futures. *)
Definition process_all_prompts (apis : nat -> remote) (prompts : list pystr)
    (order : list nat) : list (option pystr) :=
  let futures :=
    imap (fun i prompt => fst (process_prompt_with_retry (apis i) prompt 3 5))
      prompts in
  fold_left (collect futures) order (replicate (length prompts) None).

Definition batch_size : nat := 10.

(** One pass of the [while] loop of [main] up to the CSV write (lines 139
    to 146): the batch, its prompts, its results and the rows written. *)
Definition main_batch (template : pystr) (indexed_sentences : list (N * pystr))
    (current_index : nat) (apis : nat -> remote) (order : list nat)
    (csv : table) : option (outcome (list (option pystr) * table)) :=
  let batch := firstn batch_size (skipn current_index indexed_sentences) in
  match build_prompts template batch with
  | None => None
  | Some (Raises e) => Some (Raises e)
  | Some (Returns prompts) =>
      let results := process_all_prompts apis prompts order in
      Some (call csv <- write_results_to_csv csv results current_index in
            Returns (results, csv))
  end.

(** The retry path of [main] for one result (lines 167 to 185): the row is
    found through the sentence's own index. *)
Definition retry_write (csv : table) (idx : N) (text : pystr) : outcome table :=
  let idx_in_csv := (N.to_nat idx - 1)%nat in
  let parsed := split_result_lines text in
  match csv with
  | [] => Raises IndexError
  | header :: data_rows =>
      match data_rows !! idx_in_csv with
      | None => Raises IndexError
      | Some r =>
          let r := pad_row (length header) r in
          let header := ensure_column (py "ai判断") header in
          let header := ensure_column (py "ai理解") header in
          call jc <- column (py "ai判断") header in
          call r <- set_cell r jc (or_empty (option_map fst parsed)) in
          call ec <- column (py "ai理解") header in
          call r <- set_cell r ec (or_empty (option_map snd parsed)) in
          Returns (header :: <[idx_in_csv := r]> data_rows)
      end
  end.

End AiExplain.

(** ** [ai_yes_no.py] *)

Module AiYesNo.

(** The loader and the prompt builder have the same text in both scripts. *)
Definition load_sentences_from_csv := AiExplain.load_sentences_from_csv.
Definition build_prompts := AiExplain.build_prompts.

(** The loop of [process_prompt_with_retry]; after the last iteration the
    failure is printed and [None] returned. *)
Fixpoint retry_loop (api : remote) (prompt : pystr) (retries : nat) (delay : N)
    (i n : nat) (tr : trace) : outcome (option pystr) * trace :=
  match n with
  | O => (Returns None, tr ++ [EvFailedMsg prompt])
  | S n' =>
      let tr := tr ++ [EvCall prompt] in
      match api prompt i with
      | ApiText text => (Returns text, tr)
      | ApiServerError e =>
          retry_loop api prompt retries delay (S i) n'
            (tr ++ [EvRetryMsg (i + 1) retries e delay; EvSleep delay])
      | ApiOtherError e => (Raises (OtherException e), tr)
      end
  end.

Definition process_prompt_with_retry (api : remote) (prompt : pystr)
    (retries : nat) (delay : N) : outcome (option pystr) * trace :=
  retry_loop api prompt retries delay 0 retries [EvJitter 1 2].

(** Body of the [as_completed] loop for the future of task [i]. *)
Definition collect (futures : list future) (results : list (option pystr))
    (i : nat) : list (option pystr) :=
  match futures !! i with
  | Some (Returns (Some text)) =>
      <[i := if truthy text then Some (strip text) else None]> results
  | Some (Returns None) => <[i := None]> results
  | Some (Raises _) => <[i := None]> results
  | None => results
  end.

Definition process_all_prompts (apis : nat -> remote) (prompts : list pystr)
    (order : list nat) : list (option pystr) :=
  let futures :=
    imap (fun i prompt => fst (process_prompt_with_retry (apis i) prompt 3 5))
      prompts in
  fold_left (collect futures) order (replicate (length prompts) None).

(** [while len(rows) <= idx: rows.append([""] * len(rows[0]))] *)
Definition grow_rows (rows : table) (idx : nat) : table :=
  rows ++ replicate (S idx - length rows) (replicate (length (hd [] rows)) []).

(** Body of the loop of [write_results_to_csv] for one result. *)
Definition write_result (rows : table) (r : N * pystr * pystr) : table :=
  let '(idx, sentence, result) := r in
  let idx := N.to_nat idx in
  let rows := grow_rows rows idx in
  match rows !! idx with
  | None => rows
  | Some target =>
      let target := target ++ replicate (2 - length target) [] in
      <[idx := <[1%nat := result]> (<[0%nat := sentence]> target)]> rows
  end.

(** [write_results_to_csv]: a missing or empty file starts from the
    default header; a header of fewer than two cells gets one more. *)
Definition write_results_to_csv (csv : option table)
    (indexed_results : list (N * pystr * pystr)) : table :=
  let rows := match csv with Some rows => rows | None => [] end in
  let rows := match rows with
              | [] => [[py "原句"; py "AI理解"]]
              | _ :: _ => rows
              end in
  let rows := match rows with
              | header :: data =>
                  if (length header <? 2)%nat
                  then (header ++ [py "AI理解"]) :: data
                  else rows
              | [] => rows
              end in
  fold_left write_result indexed_results rows.

(** [write_results_to_txt]: opens with mode ['a'] and adds a line for
    every result that is [None] or empty. *)
Definition write_results_to_txt (indexed_sentences : list (N * pystr))
    (results : list (option pystr)) (f : file) : file :=
  write_a f
    (concat (map (fun '((idx, sentence), result) =>
                    match result with
                    | Some (_ :: _) => []
                    | _ => AiExplain.failed_line idx sentence
                    end)
               (combine indexed_sentences results))).

(** [load_failed_sentences]: blank lines are skipped before matching. *)
Definition load_failed_sentences (to_decimal : char -> option N) (f : file)
  : list (N * pystr) :=
  match f with
  | None => []
  | Some content =>
      concat (map (fun line =>
                     let line := strip line in
                     if truthy line then
                       match Regex.match_failed_line to_decimal line with
                       | Some m => [m]
                       | None => []
                       end
                     else [])
                (read_lines content))
  end.

(** [update_failed_txt]: rewrites the log with the pairs that have not
    succeeded. *)
Definition update_failed_txt (f : file) (failed_sentences : list (N * pystr))
    (succeeded_indices : list N) : file :=
  let new_failed :=
    List.filter (fun fs => negb (existsb (N.eqb (fst fs)) succeeded_indices))
      failed_sentences in
  write_w f
    (concat (map (fun '(idx, sentence) => AiExplain.failed_line idx sentence)
               new_failed)).

End AiYesNo.

(** ** Vocabulary of the specification *)

(** The recognized sentence-terminating marks: the ideographic full stop,
    the full-width exclamation and question marks, and their ASCII
    counterparts. *)
Definition terminator_chars : list char :=
  [0x3002; 0x2E; 0xFF01; 0x21; 0xFF1F; 0x3F].

Definition ends_in_terminator (s : pystr) : Prop :=
  exists body c, s = body ++ [c] /\ In c terminator_chars.

Definition default_terminator : pystr := [0x3002].

(** The lines of a text after trimming each one and dropping the blank
    ones. *)
Definition surviving_lines (text : pystr) : list pystr :=
  List.filter truthy (map strip (split_lf text)).

(** Number of remote calls and of retry messages in a trace. *)
Definition call_count (tr : trace) : nat := length (List.filter is_call tr).
Definition retry_msg_count (tr : trace) : nat :=
  length (List.filter is_retry_msg tr).

(** A remote that answers every one of the first [n] calls for [prompt]
    with a server error. *)
Definition always_server_error (api : remote) (prompt : pystr) (n : nat) : Prop :=
  forall k, (k < n)%nat -> exists msg, api prompt k = ApiServerError msg.

(** What is left in slot [i] for the future of task [i]. *)
Definition explain_slot (f : future) : option pystr :=
  match f with
  | Returns (Some text) => Some (AiExplain.clean_formatting text)
  | _ => None
  end.

Definition yes_no_slot (f : future) : option pystr :=
  match f with
  | Returns (Some text) => if truthy text then Some (strip text) else None
  | _ => None
  end.

(** A text without braces: [str.format] copies it as it is. *)
Definition brace_free (s : pystr) : Prop :=
  ~ In Format.LBRACE s /\ ~ In Format.RBRACE s.

(** The substitution placeholder of the templates. *)
Definition placeholder : pystr := py "{0}".

(** The header [write_results_to_csv] of [ai_yes_no.py] works with: a
    header of fewer than two cells gets the result column appended. *)
Definition yes_no_header (header : row) : row :=
  if (length header <? 2)%nat then header ++ [py "AI理解"] else header.

(** A row of [w] empty cells. *)
Definition blank_row (w : nat) : row := replicate w [].

(** A table whose second data row has an empty first cell. *)
Definition skipped_row_table : table :=
  [[py "原句"]; [py "天气很好。"]; [py ""]; [py "明天."]].

(** A remote that answers every call: task 0 with one two-line response,
    every other task with another. *)
Definition answering : nat -> remote :=
  fun i _ _ =>
    ApiText (Some (if (i =? 0)%nat then py "对" ++ [LF] ++ py "解释A"
                   else py "错" ++ [LF] ++ py "解释B")).

(** The pairs of a batch whose result satisfies [failed]. *)
Definition pairs_where (failed : option pystr -> bool)
    (indexed_sentences : list (N * pystr)) (results : list (option pystr))
  : list (N * pystr) :=
  map fst (List.filter (fun pr => failed (snd pr))
             (combine indexed_sentences results)).

Definition is_absent (r : option pystr) : bool :=
  match r with None => true | Some _ => false end.

Definition is_absent_or_empty (r : option pystr) : bool :=
  match r with Some (_ :: _) => false | _ => true end.

(** One line [[<index>] <sentence text>] per pair. *)
Definition log_lines (pairs : list (N * pystr)) : pystr :=
  concat (map (fun p => py "[" ++ str_of_int (fst p) ++ py "] " ++ snd p ++ [LF])
            pairs).

Definition file_text (f : file) : pystr :=
  match f with Some text => text | None => [] end.

(** The two-row example scenario: row 1 is answered with [response], every
    call for row 2 raises a server error. *)
Definition scenario_table : table :=
  [[py "原句"]; [py "天气很好。"]; [py "明天."]].

Definition scenario_template : pystr := py "判断：{0}".

Definition scenario_apis (response msg : pystr) : nat -> remote :=
  fun i _ _ =>
    if (i =? 0)%nat then ApiText (Some response) else ApiServerError msg.

(** The interpreter's Unicode database agrees with ASCII below 128: only
    [0]..[9] are decimal digits there. *)
Definition unicode_agrees_on_ascii (to_decimal : char -> option N) : Prop :=
  forall c, c < 128 -> to_decimal c = Regex.ascii_decimal c.

(** A text with no leading and no trailing whitespace. *)
Definition no_outer_space (s : pystr) : Prop :=
  (forall c rest, s = c :: rest -> isspace c = false)
  /\ (forall body c, s = body ++ [c] -> isspace c = false).

(** The sentences the round trip of the failure log is claimed for, and
    those it holds for. *)
Definition claimed_sentence (s : pystr) : Prop :=
  s <> [] /\ ~ In LF s /\ no_outer_space s.

Definition loggable_sentence (s : pystr) : Prop :=
  s <> [] /\ ~ In LF s /\ ~ In CR s /\ no_outer_space s.

(** One step of reading a decimal numeral written in ASCII digits. *)
Definition digit_step (acc c : N) : N := acc * 10 + (c - 48).

(** The text of a failure-log line without its newline. *)
Definition log_body (p : N * pystr) : pystr :=
  py "[" ++ str_of_int (fst p) ++ py "] " ++ snd p.

(** ** Further code of the scripts *)

(** A data row the loader keeps: its first cell has text besides
    whitespace. *)
Definition kept_row (r : row) : Prop :=
  exists cell rest, r = cell :: rest /\ strip cell <> [].

(** A sentence in the loader's normal form. *)
Definition normalized (s : pystr) : Prop :=
  s <> [] /\ ends_in_terminator s /\ no_outer_space s.

(** A line as [split_result_lines] keeps it: not empty, without a newline
    and without whitespace at either end. *)
Definition clean_line (l : pystr) : Prop :=
  l <> [] /\ ~ In LF l /\ no_outer_space l.

(** The characters [clean_formatting] looks for: asterisk, underscore and
    backtick. *)
Definition marker_chars : list char := [42; 95; 96].

Definition marker_free (s : pystr) : Prop :=
  forall c, In c s -> ~ In c marker_chars.

(** No character of [s] starts one of the delimiters. *)
Definition inert (delims : list pystr) (s : pystr) : Prop :=
  forall c, In c s -> forall d, In d delims -> head d <> Some c.

(** ** [ai_match.py] *)

Module AiMatch.

(** The loop of [process_prompt_with_retry]: here every exception of the
    call is caught and retried; after the last iteration the failure is
    printed and [None] returned. *)
Fixpoint retry_loop (api : remote) (prompt : pystr) (retries : nat) (delay : N)
    (i n : nat) (tr : trace) : outcome (option pystr) * trace :=
  match n with
  | O => (Returns None, tr ++ [EvFailedMsg prompt])
  | S n' =>
      let tr := tr ++ [EvCall prompt] in
      match api prompt i with
      | ApiText text => (Returns text, tr)
      | ApiServerError e | ApiOtherError e =>
          retry_loop api prompt retries delay (S i) n'
            (tr ++ [EvRetryMsg (i + 1) retries e delay; EvSleep delay])
      end
  end.

Definition process_prompt_with_retry (api : remote) (prompt : pystr)
    (retries : nat) (delay : N) : outcome (option pystr) * trace :=
  retry_loop api prompt retries delay 0 retries [EvJitter 1 3].

End AiMatch.

(** The first [k] calls for [prompt] are answered by a server error. *)
Definition server_errors_before (api : remote) (prompt : pystr) (k : nat) : Prop :=
  forall j, (j < k)%nat -> exists msg, api prompt j = ApiServerError msg.

(** The first [k] calls for [prompt] fail, in whichever way. *)
Definition failures_before (api : remote) (prompt : pystr) (k : nat) : Prop :=
  forall j, (j < k)%nat -> forall text, api prompt j <> ApiText text.

Definition is_sleep (e : event) : bool :=
  match e with EvSleep _ => true | _ => false end.

Definition sleep_count (tr : trace) : nat := length (List.filter is_sleep tr).

(** What a run of one of the loops adds to a trace: [c] calls and [m]
    retry messages, each followed by a sleep. *)
Definition adds (tr tr' : trace) (c m : nat) : Prop :=
  call_count tr' = (call_count tr + c)%nat
  /\ retry_msg_count tr' = (retry_msg_count tr + m)%nat
  /\ sleep_count tr' = (sleep_count tr + m)%nat.


(** The header [write_results_to_csv] of [ai_explain.py] writes: the
    judgment and the explanation column are appended when missing. *)
Definition explain_header (header : row) : row :=
  AiExplain.ensure_column (py "ai理解")
    (AiExplain.ensure_column (py "ai判断") header).

(** The row [write_results_to_csv] of [ai_explain.py] leaves in place of
    [r] for a result [text]: lines 77 to 81. *)
Definition written_row (header r : row) (text : pystr) : row :=
  let parsed := AiExplain.split_result_lines text in
  let jc := default 0%nat (index_of (py "ai判断") header) in
  let ec := default 0%nat (index_of (py "ai理解") header) in
  <[ec := AiExplain.or_empty (option_map snd parsed)]>
    (<[jc := AiExplain.or_empty (option_map fst parsed)]>
       (AiExplain.pad_row (length header) r)).

(** The result that a batch write with offset [offset] stores in data row
    [k]: the non-empty result at position [k - offset] of the batch. *)
Definition result_for (offset : nat) (results : list (option pystr)) (k : nat)
  : option pystr :=
  if (offset <=? k)%nat then
    match results !! (k - offset)%nat with
    | Some (Some text) => if truthy text then Some text else None
    | _ => None
    end
  else None.

(** The table [write_results_to_csv] of [ai_yes_no.py] starts from: the
    rows read, with the header completed to two cells, or the default
    header when the file is missing or empty. *)
Definition yes_no_start (csv : option table) : table :=
  match csv with
  | Some (header :: data) => yes_no_header header :: data
  | _ => [[py "原句"; py "AI理解"]]
  end.

(** The row number a result is written to. *)
Definition target (x : N * pystr * pystr) : nat := N.to_nat (fst (fst x)).

(** The failed pairs that [update_failed_txt] keeps: those whose index is
    not among the succeeded ones. *)
Definition still_failed (failed : list (N * pystr)) (succeeded : list N)
  : list (N * pystr) :=
  List.filter
    (fun p => if in_dec N.eq_dec (fst p) succeeded then false else true) failed.

(** A log whose text, if any, ends with a newline. *)
Definition ends_with_newline (f : file) : Prop :=
  match f with
  | None => True
  | Some text => text = [] \/ exists body, text = body ++ [LF]
  end.

(** ** The batch loop of [main]

    Both batch scripts run the same [while] loop.  [answers k] is what the
    operator types at the k-th question whether to go on. *)

(** [cont.lower() == 'y'] *)
Definition is_yes (answer : pystr) : bool :=
  pystr_eqb answer [121] || pystr_eqb answer [89].

(** The values [current_index] takes in the iterations of the loop;
    [fuel] bounds the number of iterations and [asked] counts the
    questions put so far. *)
Fixpoint batch_offsets (fuel total current_index asked : nat)
    (answers : nat -> pystr) : list nat :=
  match fuel with
  | O => []
  | S fuel' =>
      if (current_index <? total)%nat then
        current_index ::
          (if (current_index + AiExplain.batch_size <? total)%nat then
             if is_yes (answers asked)
             then batch_offsets fuel' total (current_index + AiExplain.batch_size)
                    (S asked) answers
             else []
           else batch_offsets fuel' total (current_index + AiExplain.batch_size)
                  asked answers)
      else []
  end.

Definition main_offsets (total : nat) (answers : nat -> pystr) : list nat :=
  batch_offsets (S total) total 0 0 answers.

(** The batches [main] processes, in order. *)
Definition main_batches (indexed_sentences : list (N * pystr))
    (answers : nat -> pystr) : list (list (N * pystr)) :=
  map (fun current_index =>
         firstn AiExplain.batch_size (skipn current_index indexed_sentences))
    (main_offsets (length indexed_sentences) answers).

(** The results [main] of [ai_yes_no.py] passes to [write_results_to_csv]
    for a batch (lines 152 to 155): the triples with a non-empty result. *)
Definition main_written (batch : list (N * pystr)) (results : list (option pystr))
  : list (N * pystr * pystr) :=
  flat_map (fun '((idx, sentence), result) =>
              match result with
              | Some (c :: text) => [(idx, sentence, c :: text)]
              | _ => []
              end)
    (combine batch results).

(** The pairs [main] of [ai_yes_no.py] reports as failed (line 158). *)
Definition main_failed (batch : list (N * pystr)) (results : list (option pystr))
  : list (N * pystr) :=
  map fst (List.filter (fun '(_, result) =>
                          match result with
                          | Some (_ :: _) => false
                          | _ => true
                          end)
             (combine batch results)).

(** Indices that increase strictly along a list of pairs. *)
Definition increasing (l : list (N * pystr)) : Prop :=
  forall i j a b, (i < j)%nat -> l !! i = Some a -> l !! j = Some b ->
                  fst a < fst b.

(** ** More of [ai_match.py] *)

Module AiMatchScore.

Definition DISAMBIGUATION_FIELDS : list pystr :=
  [py "歧义句消岐1"; py "歧义句消岐2"; py "歧义句消岐3"; py "歧义句消岐4"].

Definition AI_FIELD : pystr := py "ai理解".

(** A row of [csv.DictReader], known by what [row.get(field)] answers:
    [None] for a missing key or a missing cell. *)
Definition dict_row := pystr -> option pystr.

(** [s.split(sep)] for a one-character separator. *)
Fixpoint split_on (sep : char) (s : pystr) : list pystr :=
  match s with
  | [] => [[]]
  | c :: s' =>
      if c =? sep then [] :: split_on sep s'
      else match split_on sep s' with
           | l :: ls => (c :: l) :: ls
           | [] => [[c]]
           end
  end.

(** The values of the disambiguation fields that [read_csv] keeps for a
    row: trimmed, not empty and not the placeholder for "none". *)
Definition dis_list (row : dict_row) : list pystr :=
  List.filter (fun value => truthy value && negb (pystr_eqb value (py "无")))
    (map (fun field => strip (AiExplain.or_empty (row field)))
       DISAMBIGUATION_FIELDS).

(** Body of the loop of [read_csv] for one row. *)
Definition read_row (row : dict_row) : list (pystr * pystr) :=
  let ai_value := strip (AiExplain.or_empty (row AI_FIELD)) in
  match dis_list row with
  | [] => []
  | _ :: _ =>
      if truthy ai_value then [(join (py "; ") (dis_list row), ai_value)] else []
  end.

Definition read_csv (rows : list dict_row) : list (pystr * pystr) :=
  flat_map read_row rows.

(** [gold_count] of [calculate_precision_recall]: the number of
    non-blank pieces of [dis] between semicolons. *)
Definition gold_count (dis : pystr) : nat :=
  length (map strip (List.filter (fun x => truthy (strip x)) (split_on 59 dis))).

Section DigitTables.

(** [str.isdigit] on one character and [Py_UNICODE_TODECIMAL], both from
    the interpreter's Unicode database, and the interpreter's limit on
    the length of a decimal numeral that [int] accepts (0: no limit). *)
Variable isdigit : char -> bool.
Variable to_decimal : char -> option N.
Variable max_str_digits : nat.

(** [int(s)] for a string [s] made of characters that satisfy
    [isdigit]. *)
Definition int_of_digit_string (s : pystr) : outcome N :=
  match s with
  | [] => Raises ValueError
  | _ :: _ =>
      if forallb (Regex.is_decimal to_decimal) s then
        if (0 <? max_str_digits)%nat && (max_str_digits <? length s)%nat
        then Raises ValueError
        else Returns (Regex.int_of to_decimal s)
      else Raises ValueError
  end.

(** The [try] block of [evaluate_match]: a response that is [None] cannot
    be iterated; every exception gives 0. *)
Definition count_from_response (response : option pystr) : N :=
  match response with
  | None => 0
  | Some text =>
      match int_of_digit_string (List.filter isdigit text) with
      | Returns matched => matched
      | Raises _ => 0
      end
  end.

Definition match_prompt (dis_values ai_value : pystr) : pystr :=
  py "请你判断下列AI的理解与原理解的匹配程度。" ++ [LF; LF]
  ++ py "原理解选项:" ++ [LF] ++ dis_values ++ [LF; LF]
  ++ py "AI的理解:" ++ [LF] ++ ai_value ++ [LF; LF]
  ++ py "请回答匹配的个数，不需要解释原因。".

(** [evaluate_match]: the call is outside the [try] block.  Only the
    value returned is kept, not what is printed on the way. *)
Definition evaluate_match (api : remote) (dis_values ai_value : pystr)
  : outcome N :=
  match fst (AiMatch.process_prompt_with_retry api
               (match_prompt dis_values ai_value) 3 5) with
  | Returns response => Returns (count_from_response response)
  | Raises e => Raises e
  end.

End DigitTables.

End AiMatchScore.

(** On the characters of [text], [str.isdigit] holds exactly for the
    ASCII digits. *)
Definition ascii_digits_only (isdigit : char -> bool) (text : pystr) : Prop :=
  forall c, In c text -> isdigit c = Format.is_ascii_digit c.

(** The numeral is short enough for [int]. *)
Definition within_digit_limit (max_str_digits : nat) (digits : pystr) : Prop :=
  max_str_digits = 0%nat \/ (length digits <= max_str_digits)%nat.

(** ** The prompt template *)

(** [f.readline()] right after [open(path, 'r')]: the first line with its
    newline, the empty string at the end of the file. *)
Definition readline (content : pystr) : pystr :=
  match read_lines content with
  | line :: _ => line
  | [] => []
  end.

(** [load_prompt_template], the same text in [ai_explain.py] and
    [ai_yes_no.py], on the content of the template file. *)
Definition load_prompt_template (content : pystr) : pystr :=
  strip (readline content).
(** ** A run of [main] of [ai_explain.py]

    A run acts on the CSV file at [csv_path] and prints on the console;
    the two text logs at the default paths of the log writers are part of
    what it could reach.  [console] holds the texts [main] itself prints,
    the prompts of [input] included, one entry per call; what the workers
    and the progress bar print is left out, and a run that raises is known
    by its exception only. *)

Module ExplainRun.

Record world := World {
  csv_file : table;
  failed_txt : file;
  success_txt : file;
  console : list pystr
}.

Definition say (text : pystr) (w : world) : world :=
  World (csv_file w) (failed_txt w) (success_txt w) (console w ++ [text]).

Definition set_csv (csv : table) (w : world) : world :=
  World csv (failed_txt w) (success_txt w) (console w).

(** What the remote and the operator do during one pass of the loop: the
    remote of each task and the order of completion for the dispatch of
    the batch and for the dispatch of the retry, and what the operator
    types at the two questions when they are put. *)
Record pass := Pass {
  apis : nat -> remote;
  order : list nat;
  retry_choice : pystr;
  retry_apis : nat -> remote;
  retry_order : list nat;
  cont : pystr
}.

(** A step that may raise, or may leave the modelled fragment of
    [str.format] ([None]). *)
Definition bind_run {A B : Type} (m : option (outcome A))
    (k : A -> option (outcome B)) : option (outcome B) :=
  match m with
  | None => None
  | Some (Raises e) => Some (Raises e)
  | Some (Returns a) => k a
  end.

Notation "'run' x <- m 'in' k" := (bind_run m (fun x => k))
  (at level 10, x name, m at level 100, k at level 200, only parsing).

(** [[i for i, r in enumerate(results) if r is None]] *)
Definition failed_indices (results : list (option pystr)) : list nat :=
  concat (imap (fun i r => match r with None => [i] | Some _ => [] end) results).

(** [[batch[i] for i in failed_indices]] *)
Fixpoint pick (batch : list (N * pystr)) (indices : list nat)
  : outcome (list (N * pystr)) :=
  match indices with
  | [] => Returns []
  | i :: indices' =>
      match batch !! i with
      | None => Raises IndexError
      | Some entry =>
          call entries <- pick batch indices' in Returns (entry :: entries)
      end
  end.

(** The report of the failed sentences (lines 153 to 155). *)
Fixpoint report (batch : list (N * pystr)) (indices : list nat) (w : world)
  : outcome world :=
  match indices with
  | [] => Returns w
  | i :: indices' =>
      match batch !! i with
      | None => Raises IndexError
      | Some (idx, sentence) =>
          report batch indices'
            (say (py "  [行号 " ++ str_of_int idx ++ py "] " ++ sentence) w)
      end
  end.

(** The loop over [retry_results] (lines 165 to 185). *)
Fixpoint retry_writes (failed_batch : list (N * pystr))
    (retry_results : list (option pystr)) (i : nat) (csv : table)
  : outcome table :=
  match retry_results with
  | [] => Returns csv
  | None :: rest => retry_writes failed_batch rest (S i) csv
  | Some text :: rest =>
      match failed_batch !! i with
      | None => Raises IndexError
      | Some (idx, _) =>
          call csv <- AiExplain.retry_write csv idx text in
          retry_writes failed_batch rest (S i) csv
      end
  end.

(** The body of the [while] loop up to the question whether to go on
    (lines 139 to 190).  No statement of it opens a text log: the two
    calls of a log writer, after each dispatch, are commented out. *)
Definition pass_body (template : pystr) (indexed_sentences : list (N * pystr))
    (current_index : nat) (p : pass) (w : world) : option (outcome world) :=
  let total := length indexed_sentences in
  let batch :=
    firstn AiExplain.batch_size (skipn current_index indexed_sentences) in
  run written <-
    AiExplain.main_batch template indexed_sentences current_index
      (apis p) (order p) (csv_file w) in
  let results := fst written in
  let csv := snd written in
  let w :=
    say ([LF] ++ py "📦 Processing batch " ++ str_of_int (N.of_nat (current_index + 1))
         ++ py " to " ++ str_of_int (N.of_nat (current_index + length batch))
         ++ py " of " ++ str_of_int (N.of_nat total) ++ py "...") w in
  let w := set_csv csv w in
  match failed_indices results with
  | [] => Some (Returns (say (py "✅ 本批句子全部处理成功。") w))
  | _ :: _ =>
      let w := say ([LF] ++ py "❌ 以下句子处理失败：") w in
      run w <- Some (report batch (failed_indices results) w) in
      let w := say ([LF] ++ py "🔁 是否重试失败的句子？输入 y 继续，其他键跳过：") w in
      if is_yes (retry_choice p) then
        run failed_batch <- Some (pick batch (failed_indices results)) in
        run failed_prompts <- AiExplain.build_prompts template failed_batch in
        let retry_results :=
          AiExplain.process_all_prompts (retry_apis p) failed_prompts
            (retry_order p) in
        run csv <-
          Some (retry_writes failed_batch retry_results 0 (csv_file w)) in
        Some (Returns (say (py "✅ 重试完成，已更新CSV。") (set_csv csv w)))
      else Some (Returns (say (py "⚠️ 跳过重试。") w))
  end.

(** The [while] loop of [main]; [k] counts the passes and [fuel] bounds
    them. *)
Fixpoint loop (fuel : nat) (template : pystr)
    (indexed_sentences : list (N * pystr)) (current_index k : nat)
    (passes : nat -> pass) (w : world) : option (outcome world) :=
  match fuel with
  | O => None
  | S fuel' =>
      if (current_index <? length indexed_sentences)%nat then
        run w <- pass_body template indexed_sentences current_index (passes k) w in
        if (current_index + AiExplain.batch_size <? length indexed_sentences)%nat
        then
          let w := say ([LF] ++ py "👉 是否继续处理下一批？输入 y 继续，其他键退出：") w in
          if is_yes (cont (passes k)) then
            loop fuel' template indexed_sentences
              (current_index + AiExplain.batch_size) (S k) passes w
          else Some (Returns (say (py "🎉 全部完成或中途终止。") (say (py "✅ 处理已手动终止。") w)))
        else
          loop fuel' template indexed_sentences
            (current_index + AiExplain.batch_size) (S k) passes w
      else Some (Returns (say (py "🎉 全部完成或中途终止。") w))
  end.

(** [main], from the content of the template file and the state of the
    files; the paths and the key of [load_env_config] are left out. *)
Definition main (template_file : pystr) (passes : nat -> pass) (w : world)
  : option (outcome world) :=
  let template := load_prompt_template template_file in
  let indexed_sentences := AiExplain.load_sentences_from_csv (csv_file w) in
  loop (S (length indexed_sentences)) template indexed_sentences 0 0 passes w.

End ExplainRun.

(** A run of [main] on the two-row scenario: row 1 is answered with
    [response]; every call for row 2 raises a server error, in the batch
    and in the retry if the operator asks for one. *)
Definition scenario_pass (response msg : pystr) (order : list nat)
    (retry_choice cont : pystr) : ExplainRun.pass :=
  ExplainRun.Pass (scenario_apis response msg) order retry_choice
    (fun _ _ _ => ApiServerError msg) [0%nat] cont.

Definition scenario_run (response msg : pystr) (order : list nat)
    (retry_choice cont : pystr) (failed_txt success_txt : file)
  : option (outcome ExplainRun.world) :=
  ExplainRun.main scenario_template
    (fun _ => scenario_pass response msg order retry_choice cont)
    (ExplainRun.World scenario_table failed_txt success_txt []).

(** Row 1 of the scenario after the CSV write: [if result:] leaves the row
    as it is for an empty text. *)
Definition scenario_first_row (cleaned : pystr) : row :=
  if truthy cleaned then
    let parsed := AiExplain.split_result_lines cleaned in
    [py "天气很好。"; AiExplain.or_empty (option_map fst parsed);
     AiExplain.or_empty (option_map snd parsed)]
  else [py "天气很好。"].

(** What [main] prints in the scenario. *)
Definition scenario_console (retry_choice : pystr) : list pystr :=
  [[LF] ++ py "📦 Processing batch 1 to 2 of 2...";
   [LF] ++ py "❌ 以下句子处理失败：";
   py "  [行号 2] 明天.";
   [LF] ++ py "🔁 是否重试失败的句子？输入 y 继续，其他键跳过：";
   if is_yes retry_choice then py "✅ 重试完成，已更新CSV。" else py "⚠️ 跳过重试。";
   py "🎉 全部完成或中途终止。"].
(** * Properties *)

Section StringFacts.

Lemma startswith_single (c : char) (s : pystr) :
  startswith [c] s = true <-> exists s', s = c :: s'.
Proof.
  destruct s as [|x s']; simpl.
  - split; [discriminate | intros [? H]; discriminate].
  - rewrite andb_true_r, N.eqb_eq. split.
    + intros ->. eauto.
    + intros [? H]. congruence.
Qed.

Lemma endswith_single (c : char) (s : pystr) :
  endswith [c] s = true <-> exists body, s = body ++ [c].
Proof.
  unfold endswith. change (rev [c]) with [c]. rewrite startswith_single. split.
  - intros [r Hr]. exists (rev r).
    rewrite <- (rev_involutive s), Hr. reflexivity.
  - intros [body ->]. exists (rev body). rewrite rev_app_distr. reflexivity.
Qed.

Lemma endswith_terminators (s : pystr) :
  endswith_any AiExplain.terminators s = true <-> ends_in_terminator s.
Proof.
  unfold endswith_any, ends_in_terminator. rewrite existsb_exists. split.
  - intros [suf [Hin Hsuf]].
    assert (exists c, suf = [c] /\ In c terminator_chars) as [c [-> Hc]].
    { simpl in Hin. unfold terminator_chars.
      repeat (destruct Hin as [<- | Hin];
              [eexists; split; [reflexivity | simpl; tauto] |]).
      contradiction. }
    apply endswith_single in Hsuf as [body ->]. eauto.
  - intros (body & c & -> & Hc). exists [c]. split.
    + unfold terminator_chars in Hc. simpl in Hc. simpl.
      repeat (destruct Hc as [<- | Hc]; [tauto |]). contradiction.
    + apply endswith_single. eauto.
Qed.

End StringFacts.

Lemma load_row_In (i j : N) (r : row) (s : pystr) :
  In (j, s) (AiExplain.load_row i r) <->
  j = i /\ AiExplain.load_row i r = [(i, s)].
Proof.
  unfold AiExplain.load_row. destruct r as [|cell ?].
  - split; [intros [] | intros [_ H]; discriminate].
  - destruct (truthy (strip cell)).
    + split.
      * intros [H | []]. inversion H; subst. split; reflexivity.
      * intros [-> H]. inversion H. left. reflexivity.
    + split; [intros [] | intros [_ H]; discriminate].
Qed.

Lemma load_rows_In (rows : list row) (start i : N) (s : pystr) :
  In (i, s) (AiExplain.load_rows start rows) <->
  exists k r, rows !! k = Some r /\ i = start + N.of_nat k
              /\ AiExplain.load_row i r = [(i, s)].
Proof.
  revert start. induction rows as [|r0 rows IH]; intros start.
  - simpl. split; [tauto | intros (k & r & H & _); destruct k; discriminate].
  - cbn [AiExplain.load_rows]. rewrite in_app_iff, IH, load_row_In. split.
    + intros [[-> H0] | (k & r & Hk & Hi & Hr)].
      * exists 0%nat, r0. split; [reflexivity |]. split; [lia | exact H0].
      * exists (S k), r. split; [exact Hk |]. split; [lia | exact Hr].
    + intros (k & r & Hk & Hi & Hr). destruct k as [|k]; simpl in Hk.
      * left. inversion Hk; subst r0. assert (i = start) as -> by lia.
        split; [reflexivity | exact Hr].
      * right. exists k, r. split; [exact Hk |]. split; [lia | exact Hr].
Qed.

(** C5. For a data row that the loader keeps (its trimmed first cell is not
    empty), the sentence recorded under the row's 1-based position is the
    trimmed cell itself when it already ends in a recognized terminator,
    and the trimmed cell followed by the default terminator otherwise. *)
Theorem loader_normalizes_terminal_punctuation
    (t : table) (k : nat) (r : row) (cell s : pystr) :
  tl t !! k = Some r ->
  head r = Some cell ->
  strip cell <> [] ->
  (In (N.of_nat (S k), s) (AiExplain.load_sentences_from_csv t) <->
   (ends_in_terminator (strip cell) /\ s = strip cell) \/
   (~ ends_in_terminator (strip cell) /\ s = strip cell ++ default_terminator)).
Proof.
  intros Hk Hcell Hne. unfold AiExplain.load_sentences_from_csv.
  rewrite load_rows_In.
  assert (Hrow : AiExplain.load_row (N.of_nat (S k)) r =
                 [(N.of_nat (S k),
                   if endswith_any AiExplain.terminators (strip cell)
                   then strip cell else strip cell ++ default_terminator)]).
  { destruct r as [|c0 r']; [discriminate |]. simpl in Hcell.
    inversion Hcell; subst c0. unfold AiExplain.load_row.
    destruct (strip cell) as [|c1 s1] eqn:E; [congruence |].
    simpl truthy. cbv iota.
    destruct (endswith_any AiExplain.terminators (c1 :: s1)); reflexivity. }
  split.
  - intros (k' & r' & Hk' & Hi & Hr').
    assert (k' = k) as -> by lia. rewrite Hk in Hk'. inversion Hk'; subst r'.
    rewrite Hrow in Hr'.
    destruct (endswith_any AiExplain.terminators (strip cell)) eqn:E.
    + left. split; [apply endswith_terminators; exact E | congruence].
    + right. split; [| congruence].
      intros H. apply endswith_terminators in H. congruence.
  - intros H. exists k, r. split; [exact Hk |]. split; [lia |].
    rewrite Hrow. destruct H as [[Ht ->] | [Ht ->]].
    + apply endswith_terminators in Ht. rewrite Ht. reflexivity.
    + destruct (endswith_any AiExplain.terminators (strip cell)) eqn:E.
      * exfalso. apply Ht, endswith_terminators, E.
      * reflexivity.
Qed.

Lemma loader_normalizes_terminal_punctuation_witness :
  let t : table := [[py "原句"]; [py " 天气很好 "]; [py "明天."]] in
  tl t !! 0%nat = Some [py " 天气很好 "]
  /\ head [py " 天气很好 "] = Some (py " 天气很好 ")
  /\ strip (py " 天气很好 ") <> []
  /\ In (1, py "天气很好。") (AiExplain.load_sentences_from_csv t).
Proof.
  intros t.
  assert (Hne : strip (py " 天气很好 ") <> []) by (vm_compute; discriminate).
  split; [reflexivity |]. split; [reflexivity |]. split; [exact Hne |].
  apply (proj2 (loader_normalizes_terminal_punctuation t 0
                  [py " 天气很好 "] (py " 天气很好 ") (py "天气很好。")
                  eq_refl eq_refl Hne)).
  right. split; [| reflexivity].
  intros H. apply endswith_terminators in H. vm_compute in H. discriminate.
Defined.

Section SplitFacts.

Lemma split_lf_nonempty (s : pystr) : split_lf s <> [].
Proof.
  destruct s as [|c s]; simpl; [discriminate |].
  destruct (c =? LF); [discriminate |].
  destruct (split_lf s); discriminate.
Qed.

Lemma lstrip_space (c : char) (s : pystr) :
  isspace c = true -> lstrip (c :: s) = lstrip s.
Proof. intros H. simpl. rewrite H. reflexivity. Qed.

Lemma strip_cons_space (c : char) (s : pystr) :
  isspace c = true -> strip (c :: s) = strip s.
Proof. intros H. unfold strip. rewrite lstrip_space by exact H. reflexivity. Qed.

Lemma rstrip_snoc_space (c : char) (s : pystr) :
  isspace c = true -> rstrip (s ++ [c]) = rstrip s.
Proof.
  intros H. unfold rstrip. rewrite rev_app_distr. simpl. rewrite H. reflexivity.
Qed.

Lemma rstrip_snoc_other (c : char) (s : pystr) :
  isspace c = false -> rstrip (s ++ [c]) = s ++ [c].
Proof.
  intros H. unfold rstrip. rewrite rev_app_distr. simpl. rewrite H.
  simpl. rewrite rev_involutive. reflexivity.
Qed.

Lemma strip_snoc_space (c : char) (s : pystr) :
  isspace c = true -> strip (s ++ [c]) = strip s.
Proof.
  intros H. induction s as [|x s IH].
  - unfold strip. simpl. rewrite H. reflexivity.
  - destruct (isspace x) eqn:Hx.
    + change ((x :: s) ++ [c]) with (x :: (s ++ [c])).
      rewrite !strip_cons_space by exact Hx. exact IH.
    + unfold strip. change ((x :: s) ++ [c]) with (x :: (s ++ [c])).
      simpl lstrip. rewrite Hx.
      apply (rstrip_snoc_space c (x :: s) H).
Qed.

Lemma LF_isspace : isspace LF = true.
Proof. reflexivity. Qed.

Lemma surviving_cons_space (c : char) (s : pystr) :
  isspace c = true -> surviving_lines (c :: s) = surviving_lines s.
Proof.
  intros H. unfold surviving_lines. simpl split_lf.
  destruct (c =? LF) eqn:E.
  - reflexivity.
  - destruct (split_lf s) as [|l ls] eqn:El.
    + exfalso. exact (split_lf_nonempty s El).
    + simpl. rewrite strip_cons_space by exact H. reflexivity.
Qed.

Lemma surviving_lstrip (s : pystr) :
  surviving_lines (lstrip s) = surviving_lines s.
Proof.
  induction s as [|c s IH]; [reflexivity |].
  simpl. destruct (isspace c) eqn:H; [| reflexivity].
  rewrite surviving_cons_space by exact H. exact IH.
Qed.

Lemma split_lf_snoc_lf (s : pystr) :
  split_lf (s ++ [LF]) = split_lf s ++ [[]].
Proof.
  induction s as [|c s IH]; [reflexivity |].
  simpl. rewrite IH. destruct (c =? LF); [reflexivity |].
  destruct (split_lf s) as [|l ls] eqn:El.
  - exfalso. exact (split_lf_nonempty s El).
  - reflexivity.
Qed.

Lemma split_lf_snoc_other (c : char) (s : pystr) :
  (c =? LF) = false ->
  exists ls l, split_lf s = ls ++ [l] /\ split_lf (s ++ [c]) = ls ++ [l ++ [c]].
Proof.
  intros Hc. induction s as [|x s (ls & l & E1 & E2)].
  - exists [], []. simpl. rewrite Hc. split; reflexivity.
  - simpl. rewrite E1, E2. destruct (x =? LF).
    + exists ([] :: ls), l. split; reflexivity.
    + destruct ls as [|l0 ls]; simpl.
      * exists [], (x :: l). split; reflexivity.
      * exists ((x :: l0) :: ls), l. split; reflexivity.
Qed.

Lemma surviving_snoc_space (c : char) (s : pystr) :
  isspace c = true -> surviving_lines (s ++ [c]) = surviving_lines s.
Proof.
  intros H. unfold surviving_lines. destruct (c =? LF) eqn:E.
  - apply N.eqb_eq in E. subst c. rewrite split_lf_snoc_lf.
    rewrite map_app, List.filter_app. simpl. apply app_nil_r.
  - destruct (split_lf_snoc_other c s E) as (ls & l & -> & ->).
    rewrite !map_app, !List.filter_app. simpl.
    rewrite strip_snoc_space by exact H. reflexivity.
Qed.

Lemma surviving_rstrip (s : pystr) :
  surviving_lines (rstrip s) = surviving_lines s.
Proof.
  induction s as [|c s IH] using rev_ind; [reflexivity |].
  destruct (isspace c) eqn:H.
  - rewrite rstrip_snoc_space, surviving_snoc_space by exact H. exact IH.
  - rewrite rstrip_snoc_other by exact H. reflexivity.
Qed.

Lemma surviving_strip (s : pystr) :
  surviving_lines (strip s) = surviving_lines s.
Proof. unfold strip. rewrite surviving_rstrip. apply surviving_lstrip. Qed.

Lemma map_filter_strip (ls : list pystr) :
  map strip (List.filter (fun line => truthy (strip line)) ls)
  = List.filter truthy (map strip ls).
Proof.
  induction ls as [|l ls IH]; [reflexivity |].
  simpl. destruct (truthy (strip l)); simpl; rewrite IH; reflexivity.
Qed.

End SplitFacts.

(** C6. [split_result_lines] trims every line of the text and drops the
    blank ones.  With no surviving line it returns the absent pair;
    otherwise the judgment is the first surviving line and the explanation
    is the remaining surviving lines joined by newline, which is the empty
    string when only one line survives. *)
Theorem split_result_lines_contract (text : pystr) :
  match surviving_lines text with
  | [] => AiExplain.split_result_lines text = None
  | first :: others =>
      AiExplain.split_result_lines text = Some (first, join [LF] others)
      /\ (others = [] -> join [LF] others = [])
  end.
Proof.
  unfold AiExplain.split_result_lines.
  rewrite map_filter_strip.
  change (List.filter truthy (map strip (split_lf (strip text))))
    with (surviving_lines (strip text)).
  rewrite surviving_strip.
  destruct (surviving_lines text) as [|first others]; [reflexivity |].
  split.
  - destruct others as [|l ls]; reflexivity.
  - intros ->. reflexivity.
Qed.

Section RetryFacts.

Lemma call_count_app (a b : trace) :
  call_count (a ++ b) = (call_count a + call_count b)%nat.
Proof. unfold call_count. rewrite List.filter_app, length_app. reflexivity. Qed.

Lemma retry_msg_count_app (a b : trace) :
  retry_msg_count (a ++ b) = (retry_msg_count a + retry_msg_count b)%nat.
Proof.
  unfold retry_msg_count. rewrite List.filter_app, length_app. reflexivity.
Qed.

Lemma explain_retry_loop_exhausted (api : remote) (prompt : pystr)
    (retries : nat) (delay : N) (n i : nat) (tr : trace) :
  (forall k, (i <= k < i + n)%nat -> exists msg, api prompt k = ApiServerError msg) ->
  let r := AiExplain.retry_loop api prompt retries delay i n tr in
  fst r = Returns None
  /\ call_count (snd r) = (call_count tr + n)%nat
  /\ retry_msg_count (snd r) = (retry_msg_count tr + n)%nat.
Proof.
  revert i tr. induction n as [|n IH]; intros i tr H; simpl.
  - repeat split; lia.
  - destruct (H i ltac:(lia)) as [msg ->].
    destruct (IH (S i)
                (tr ++ [EvCall prompt]
                    ++ [EvRetryMsg (i + 1) retries msg delay; EvSleep delay]))
      as (Hr & Hc & Hm).
    { intros k Hk. apply H. lia. }
    rewrite <- app_assoc. split; [exact Hr |].
    rewrite Hc, Hm, !call_count_app, !retry_msg_count_app.
    unfold call_count, retry_msg_count. simpl. lia.
Qed.

Lemma yes_no_retry_loop_exhausted (api : remote) (prompt : pystr)
    (retries : nat) (delay : N) (n i : nat) (tr : trace) :
  (forall k, (i <= k < i + n)%nat -> exists msg, api prompt k = ApiServerError msg) ->
  let r := AiYesNo.retry_loop api prompt retries delay i n tr in
  fst r = Returns None
  /\ call_count (snd r) = (call_count tr + n)%nat
  /\ retry_msg_count (snd r) = (retry_msg_count tr + n)%nat.
Proof.
  revert i tr. induction n as [|n IH]; intros i tr H; simpl.
  - rewrite call_count_app, retry_msg_count_app.
    unfold call_count, retry_msg_count. simpl. repeat split; lia.
  - destruct (H i ltac:(lia)) as [msg ->].
    destruct (IH (S i)
                (tr ++ [EvCall prompt]
                    ++ [EvRetryMsg (i + 1) retries msg delay; EvSleep delay]))
      as (Hr & Hc & Hm).
    { intros k Hk. apply H. lia. }
    rewrite <- app_assoc. split; [exact Hr |].
    rewrite Hc, Hm, !call_count_app, !retry_msg_count_app.
    unfold call_count, retry_msg_count. simpl. lia.
Qed.

End RetryFacts.

(** C2, as stated, fails: with the default three attempts all answered by a
    server error, three retry messages are logged, not two. *)
Lemma retry_message_count_counterexample :
  let api : remote := fun _ _ => ApiServerError (py "503") in
  let run := AiExplain.process_prompt_with_retry api (py "p") 3 5 in
  always_server_error api (py "p") 3
  /\ ~ (fst run = Returns None
        /\ call_count (snd run) = 3%nat
        /\ retry_msg_count (snd run) = (3 - 1)%nat).
Proof.
  split.
  - intros k _. eexists. reflexivity.
  - intros (_ & _ & H). vm_compute in H. discriminate.
Qed.

(** C2 (amended). When every call attempt raises a server error,
    [process_prompt_with_retry] of either script returns [None] instead of
    raising, after exactly [retries] call attempts and exactly [retries]
    retry messages, one for each failed attempt. *)
Theorem retry_bound (api : remote) (prompt : pystr) (retries : nat) (delay : N) :
  always_server_error api prompt retries ->
  (let run := AiExplain.process_prompt_with_retry api prompt retries delay in
   fst run = Returns None
   /\ call_count (snd run) = retries
   /\ retry_msg_count (snd run) = retries)
  /\
  (let run := AiYesNo.process_prompt_with_retry api prompt retries delay in
   fst run = Returns None
   /\ call_count (snd run) = retries
   /\ retry_msg_count (snd run) = retries).
Proof.
  intros H. split.
  - apply (explain_retry_loop_exhausted api prompt retries delay retries 0
             [EvJitter 1 2]).
    intros k Hk. apply H. lia.
  - apply (yes_no_retry_loop_exhausted api prompt retries delay retries 0
             [EvJitter 1 2]).
    intros k Hk. apply H. lia.
Qed.

Lemma retry_bound_witness :
  let api : remote := fun _ _ => ApiServerError (py "503") in
  always_server_error api (py "p") 3
  /\ (let run := AiExplain.process_prompt_with_retry api (py "p") 3 5 in
      fst run = Returns None
      /\ call_count (snd run) = 3%nat
      /\ retry_msg_count (snd run) = 3%nat).
Proof.
  assert (H : always_server_error (fun _ _ => ApiServerError (py "503")) (py "p") 3).
  { intros k _. eexists. reflexivity. }
  split; [exact H |].
  exact (proj1 (retry_bound _ (py "p") 3 5 H)).
Defined.

Section Dispatch.

(** The two dispatchers differ only in what the loop body leaves in a
    slot; the alignment argument is shared. *)
Variable collect :
  list (outcome (option pystr)) -> list (option pystr) -> nat -> list (option pystr).
Variable slot : outcome (option pystr) -> option pystr.
Variable futures : list (outcome (option pystr)).

Hypothesis collect_length : forall results j,
  length (collect futures results j) = length results.
Hypothesis collect_other : forall results i j,
  i <> j -> collect futures results j !! i = results !! i.
Hypothesis collect_same : forall results i f,
  futures !! i = Some f -> (i < length results)%nat ->
  results !! i = Some None \/ results !! i = Some (slot f) ->
  collect futures results i !! i = Some (slot f).

Lemma fold_collect_length (order : list nat) (results : list (option pystr)) :
  length (fold_left (collect futures) order results) = length results.
Proof.
  revert results. induction order as [|j order IH]; intros results; simpl.
  - reflexivity.
  - rewrite IH. apply collect_length.
Qed.

Lemma fold_collect_settled (order : list nat) (results : list (option pystr))
    (i : nat) (f : outcome (option pystr)) :
  futures !! i = Some f -> (i < length results)%nat ->
  results !! i = Some (slot f) ->
  fold_left (collect futures) order results !! i = Some (slot f).
Proof.
  intros Hf. revert results.
  induction order as [|j order IH]; intros results Hlen Hi; simpl.
  - exact Hi.
  - apply IH.
    + rewrite collect_length. exact Hlen.
    + destruct (Nat.eq_dec i j) as [<- | Hne].
      * apply collect_same; auto.
      * rewrite collect_other by exact Hne. exact Hi.
Qed.

Lemma fold_collect_lookup (order : list nat) (results : list (option pystr))
    (i : nat) (f : outcome (option pystr)) :
  futures !! i = Some f -> (i < length results)%nat ->
  results !! i = Some None ->
  In i order ->
  fold_left (collect futures) order results !! i = Some (slot f).
Proof.
  intros Hf. revert results.
  induction order as [|j order IH]; intros results Hlen Hi Hin; simpl.
  - destruct Hin.
  - destruct (Nat.eq_dec i j) as [<- | Hne].
    + apply fold_collect_settled; [exact Hf | |].
      * rewrite collect_length. exact Hlen.
      * apply collect_same; auto.
    + apply IH.
      * rewrite collect_length. exact Hlen.
      * rewrite collect_other by exact Hne. exact Hi.
      * destruct Hin as [-> | Hin]; [contradiction | exact Hin].
Qed.

End Dispatch.

Lemma explain_collect_length (futures : list future) results j :
  length (AiExplain.collect futures results j) = length results.
Proof.
  unfold AiExplain.collect.
  destruct (futures !! j) as [[[text|]|e]|]; try reflexivity.
  apply length_insert.
Qed.

Lemma explain_collect_other (futures : list future)
    (results : list (option pystr)) i j :
  i <> j -> AiExplain.collect futures results j !! i = results !! i.
Proof.
  intros Hne. unfold AiExplain.collect.
  destruct (futures !! j) as [[[text|]|e]|]; try reflexivity.
  apply list_lookup_insert_ne. congruence.
Qed.

Lemma explain_collect_same (futures : list future)
    (results : list (option pystr)) i f :
  futures !! i = Some f -> (i < length results)%nat ->
  results !! i = Some None \/ results !! i = Some (explain_slot f) ->
  AiExplain.collect futures results i !! i = Some (explain_slot f).
Proof.
  intros Hf Hlen Hi. unfold AiExplain.collect.
  rewrite Hf.
  destruct f as [[text|]|e]; simpl in *.
  - apply list_lookup_insert_eq. exact Hlen.
  - destruct Hi; assumption.
  - destruct Hi; assumption.
Qed.

Lemma yes_no_collect_length (futures : list future) results j :
  length (AiYesNo.collect futures results j) = length results.
Proof.
  unfold AiYesNo.collect.
  destruct (futures !! j) as [[[text|]|e]|]; try reflexivity;
    apply length_insert.
Qed.

Lemma yes_no_collect_other (futures : list future)
    (results : list (option pystr)) i j :
  i <> j -> AiYesNo.collect futures results j !! i = results !! i.
Proof.
  intros Hne. unfold AiYesNo.collect.
  destruct (futures !! j) as [[[text|]|e]|]; try reflexivity;
    apply list_lookup_insert_ne; congruence.
Qed.

Lemma yes_no_collect_same (futures : list future)
    (results : list (option pystr)) i f :
  futures !! i = Some f -> (i < length results)%nat ->
  results !! i = Some None \/ results !! i = Some (yes_no_slot f) ->
  AiYesNo.collect futures results i !! i = Some (yes_no_slot f).
Proof.
  intros Hf Hlen _.
  unfold AiYesNo.collect. rewrite Hf.
  destruct f as [[text|]|e]; simpl;
    apply list_lookup_insert_eq; exact Hlen.
Qed.

(** C4. Whatever the order in which the workers complete (any arrangement
    [order] of the task numbers), [process_all_prompts] of either script
    returns as many slots as there are prompts, and slot [i] holds what the
    task run for prompt [i] produced: its cleaned text, or absence when the
    task returned nothing or raised.  A task that raises leaves its own
    slot absent and the other slots are filled all the same. *)
Theorem dispatch_slots_follow_prompts
    (apis : nat -> remote) (prompts : list pystr) (order : list nat) :
  Permutation order (seq 0 (length prompts)) ->
  (length (AiExplain.process_all_prompts apis prompts order) = length prompts
   /\ (forall i prompt, prompts !! i = Some prompt ->
         AiExplain.process_all_prompts apis prompts order !! i
         = Some (explain_slot
                   (fst (AiExplain.process_prompt_with_retry (apis i) prompt 3 5))))
   /\ (forall i prompt e, prompts !! i = Some prompt ->
         fst (AiExplain.process_prompt_with_retry (apis i) prompt 3 5) = Raises e ->
         AiExplain.process_all_prompts apis prompts order !! i = Some None))
  /\
  (length (AiYesNo.process_all_prompts apis prompts order) = length prompts
   /\ (forall i prompt, prompts !! i = Some prompt ->
         AiYesNo.process_all_prompts apis prompts order !! i
         = Some (yes_no_slot
                   (fst (AiYesNo.process_prompt_with_retry (apis i) prompt 3 5))))
   /\ (forall i prompt e, prompts !! i = Some prompt ->
         fst (AiYesNo.process_prompt_with_retry (apis i) prompt 3 5) = Raises e ->
         AiYesNo.process_all_prompts apis prompts order !! i = Some None)).
Proof.
  intros Hperm.
  assert (Hin : forall i, (i < length prompts)%nat -> In i order).
  { intros i Hi. apply (Permutation_in i (Permutation_sym Hperm)).
    apply in_seq. lia. }
  assert (HE : forall i prompt, prompts !! i = Some prompt ->
            AiExplain.process_all_prompts apis prompts order !! i
            = Some (explain_slot
                      (fst (AiExplain.process_prompt_with_retry (apis i) prompt 3 5)))).
  { intros i prompt Hi. unfold AiExplain.process_all_prompts.
    pose proof (lookup_lt_Some _ _ _ Hi) as Hlt.
    apply (fold_collect_lookup AiExplain.collect explain_slot).
    - apply explain_collect_length.
    - apply explain_collect_other.
    - apply explain_collect_same.
    - rewrite list_lookup_imap, Hi. reflexivity.
    - rewrite length_replicate. exact Hlt.
    - apply lookup_replicate_2. exact Hlt.
    - apply Hin. exact Hlt. }
  assert (HY : forall i prompt, prompts !! i = Some prompt ->
            AiYesNo.process_all_prompts apis prompts order !! i
            = Some (yes_no_slot
                      (fst (AiYesNo.process_prompt_with_retry (apis i) prompt 3 5)))).
  { intros i prompt Hi. unfold AiYesNo.process_all_prompts.
    pose proof (lookup_lt_Some _ _ _ Hi) as Hlt.
    apply (fold_collect_lookup AiYesNo.collect yes_no_slot).
    - apply yes_no_collect_length.
    - apply yes_no_collect_other.
    - apply yes_no_collect_same.
    - rewrite list_lookup_imap, Hi. reflexivity.
    - rewrite length_replicate. exact Hlt.
    - apply lookup_replicate_2. exact Hlt.
    - apply Hin. exact Hlt. }
  split; (split; [| split]).
  - unfold AiExplain.process_all_prompts.
    rewrite (fold_collect_length AiExplain.collect), length_replicate;
      [reflexivity | apply explain_collect_length].
  - exact HE.
  - intros i prompt e Hi He. rewrite (HE i prompt Hi), He. reflexivity.
  - unfold AiYesNo.process_all_prompts.
    rewrite (fold_collect_length AiYesNo.collect), length_replicate;
      [reflexivity | apply yes_no_collect_length].
  - exact HY.
  - intros i prompt e Hi He. rewrite (HY i prompt Hi), He. reflexivity.
Qed.

Lemma dispatch_slots_follow_prompts_witness :
  let apis : nat -> remote :=
    fun i _ _ => if (i =? 1)%nat then ApiOtherError (py "boom")
                 else ApiText (Some (py "**ok**")) in
  let prompts := [py "a"; py "b"; py "c"] in
  let order := [2; 1; 0]%nat in
  Permutation order (seq 0 (length prompts))
  /\ length (AiExplain.process_all_prompts apis prompts order) = length prompts
  /\ AiExplain.process_all_prompts apis prompts order !! 1%nat = Some None
  /\ AiExplain.process_all_prompts apis prompts order !! 2%nat = Some (Some (py "ok")).
Proof.
  intros apis prompts order.
  assert (Hperm : Permutation order (seq 0 (length prompts))).
  { exact (Permutation_sym (Permutation_rev [0; 1; 2]%nat)). }
  split; [exact Hperm |].
  destruct (dispatch_slots_follow_prompts apis prompts order Hperm)
    as [(Hlen & Hslot & _) _].
  split; [exact Hlen |]. split.
  - exact (Hslot 1%nat (py "b") eq_refl).
  - exact (Hslot 2%nat (py "c") eq_refl).
Defined.

Section FormatFacts.

Lemma brace_free_cons (c : char) (s : pystr) :
  brace_free (c :: s) ->
  (c =? Format.LBRACE) = false /\ (c =? Format.RBRACE) = false /\ brace_free s.
Proof.
  intros [Hl Hr]. repeat split.
  - apply N.eqb_neq. intros ->. apply Hl. left. reflexivity.
  - apply N.eqb_neq. intros ->. apply Hr. left. reflexivity.
  - intros H. apply Hl. right. exact H.
  - intros H. apply Hr. right. exact H.
Qed.

Lemma lift_cons_app (c : char) (a : pystr) r :
  Format.lift_cons c (Format.lift_app a r) = Format.lift_app (c :: a) r.
Proof. destruct r as [[s|e]|]; reflexivity. Qed.

Lemma format_from_text (arg : pystr) ans next (s rest : pystr) :
  brace_free s ->
  Format.format_from arg ans next Format.InText (s ++ rest)
  = Format.lift_app s (Format.format_from arg ans next Format.InText rest).
Proof.
  induction s as [|c s IH]; intros Hs.
  - simpl. destruct (Format.format_from arg ans next Format.InText rest)
      as [[?|?]|]; reflexivity.
  - apply brace_free_cons in Hs as (Hl & Hr & Hs).
    change ((c :: s) ++ rest) with (c :: (s ++ rest)).
    cbn [Format.format_from]. rewrite Hl, Hr, (IH Hs).
    apply lift_cons_app.
Qed.

Lemma format_brace_free (template arg : pystr) :
  brace_free template ->
  Format.format template arg = Some (Returns template).
Proof.
  intros H. unfold Format.format.
  rewrite <- (app_nil_r template) at 1.
  rewrite format_from_text by exact H. simpl. rewrite app_nil_r. reflexivity.
Qed.

Lemma format_one_placeholder (pre post arg : pystr) :
  brace_free pre -> brace_free post ->
  Format.format (pre ++ placeholder ++ post) arg
  = Some (Returns (pre ++ arg ++ post)).
Proof.
  intros Hpre Hpost. unfold Format.format.
  rewrite format_from_text by exact Hpre.
  change (placeholder ++ post) with (123 :: 48 :: 125 :: post).
  cbn -[Format.lift_app Format.format_from].
  change (Format.lift_app pre
            (Format.lift_app arg
               (Format.format_from arg Format.ANS_MANUAL 0 Format.InText post))
          = Some (Returns (pre ++ arg ++ post))).
  rewrite <- (app_nil_r post) at 1.
  rewrite format_from_text by exact Hpost. simpl. rewrite app_nil_r.
  reflexivity.
Qed.

End FormatFacts.

(** C7, as stated, fails: a template without the placeholder is not
    rejected; every prompt is the template itself. *)
Lemma build_prompts_counterexample :
  brace_free (py "判断：")
  /\ AiExplain.build_prompts (py "判断：") [(1, py "天气很好。"); (2, py "明天.")]
     = Some (Returns [py "判断："; py "判断："]).
Proof.
  split; [| reflexivity].
  split; intros H; vm_compute in H; intuition discriminate.
Qed.

(** A template that contains the placeholder can still make the builder
    raise: a stray closing brace is a [ValueError]. *)
Lemma build_prompts_stray_brace :
  AiExplain.build_prompts (py "判断：{0}}") [(1, py "天气很好。")]
  = Some (Raises ValueError).
Proof. reflexivity. Qed.

(** C7 (amended).  The builder never rejects a template for lacking the
    placeholder: a template without braces yields, for every sentence, the
    template itself.  A template made of brace-free text around one
    placeholder yields one prompt per sentence, in the order of the input,
    each with the sentence in the placeholder's place. *)
Theorem build_prompts_parallel (pre post : pystr)
    (indexed_sentences : list (N * pystr)) :
  brace_free pre -> brace_free post ->
  AiExplain.build_prompts pre indexed_sentences
  = Some (Returns (map (fun _ => pre) indexed_sentences))
  /\ AiExplain.build_prompts (pre ++ placeholder ++ post) indexed_sentences
     = Some (Returns (map (fun s => pre ++ snd s ++ post) indexed_sentences))
  /\ AiYesNo.build_prompts (pre ++ placeholder ++ post) indexed_sentences
     = Some (Returns (map (fun s => pre ++ snd s ++ post) indexed_sentences)).
Proof.
  intros Hpre Hpost.
  assert (HB : AiExplain.build_prompts (pre ++ placeholder ++ post) indexed_sentences
     = Some (Returns (map (fun s => pre ++ snd s ++ post) indexed_sentences))).
  { induction indexed_sentences as [|[idx sentence] rest IH]; [reflexivity |].
    cbn [AiExplain.build_prompts map snd].
    rewrite format_one_placeholder by assumption. rewrite IH. reflexivity. }
  split; [| split; [exact HB | exact HB]].
  clear HB. induction indexed_sentences as [|[idx sentence] rest IH]; [reflexivity |].
  cbn [AiExplain.build_prompts map].
  rewrite format_brace_free by assumption. rewrite IH. reflexivity.
Qed.

Lemma build_prompts_parallel_witness :
  brace_free (py "判断：") /\ brace_free []
  /\ AiExplain.build_prompts (py "判断：{0}") [(1, py "天气很好。"); (2, py "明天.")]
     = Some (Returns [py "判断：天气很好。"; py "判断：明天."]).
Proof.
  assert (H1 : brace_free (py "判断：")).
  { split; intros H; vm_compute in H; intuition discriminate. }
  assert (H2 : brace_free []).
  { split; intros H; exact H. }
  split; [exact H1 |]. split; [exact H2 |].
  exact (proj1 (proj2 (build_prompts_parallel (py "判断：") []
                         [(1, py "天气很好。"); (2, py "明天.")] H1 H2))).
Defined.

Section CsvFacts.

Lemma yes_no_write_result_grows (rows : table) (header : row)
    (data : list row) (idx : N) (sentence result : pystr) :
  rows = header :: data ->
  (length rows <= N.to_nat idx)%nat ->
  AiYesNo.write_result rows (idx, sentence, result)
  = rows
    ++ replicate (N.to_nat idx - length rows) (blank_row (length header))
    ++ [sentence :: result :: blank_row (length header - 2)].
Proof.
  intros -> Hlen. unfold AiYesNo.write_result, AiYesNo.grow_rows.
  cbn [hd]. fold (blank_row (length header)).
  set (rows := header :: data) in *. set (i := N.to_nat idx) in *.
  replace (S i - length rows)%nat with (S (i - length rows)) by lia.
  rewrite replicate_S_end.
  set (gap := replicate (i - length rows) (blank_row (length header))).
  assert (Hi : length (rows ++ gap) = i).
  { rewrite length_app. unfold gap. rewrite length_replicate. lia. }
  rewrite app_assoc.
  rewrite (list_lookup_middle (rows ++ gap) [] _ i) by (symmetry; exact Hi).
  rewrite insert_app_r_alt by lia. rewrite Hi, Nat.sub_diag.
  cbn [insert list_insert]. rewrite <- app_assoc. do 3 f_equal.
  unfold blank_row.
  destruct (length header) as [|[|w]]; simpl; try reflexivity.
  rewrite app_nil_r, Nat.sub_0_r. reflexivity.
Qed.

Lemma yes_no_header_cons (header : row) (data : list row) :
  match header :: data with
  | h :: d => if (length h <? 2)%nat then (h ++ [py "AI理解"]) :: d
              else header :: data
  | [] => header :: data
  end = yes_no_header header :: data.
Proof. unfold yes_no_header. destruct (length header <? 2)%nat; reflexivity. Qed.

End CsvFacts.

(** C3, as stated, fails for the persister of [ai_explain.py]: a result
    for row 1 of a table that has a header and no data row is not written
    into a padded row; the call raises and nothing is written. *)
Lemma csv_merge_counterexample :
  AiExplain.write_results_to_csv [[py "原句"]] [Some (py "对")] 0
  = Raises IndexError.
Proof. reflexivity. Qed.

(** C3 (amended).  Writing a result at 1-based index [idx] into a table
    with fewer than [idx] data rows: the persister of [ai_yes_no.py] keeps
    the header (completed to two cells) and every existing row as they
    are, adds rows of empty cells of the header's width for the rows in
    between, and adds the target row, which holds the sentence and the
    result in its first two cells and empty cells up to the header's width;
    the persister of [ai_explain.py] adds no row: it raises [IndexError]
    and writes nothing. *)
Theorem csv_merge_missing_rows (header : row) (data : list row) (idx : N)
    (sentence result : pystr) :
  (length data < N.to_nat idx)%nat ->
  AiYesNo.write_results_to_csv (Some (header :: data)) [(idx, sentence, result)]
  = (yes_no_header header :: data)
    ++ replicate (N.to_nat idx - 1 - length data)
         (blank_row (length (yes_no_header header)))
    ++ [sentence :: result :: blank_row (length (yes_no_header header) - 2)]
  /\ (truthy result = true ->
      AiExplain.write_results_to_csv (header :: data) [Some result]
        (N.to_nat idx - 1)
      = Raises IndexError).
Proof.
  intros Hlen. split.
  - unfold AiYesNo.write_results_to_csv. rewrite yes_no_header_cons.
    cbn [fold_left].
    rewrite (yes_no_write_result_grows _ (yes_no_header header) data)
      by (simpl; try reflexivity; lia).
    cbn [length]. do 2 f_equal. f_equal. lia.
  - intros Ht. unfold AiExplain.write_results_to_csv.
    cbn [AiExplain.write_results]. rewrite Ht. unfold AiExplain.write_cells.
    rewrite Nat.add_0_r, lookup_ge_None_2 by lia. reflexivity.
Qed.

Lemma csv_merge_missing_rows_witness :
  (length [[py "天气很好。"; py "对"; py "x"]] < N.to_nat 3)%nat
  /\ AiYesNo.write_results_to_csv
       (Some [[py "原句"; py "AI理解"; py "备注"]; [py "天气很好。"; py "对"; py "x"]])
       [(3, py "明天.", py "错")]
     = [[py "原句"; py "AI理解"; py "备注"];
        [py "天气很好。"; py "对"; py "x"];
        [[]; []; []];
        [py "明天."; py "错"; []]].
Proof.
  assert (H : (length [[py "天气很好。"; py "对"; py "x"]] < N.to_nat 3)%nat).
  { vm_compute. lia. }
  split; [exact H |].
  exact (proj1 (csv_merge_missing_rows [py "原句"; py "AI理解"; py "备注"]
                  [[py "天气很好。"; py "对"; py "x"]] 3 (py "明天.") (py "错") H)).
Defined.

Section PlacementFacts.

Lemma index_of_lt (x : pystr) (l : list pystr) (j : nat) :
  index_of x l = Some j -> (j < length l)%nat.
Proof.
  revert j. induction l as [|y l IH]; intros j H; simpl in H.
  - discriminate.
  - destruct (pystr_eqb y x).
    + inversion H. simpl. lia.
    + destruct (index_of x l) as [k|]; [| discriminate].
      inversion H. simpl. specialize (IH k eq_refl). lia.
Qed.

Lemma pad_row_length (w : nat) (r : row) :
  (w <= length (AiExplain.pad_row w r))%nat.
Proof.
  unfold AiExplain.pad_row. rewrite length_app, length_replicate. lia.
Qed.

(** The persister of [ai_explain.py] on a row the table has: the row is
    padded to the header's width, the two target cells are overwritten,
    and nothing else changes. *)
Lemma explain_write_cells_in_range (header : row) (data_rows : list row)
    (row_index jc ec : nat) (r : row) (judgment explanation : option pystr) :
  data_rows !! row_index = Some r ->
  index_of (py "ai判断") header = Some jc ->
  index_of (py "ai理解") header = Some ec ->
  AiExplain.write_cells header data_rows row_index judgment explanation
  = Returns (<[row_index :=
               <[ec := AiExplain.or_empty explanation]>
                 (<[jc := AiExplain.or_empty judgment]>
                    (AiExplain.pad_row (length header) r))]> data_rows).
Proof.
  intros Hr Hj He. unfold AiExplain.write_cells, AiExplain.column.
  rewrite Hr, Hj, He. cbn [bind]. unfold AiExplain.set_cell.
  pose proof (index_of_lt _ _ _ Hj) as Hjc.
  pose proof (index_of_lt _ _ _ He) as Hec.
  pose proof (pad_row_length (length header) r) as Hw.
  destruct (Nat.ltb_spec jc (length (AiExplain.pad_row (length header) r)));
    [| lia].
  cbn [bind]. rewrite length_insert.
  destruct (Nat.ltb_spec ec (length (AiExplain.pad_row (length header) r)));
    [| lia].
  reflexivity.
Qed.

(** The persister of [ai_yes_no.py] places a result in the row numbered by
    the sentence's own index. *)
Lemma yes_no_write_result_at_index (rows : table) (idx : N)
    (sentence result : pystr) :
  exists rest,
    AiYesNo.write_result rows (idx, sentence, result) !! N.to_nat idx
    = Some (sentence :: result :: rest).
Proof.
  unfold AiYesNo.write_result, AiYesNo.grow_rows.
  set (i := N.to_nat idx).
  set (grown := rows ++ replicate (S i - length rows)
                          (replicate (length (hd [] rows)) [])).
  assert (Hlen : (i < length grown)%nat).
  { unfold grown. rewrite length_app, length_replicate. lia. }
  destruct (lookup_lt_is_Some_2 grown i Hlen) as [target Ht].
  rewrite Ht, list_lookup_insert_eq by exact Hlen.
  destruct target as [|c0 [|c1 rest]]; simpl; eauto.
Qed.

End PlacementFacts.

(** C1 (the code departs from the claim).  The loader skips the blank
    second row, so the second sentence of the batch carries index 3; the
    batch write of [ai_explain.py] places its result by position in the
    batch, in data row 2, and leaves data row 3 without a result. *)
Theorem batch_write_shifts_after_skipped_row :
  let sentences := AiExplain.load_sentences_from_csv skipped_row_table in
  sentences = [(1, py "天气很好。"); (3, py "明天.")]
  /\ AiExplain.main_batch (py "判断：{0}") sentences 0 answering [0; 1]%nat
       skipped_row_table
     = Some (Returns
               ([Some (py "对" ++ [LF] ++ py "解释A");
                 Some (py "错" ++ [LF] ++ py "解释B")],
                [[py "原句"; py "ai判断"; py "ai理解"];
                 [py "天气很好。"; py "对"; py "解释A"];
                 [py ""; py "错"; py "解释B"];
                 [py "明天."]])).
Proof. split; reflexivity. Qed.

(** The retry path of the same script and the persister of
    [ai_yes_no.py] place a result by the sentence's own index. *)
Lemma retry_write_uses_sentence_index :
  AiExplain.retry_write
    [[py "原句"; py "ai判断"; py "ai理解"]; [py "天气很好。"]; [py ""]; [py "明天."]]
    3 (py "错" ++ [LF] ++ py "解释B")
  = Returns [[py "原句"; py "ai判断"; py "ai理解"]; [py "天气很好。"]; [py ""];
             [py "明天."; py "错"; py "解释B"]].
Proof. reflexivity. Qed.

Section LogFacts.

Lemma explain_failed_output (indexed_sentences : list (N * pystr))
    (results : list (option pystr)) :
  concat (map (fun '((idx, sentence), result) =>
                 match result with
                 | None => AiExplain.failed_line idx sentence
                 | Some _ => []
                 end)
            (combine indexed_sentences results))
  = log_lines (pairs_where is_absent indexed_sentences results).
Proof.
  unfold log_lines, pairs_where.
  induction (combine indexed_sentences results) as [|[[idx s] [t|]] l IH].
  - reflexivity.
  - simpl. exact IH.
  - simpl. rewrite IH. unfold AiExplain.failed_line.
    rewrite <- !app_assoc. reflexivity.
Qed.

Lemma yes_no_failed_output (indexed_sentences : list (N * pystr))
    (results : list (option pystr)) :
  concat (map (fun '((idx, sentence), result) =>
                 match result with
                 | Some (_ :: _) => []
                 | _ => AiExplain.failed_line idx sentence
                 end)
            (combine indexed_sentences results))
  = log_lines (pairs_where is_absent_or_empty indexed_sentences results).
Proof.
  unfold log_lines, pairs_where.
  induction (combine indexed_sentences results) as [|[[idx s] [[|c t]|]] l IH].
  - reflexivity.
  - simpl. rewrite IH. unfold AiExplain.failed_line.
    rewrite <- !app_assoc. reflexivity.
  - simpl. exact IH.
  - simpl. rewrite IH. unfold AiExplain.failed_line.
    rewrite <- !app_assoc. reflexivity.
Qed.

End LogFacts.

(** C8, as stated, fails for [write_results_to_txt] of [ai_yes_no.py]: the
    log is opened for appending, so a line written earlier stays in the
    file next to the line of the pair that failed now. *)
Lemma failure_log_counterexample :
  let old := Some (py "[1] 天气很好。" ++ [LF]) in
  let after := AiYesNo.write_results_to_txt [(2, py "明天.")] [None] old in
  after = Some (py "[1] 天气很好。" ++ [LF] ++ py "[2] 明天." ++ [LF])
  /\ after <> Some (log_lines (pairs_where is_absent_or_empty
                                 [(2, py "明天.")] [None])).
Proof. split; [reflexivity | vm_compute; discriminate]. Qed.

(** C8 (amended).  [write_failed_to_txt] of [ai_explain.py] rewrites the
    failure log from scratch: whatever the file held, afterwards it holds
    exactly one line [[<index>] <sentence text>] for each pair of the batch
    whose result is absent, in the order of the batch.
    [write_results_to_txt] of [ai_yes_no.py] appends instead: it keeps what
    the file held and adds one such line for each pair whose result is
    absent or empty. *)
Theorem failure_log_contents (indexed_sentences : list (N * pystr))
    (results : list (option pystr)) (old : file) :
  AiExplain.write_failed_to_txt indexed_sentences results old
  = Some (log_lines (pairs_where is_absent indexed_sentences results))
  /\ AiYesNo.write_results_to_txt indexed_sentences results old
     = Some (file_text old
             ++ log_lines (pairs_where is_absent_or_empty
                             indexed_sentences results)).
Proof.
  split.
  - unfold AiExplain.write_failed_to_txt, write_w.
    rewrite explain_failed_output. reflexivity.
  - unfold AiYesNo.write_results_to_txt, write_a.
    rewrite yes_no_failed_output. destruct old; reflexivity.
Qed.

Section ScenarioFacts.

Lemma scenario_batch :
  firstn AiExplain.batch_size (AiExplain.load_sentences_from_csv scenario_table)
  = [(1, py "天气很好。"); (2, py "明天.")].
Proof. reflexivity. Qed.

Lemma scenario_prompts :
  AiExplain.build_prompts scenario_template
    [(1, py "天气很好。"); (2, py "明天.")]
  = Some (Returns [py "判断：天气很好。"; py "判断：明天."]).
Proof. reflexivity. Qed.

Lemma scenario_results (response msg : pystr) (order : list nat) :
  order = [0; 1]%nat \/ order = [1; 0]%nat ->
  AiExplain.process_all_prompts (scenario_apis response msg)
    [py "判断：天气很好。"; py "判断：明天."] order
  = [Some (AiExplain.clean_formatting response); None].
Proof. intros [-> | ->]; reflexivity. Qed.

End ScenarioFacts.

(** The block of row 1 for the response of the specification's example. *)
Example scenario_success_block :
  AiExplain.success_block 1 (py "天气很好。")
    (AiExplain.clean_formatting (py "对" ++ [LF] ++ py "解释A"))
  = py "[行号 1] 天气很好。" ++ [LF] ++ py "AI判断: 对" ++ [LF]
    ++ py "AI理解: 解释A" ++ [LF]
    ++ py "----------------------------------------" ++ [LF].
Proof. reflexivity. Qed.

Section DecimalFacts.

Lemma digits_of_uint_range (d : Decimal.uint) :
  Forall (fun c => 48 <= c <= 57) (digits_of_uint d).
Proof.
  induction d; simpl; constructor; try assumption; lia.
Qed.

Lemma digits_parse_acc (d : Decimal.uint) (acc : positive) :
  fold_left digit_step (digits_of_uint d) (Npos acc)
  = Npos (Pos.of_uint_acc d acc).
Proof.
  revert acc. induction d; intros acc; simpl; try reflexivity;
    rewrite <- IHd; f_equal; unfold digit_step; lia.
Qed.

Lemma digits_parse (d : Decimal.uint) :
  fold_left digit_step (digits_of_uint d) 0 = N.of_uint d.
Proof.
  unfold N.of_uint.
  induction d; simpl; try reflexivity; try exact IHd;
    rewrite <- digits_parse_acc; reflexivity.
Qed.

Lemma str_of_int_parse (n : N) :
  fold_left digit_step (str_of_int n) 0 = n.
Proof.
  unfold str_of_int. rewrite digits_parse. apply DecimalN.Unsigned.of_to.
Qed.

Lemma str_of_int_range (n : N) : Forall (fun c => 48 <= c <= 57) (str_of_int n).
Proof. apply digits_of_uint_range. Qed.

Lemma str_of_int_nonempty (n : N) : str_of_int n <> [].
Proof.
  unfold str_of_int. destruct n as [|p]; [discriminate |].
  simpl. pose proof (DecimalPos.Unsigned.to_uint_nonnil p) as H.
  destruct (Pos.to_uint p); [congruence | discriminate ..].
Qed.

End DecimalFacts.

Section RoundTripFacts.

Variable to_decimal : char -> option N.
Hypothesis ascii_ok : unicode_agrees_on_ascii to_decimal.

Lemma universal_newlines_id (s : pystr) :
  ~ In CR s -> universal_newlines s = s.
Proof.
  induction s as [|c s IH]; intros H; [reflexivity |].
  simpl. destruct (c =? CR) eqn:E.
  - apply N.eqb_eq in E. exfalso. apply H. left. exact E.
  - f_equal. apply IH. intros Hin. apply H. right. exact Hin.
Qed.

Lemma lines_of_line (l rest : pystr) :
  ~ In LF l -> lines_of ((l ++ [LF]) ++ rest) = (l ++ [LF]) :: lines_of rest.
Proof.
  induction l as [|c l IH]; intros H.
  - reflexivity.
  - simpl. destruct (c =? LF) eqn:E.
    + apply N.eqb_eq in E. exfalso. apply H. left. exact E.
    + simpl in IH. rewrite IH; [reflexivity |].
      intros Hin. apply H. right. exact Hin.
Qed.

Lemma span_app (p : char -> bool) (a b : pystr) :
  Forall (fun c => p c = true) a ->
  match b with [] => True | c :: _ => p c = false end ->
  Regex.span p (a ++ b) = (a, b).
Proof.
  intros Ha Hb. induction Ha as [|c a Hc Ha IH]; simpl.
  - destruct b as [|c b]; [reflexivity |]. simpl. rewrite Hb. reflexivity.
  - rewrite Hc, IH. reflexivity.
Qed.

Lemma is_decimal_digit (c : char) :
  48 <= c <= 57 -> Regex.is_decimal to_decimal c = true
                   /\ to_decimal c = Some (c - 48).
Proof.
  intros Hc. unfold Regex.is_decimal. rewrite ascii_ok by lia.
  unfold Regex.ascii_decimal.
  destruct (48 <=? c) eqn:E1; [| apply N.leb_gt in E1; lia].
  destruct (c <=? 57) eqn:E2; [| apply N.leb_gt in E2; lia].
  split; reflexivity.
Qed.

Lemma int_of_ascii_digits (digits : pystr) (acc : N) :
  Forall (fun c => 48 <= c <= 57) digits ->
  fold_left
    (fun acc c => acc * 10 + match to_decimal c with Some v => v | None => 0 end)
    digits acc
  = fold_left digit_step digits acc.
Proof.
  intros H. revert acc. induction H as [|c l Hc Hl IH]; intros acc; simpl.
  - reflexivity.
  - destruct (is_decimal_digit c Hc) as [_ ->]. apply IH.
Qed.

Lemma match_log_body (idx : N) (s : pystr) :
  s <> [] -> ~ In LF s ->
  (forall c rest, s = c :: rest -> isspace c = false) ->
  Regex.match_failed_line to_decimal (log_body (idx, s)) = Some (idx, s).
Proof.
  intros Hne Hlf Hfirst. unfold log_body. cbn [fst snd].
  change (py "[" ++ str_of_int idx ++ py "] " ++ s)
    with (91 :: (str_of_int idx ++ (93 :: 32 :: s))).
  cbn [Regex.match_failed_line]. rewrite N.eqb_refl.
  rewrite (span_app (Regex.is_decimal to_decimal)).
  - destruct (str_of_int idx) as [|d0 ds] eqn:Ed.
    + exfalso. exact (str_of_int_nonempty idx Ed).
    + cbv beta iota. change (93 =? 93) with true. cbv iota.
      change (32 :: s) with ([32] ++ s).
      rewrite (span_app isspace [32] s).
      * rewrite <- (app_nil_r s) at 1.
        rewrite (span_app (fun x => negb (x =? LF)) s []).
        -- cbn [fst]. unfold Regex.int_of.
           rewrite <- Ed, int_of_ascii_digits by apply str_of_int_range.
           rewrite str_of_int_parse. reflexivity.
        -- apply List.Forall_forall. intros c Hc.
           destruct (c =? LF) eqn:E; [| reflexivity].
           apply N.eqb_eq in E. subst c. contradiction.
        -- exact I.
      * constructor; [reflexivity | constructor].
      * destruct s as [|c rest]; [congruence |]. exact (Hfirst c rest eq_refl).
  - apply (List.Forall_impl (P := fun c => 48 <= c <= 57));
      [| apply str_of_int_range].
    intros c Hc. exact (proj1 (is_decimal_digit c Hc)).
  - unfold Regex.is_decimal. rewrite ascii_ok by lia. reflexivity.
Qed.

Lemma strip_log_line (idx : N) (s : pystr) :
  s <> [] ->
  (forall body c, s = body ++ [c] -> isspace c = false) ->
  strip (log_body (idx, s) ++ [LF]) = log_body (idx, s).
Proof.
  intros Hne Hlast. unfold strip.
  assert (Hl : lstrip (log_body (idx, s) ++ [LF]) = log_body (idx, s) ++ [LF])
    by reflexivity.
  rewrite Hl, rstrip_snoc_space by reflexivity.
  destruct (exists_last Hne) as (body & c & ->).
  unfold log_body. cbn [fst snd]. rewrite !app_assoc.
  apply rstrip_snoc_other. exact (Hlast body c eq_refl).
Qed.

Lemma log_body_no_LF (idx : N) (s : pystr) :
  ~ In LF s -> ~ In LF (log_body (idx, s)).
Proof.
  intros Hs. unfold log_body. cbn [fst snd]. rewrite !in_app_iff.
  intros [H | [H | [H | H]]].
  - vm_compute in H. intuition discriminate.
  - pose proof (str_of_int_range idx) as R.
    rewrite List.Forall_forall in R. specialize (R _ H). unfold LF in R. lia.
  - vm_compute in H. intuition discriminate.
  - exact (Hs H).
Qed.

Lemma log_body_no_CR (idx : N) (s : pystr) :
  ~ In CR s -> ~ In CR (log_body (idx, s)).
Proof.
  intros Hs. unfold log_body. cbn [fst snd]. rewrite !in_app_iff.
  intros [H | [H | [H | H]]].
  - vm_compute in H. intuition discriminate.
  - pose proof (str_of_int_range idx) as R.
    rewrite List.Forall_forall in R. specialize (R _ H). unfold CR in R. lia.
  - vm_compute in H. intuition discriminate.
  - exact (Hs H).
Qed.

Lemma log_lines_cons (p : N * pystr) (pairs : list (N * pystr)) :
  log_lines (p :: pairs) = (log_body p ++ [LF]) ++ log_lines pairs.
Proof.
  unfold log_lines, log_body. cbn [map concat]. rewrite <- !app_assoc.
  reflexivity.
Qed.

Lemma log_lines_no_CR (pairs : list (N * pystr)) :
  (forall idx s, In (idx, s) pairs -> loggable_sentence s) ->
  ~ In CR (log_lines pairs).
Proof.
  induction pairs as [|[idx s] pairs IH]; intros H.
  - intros [].
  - rewrite log_lines_cons, !in_app_iff. intros [[Hin | Hin] | Hin].
    + destruct (H idx s (or_introl eq_refl)) as (_ & _ & Hcr & _).
      exact (log_body_no_CR idx s Hcr Hin).
    + simpl in Hin. intuition discriminate.
    + apply IH; [| exact Hin]. intros i t Ht. apply (H i t). right. exact Ht.
Qed.

Lemma read_log_lines (pairs : list (N * pystr)) :
  (forall idx s, In (idx, s) pairs -> loggable_sentence s) ->
  read_lines (log_lines pairs) = map (fun p => log_body p ++ [LF]) pairs.
Proof.
  intros H. unfold read_lines.
  rewrite universal_newlines_id by (apply log_lines_no_CR; exact H).
  induction pairs as [|[idx s] pairs IH]; [reflexivity |].
  rewrite log_lines_cons, lines_of_line.
  - cbn [map]. f_equal. apply IH. intros i t Ht. apply (H i t). right. exact Ht.
  - destruct (H idx s (or_introl eq_refl)) as (_ & Hlf & _).
    apply log_body_no_LF. exact Hlf.
Qed.

Lemma all_absent_pairs (pairs : list (N * pystr)) :
  pairs_where is_absent pairs (replicate (length pairs) None) = pairs.
Proof.
  unfold pairs_where. induction pairs as [|p pairs IH]; [reflexivity |].
  simpl. f_equal. exact IH.
Qed.

End RoundTripFacts.

Lemma no_outer_space_intro (s : pystr) :
  match s with c :: _ => isspace c = false | [] => True end ->
  isspace (List.last s 0) = false ->
  no_outer_space s.
Proof.
  intros Hfirst Hlast. split.
  - intros c rest ->. exact Hfirst.
  - intros body c ->. rewrite List.last_last in Hlast. exact Hlast.
Qed.

Lemma load_log_lines (to_decimal : char -> option N) (pairs : list (N * pystr)) :
  unicode_agrees_on_ascii to_decimal ->
  (forall idx s, In (idx, s) pairs -> loggable_sentence s) ->
  AiExplain.load_failed_sentences to_decimal (Some (log_lines pairs)) = pairs
  /\ AiYesNo.load_failed_sentences to_decimal (Some (log_lines pairs)) = pairs.
Proof.
  intros Hdb H.
  unfold AiExplain.load_failed_sentences, AiYesNo.load_failed_sentences.
  rewrite read_log_lines by exact H. rewrite !map_map.
  induction pairs as [|[idx s] pairs IH]; [split; reflexivity |].
  destruct (H idx s (or_introl eq_refl)) as (Hne & Hlf & _ & Hfirst & Hlast).
  destruct IH as [IH1 IH2].
  { intros i t Ht. apply (H i t). right. exact Ht. }
  cbn [map concat].
  rewrite (strip_log_line idx s Hne Hlast).
  rewrite (match_log_body to_decimal Hdb idx s Hne Hlf Hfirst).
  assert (Ht : truthy (log_body (idx, s)) = true) by reflexivity.
  rewrite Ht, IH1, IH2. split; reflexivity.
Qed.

(** C10, as stated, fails: a sentence may hold a carriage return, which is
    no newline character, yet the log is read in universal-newlines mode
    and the line is cut there. *)
Lemma failure_log_round_trip_counterexample :
  let pairs := [(1, [97; 13; 98])] in
  (forall idx s, In (idx, s) pairs -> 0 < idx /\ claimed_sentence s)
  /\ AiExplain.load_failed_sentences Regex.ascii_decimal
       (AiExplain.write_failed_to_txt pairs [None] None)
     = [(1, [97])]
  /\ AiExplain.load_failed_sentences Regex.ascii_decimal
       (AiExplain.write_failed_to_txt pairs [None] None)
     <> pairs.
Proof.
  split; [| split; [reflexivity | vm_compute; discriminate]].
  intros idx s [H | []]. inversion H; subst. split; [lia |].
  split; [discriminate |]. split.
  - intros Hin. vm_compute in Hin. intuition discriminate.
  - apply no_outer_space_intro; reflexivity.
Qed.

(** C10 (amended).  For every list of (index, sentence) pairs whose
    results are all absent, where each sentence is non-empty, contains
    neither a line feed nor a carriage return, and has no leading or
    trailing whitespace, writing the pairs with [write_failed_to_txt] and
    reading the file back with [load_failed_sentences] of either script
    returns the same pairs in the same order, whatever the file held
    before. *)
Theorem failure_log_round_trip (to_decimal : char -> option N)
    (pairs : list (N * pystr)) (old : file) :
  unicode_agrees_on_ascii to_decimal ->
  (forall idx s, In (idx, s) pairs -> loggable_sentence s) ->
  let written :=
    AiExplain.write_failed_to_txt pairs (replicate (length pairs) None) old in
  AiExplain.load_failed_sentences to_decimal written = pairs
  /\ AiYesNo.load_failed_sentences to_decimal written = pairs.
Proof.
  intros Hdb H written.
  assert (Hw : written = Some (log_lines pairs)).
  { unfold written, AiExplain.write_failed_to_txt, write_w.
    rewrite explain_failed_output, all_absent_pairs. reflexivity. }
  rewrite Hw. apply load_log_lines; assumption.
Qed.

Lemma failure_log_round_trip_witness :
  let pairs := [(2, py "明天."); (12, py "天气 很好。")] in
  unicode_agrees_on_ascii Regex.ascii_decimal
  /\ (forall idx s, In (idx, s) pairs -> loggable_sentence s)
  /\ AiExplain.load_failed_sentences Regex.ascii_decimal
       (AiExplain.write_failed_to_txt pairs [None; None] (Some (py "old")))
     = pairs.
Proof.
  intros pairs.
  assert (Hdb : unicode_agrees_on_ascii Regex.ascii_decimal).
  { intros c _. reflexivity. }
  assert (H : forall idx s, In (idx, s) pairs -> loggable_sentence s).
  { intros idx s [E | [E | []]]; inversion E; subst;
      (split; [discriminate |]);
      (split; [intros Hin; vm_compute in Hin; intuition discriminate |]);
      (split; [intros Hin; vm_compute in Hin; intuition discriminate |]);
      apply no_outer_space_intro; reflexivity. }
  split; [exact Hdb |]. split; [exact H |].
  exact (proj1 (failure_log_round_trip Regex.ascii_decimal pairs
                  (Some (py "old")) Hdb H)).
Defined.

(** * Further properties of the code *)

Section StripFacts.

Lemma lstrip_suffix (s : pystr) : exists w, s = w ++ lstrip s.
Proof.
  induction s as [|c s [w IH]].
  - exists []. reflexivity.
  - simpl. destruct (isspace c).
    + exists (c :: w). simpl. f_equal. exact IH.
    + exists []. reflexivity.
Qed.

Lemma lstrip_head (s : pystr) (c : char) (r : pystr) :
  lstrip s = c :: r -> isspace c = false.
Proof.
  induction s as [|x s IH]; simpl; [discriminate |].
  destruct (isspace x) eqn:E; [exact IH |].
  intros H. inversion H; subst. exact E.
Qed.

Lemma rstrip_prefix (s : pystr) : exists w, s = rstrip s ++ w.
Proof.
  unfold rstrip. destruct (lstrip_suffix (rev s)) as [w Hw].
  exists (rev w). rewrite <- rev_app_distr, <- Hw, rev_involutive. reflexivity.
Qed.

Lemma rstrip_last (s body : pystr) (c : char) :
  rstrip s = body ++ [c] -> isspace c = false.
Proof.
  unfold rstrip. intros H.
  apply (f_equal (@rev N)) in H. rewrite rev_involutive, rev_app_distr in H.
  exact (lstrip_head _ _ _ H).
Qed.

Lemma strip_no_outer_space (s : pystr) : no_outer_space (strip s).
Proof.
  split.
  - intros c rest H. unfold strip in H.
    destruct (rstrip_prefix (lstrip s)) as [w Hw]. rewrite H in Hw.
    exact (lstrip_head s c (rest ++ w) Hw).
  - intros body c H. exact (rstrip_last _ _ _ H).
Qed.

Lemma lstrip_fixed (s : pystr) :
  (forall c rest, s = c :: rest -> isspace c = false) -> lstrip s = s.
Proof.
  intros H. destruct s as [|c s]; [reflexivity |].
  simpl. rewrite (H c s eq_refl). reflexivity.
Qed.

Lemma rstrip_fixed (s : pystr) :
  (forall body c, s = body ++ [c] -> isspace c = false) -> rstrip s = s.
Proof.
  intros H. destruct s as [|c s] using rev_ind; [reflexivity |].
  apply rstrip_snoc_other. exact (H s c eq_refl).
Qed.

Lemma strip_fixed (s : pystr) : no_outer_space s -> strip s = s.
Proof.
  intros [Hf Hl]. unfold strip. rewrite (lstrip_fixed s Hf).
  exact (rstrip_fixed s Hl).
Qed.

Lemma strip_idempotent (s : pystr) : strip (strip s) = strip s.
Proof. apply strip_fixed, strip_no_outer_space. Qed.

Lemma terminator_not_space (c : char) :
  In c terminator_chars -> isspace c = false.
Proof.
  unfold terminator_chars. simpl.
  intros H. repeat (destruct H as [<- | H]; [reflexivity |]). destruct H.
Qed.

Lemma no_outer_space_snoc (s : pystr) (c : char) :
  s <> [] -> no_outer_space s -> isspace c = false ->
  no_outer_space (s ++ [c]).
Proof.
  intros Hne [Hf _] Hc. split.
  - intros x rest H. destruct s as [|y s]; [congruence |].
    inversion H; subst. exact (Hf x s eq_refl).
  - intros body x H. apply app_inj_tail in H as [_ <-]. exact Hc.
Qed.

End StripFacts.

(** The sentence [load_row] records for a kept cell. *)
Lemma load_row_sentence (idx : N) (r : row) (s : pystr) :
  AiExplain.load_row idx r = [(idx, s)] ->
  s <> [] /\ ends_in_terminator s /\ no_outer_space s.
Proof.
  unfold AiExplain.load_row. destruct r as [|cell r]; [discriminate |].
  destruct (strip cell) as [|c0 s0] eqn:E; [discriminate |].
  cbn [truthy]. intros H.
  pose proof (strip_no_outer_space cell) as Hno. rewrite E in Hno.
  destruct (endswith_any AiExplain.terminators (c0 :: s0)) eqn:Ht;
    cbn [negb] in H; inversion H; subst s.
  - split; [discriminate |]. split; [| exact Hno].
    apply endswith_terminators. exact Ht.
  - split; [destruct s0; discriminate |]. split.
    + exists (c0 :: s0), 0x3002. split; [reflexivity |]. left. reflexivity.
    + apply (no_outer_space_snoc (c0 :: s0) 0x3002);
        [discriminate | exact Hno | reflexivity].
Qed.

Lemma loaded_sentence_normalized (t : table) (idx : N) (s : pystr) :
  In (idx, s) (AiExplain.load_sentences_from_csv t) -> normalized s.
Proof.
  unfold AiExplain.load_sentences_from_csv. rewrite load_rows_In.
  intros (k & r & _ & _ & Hr). exact (load_row_sentence _ _ _ Hr).
Qed.

(** X1. Every sentence the loader returns is non-empty, ends in one of the
    recognized terminators, and has neither leading nor trailing
    whitespace. *)
Theorem loaded_sentences_are_normalized (t : table) (idx : N) (s : pystr) :
  In (idx, s) (AiExplain.load_sentences_from_csv t) ->
  s <> [] /\ ends_in_terminator s /\ no_outer_space s.
Proof. exact (loaded_sentence_normalized t idx s). Qed.

Lemma loaded_sentences_are_normalized_witness :
  In (2, py "明天.")
    (AiExplain.load_sentences_from_csv [[py "原句"]; [py " 你好"]; [py "明天. "]])
  /\ py "明天." <> [] /\ ends_in_terminator (py "明天.")
  /\ no_outer_space (py "明天.").
Proof.
  assert (H : In (2, py "明天.")
                (AiExplain.load_sentences_from_csv
                   [[py "原句"]; [py " 你好"]; [py "明天. "]])).
  { vm_compute. right. left. reflexivity. }
  split; [exact H |].
  exact (loaded_sentences_are_normalized _ _ _ H).
Defined.

Section LoaderFacts.

Lemma load_row_cases (idx : N) (r : row) :
  AiExplain.load_row idx r = []
  \/ exists s, AiExplain.load_row idx r = [(idx, s)].
Proof.
  unfold AiExplain.load_row. destruct r as [|cell r]; [left; reflexivity |].
  destruct (truthy (strip cell)); [right; eauto | left; reflexivity].
Qed.

Lemma load_rows_length (start : N) (rows : list row) :
  (length (AiExplain.load_rows start rows) <= length rows)%nat.
Proof.
  revert start. induction rows as [|r rows IH]; intros start; simpl; [lia |].
  rewrite length_app. specialize (IH (start + 1)).
  destruct (load_row_cases start r) as [-> | [s ->]]; simpl; lia.
Qed.

Lemma load_rows_lookup (start : N) (rows : list row) (k : nat) (idx : N)
    (s : pystr) :
  AiExplain.load_rows start rows !! k = Some (idx, s) ->
  start + N.of_nat k <= idx < start + N.of_nat (length rows).
Proof.
  revert start k. induction rows as [|r rows IH]; intros start k H.
  - destruct k; discriminate.
  - cbn [AiExplain.load_rows] in H.
    destruct (load_row_cases start r) as [E | [s0 E]]; rewrite E in H.
    + simpl in H. apply IH in H. simpl length. lia.
    + destruct k as [|k]; simpl in H.
      * inversion H; subst. simpl length. lia.
      * apply IH in H. simpl length. lia.
Qed.

Lemma load_rows_increasing (start : N) (rows : list row) (i j : nat)
    (a b : N * pystr) :
  (i < j)%nat ->
  AiExplain.load_rows start rows !! i = Some a ->
  AiExplain.load_rows start rows !! j = Some b ->
  fst a < fst b.
Proof.
  revert start i j. induction rows as [|r rows IH]; intros start i j Hij Ha Hb.
  - destruct i; discriminate.
  - cbn [AiExplain.load_rows] in Ha, Hb.
    destruct (load_row_cases start r) as [E | [s0 E]]; rewrite E in Ha, Hb.
    + simpl in Ha, Hb. exact (IH _ _ _ Hij Ha Hb).
    + destruct j as [|j]; [lia |]. simpl in Hb. destruct i as [|i]; simpl in Ha.
      * inversion Ha; subst a. destruct b as [ib sb].
        apply load_rows_lookup in Hb. simpl. lia.
      * apply (IH (start + 1) i j); [lia | exact Ha | exact Hb].
Qed.

Lemma load_rows_all_kept (start : N) (rows : list row) :
  Forall kept_row rows ->
  map fst (AiExplain.load_rows start rows)
  = map (fun k => start + N.of_nat k) (seq 0 (length rows)).
Proof.
  intros H. revert start. induction H as [|r rows Hr Hrows IH]; intros start.
  - reflexivity.
  - destruct Hr as (cell & rest & -> & Hne).
    cbn [AiExplain.load_rows AiExplain.load_row].
    destruct (strip cell) as [|c0 s0] eqn:E; [congruence |].
    cbn [truthy app map fst length seq]. f_equal; [f_equal; lia |].
    rewrite IH, <- seq_shift, map_map. apply map_ext. intros k. lia.
Qed.

Lemma load_row_normalized (idx : N) (s : pystr) :
  normalized s -> AiExplain.load_row idx [s] = [(idx, s)].
Proof.
  intros (Hne & Ht & Hno). unfold AiExplain.load_row.
  rewrite (strip_fixed s Hno).
  apply endswith_terminators in Ht. rewrite Ht.
  destruct s; [congruence | reflexivity].
Qed.

Lemma load_rows_normalized (start : N) (l : list (N * pystr)) :
  (forall p, In p l -> normalized (snd p)) ->
  AiExplain.load_rows start (map (fun p => [snd p]) l)
  = imap (fun k p => (start + N.of_nat k, snd p)) l.
Proof.
  revert start. induction l as [|p l IH]; intros start H; [reflexivity |].
  cbn [map AiExplain.load_rows]. rewrite load_row_normalized by (apply H; left; reflexivity).
  rewrite IH by (intros q Hq; apply H; right; exact Hq).
  cbn [imap app]. f_equal; [f_equal; lia |].
  apply imap_ext. intros k q _. simpl. f_equal. lia.
Qed.

End LoaderFacts.

(** X2. The loader never returns more sentences than there are data rows;
    the sentence at position [k] of its result carries an index between
    [k + 1] and the number of data rows; and the indices increase strictly
    along the result. *)
Theorem loader_indices_bounded_and_increasing (t : table) :
  (length (AiExplain.load_sentences_from_csv t) <= length (tl t))%nat
  /\ (forall k idx s,
        AiExplain.load_sentences_from_csv t !! k = Some (idx, s) ->
        N.of_nat k + 1 <= idx <= N.of_nat (length (tl t)))
  /\ (forall i j a b, (i < j)%nat ->
        AiExplain.load_sentences_from_csv t !! i = Some a ->
        AiExplain.load_sentences_from_csv t !! j = Some b ->
        fst a < fst b).
Proof.
  unfold AiExplain.load_sentences_from_csv. split; [| split].
  - apply load_rows_length.
  - intros k idx s H. apply load_rows_lookup in H. lia.
  - intros i j a b. apply load_rows_increasing.
Qed.

(** X3. When the loader keeps every data row, the sentences are numbered
    1, 2, ... without a gap: there are as many as data rows and the
    sentence at position [k] carries index [k + 1]. *)
Theorem loader_numbers_without_gap (t : table) :
  Forall kept_row (tl t) ->
  map fst (AiExplain.load_sentences_from_csv t)
  = map (fun k => N.of_nat (S k)) (seq 0 (length (tl t))).
Proof.
  intros H. unfold AiExplain.load_sentences_from_csv.
  rewrite load_rows_all_kept by exact H. apply map_ext. intros k. lia.
Qed.

Lemma loader_numbers_without_gap_witness :
  Forall kept_row (tl [[py "原句"]; [py "天气很好。"]; [py "明天."]])
  /\ map fst (AiExplain.load_sentences_from_csv
                [[py "原句"]; [py "天气很好。"]; [py "明天."]])
     = [1; 2].
Proof.
  assert (H : Forall kept_row (tl [[py "原句"]; [py "天气很好。"]; [py "明天."]])).
  { repeat constructor; eexists _, _; (split; [reflexivity | vm_compute; discriminate]). }
  split; [exact H |].
  exact (loader_numbers_without_gap _ H).
Defined.

(** X4. The loader's normal form is stable: a table whose first column
    holds the sentences of an earlier load gives the same sentences again,
    numbered from 1. *)
Theorem loader_reload_is_stable (t : table) (header : row) :
  AiExplain.load_sentences_from_csv
    (header :: map (fun p => [snd p]) (AiExplain.load_sentences_from_csv t))
  = imap (fun k p => (N.of_nat (S k), snd p))
      (AiExplain.load_sentences_from_csv t).
Proof.
  unfold AiExplain.load_sentences_from_csv at 1. cbn [tl].
  rewrite load_rows_normalized.
  - apply imap_ext. intros k p _. simpl. f_equal. lia.
  - intros [idx s] Hp. exact (loaded_sentence_normalized t idx s Hp).
Qed.

Section ResultLineFacts.

Lemma lstrip_nil_iff (s : pystr) :
  lstrip s = [] <-> Forall (fun c => isspace c = true) s.
Proof.
  induction s as [|c s IH]; simpl.
  - split; [constructor | reflexivity].
  - destruct (isspace c) eqn:E.
    + rewrite IH. split; [intros H; constructor; assumption |].
      intros H. inversion H; assumption.
    + split; [discriminate |]. intros H. inversion H; congruence.
Qed.

Lemma strip_nil_iff (s : pystr) :
  strip s = [] <-> Forall (fun c => isspace c = true) s.
Proof.
  split.
  - intros H. unfold strip, rstrip in H.
    apply (f_equal (@rev N)) in H. rewrite rev_involutive in H. simpl in H.
    apply lstrip_nil_iff in H. apply List.Forall_rev in H.
    rewrite rev_involutive in H.
    destruct (lstrip s) as [|c r] eqn:E.
    + apply lstrip_nil_iff. exact E.
    + pose proof (lstrip_head s c r E) as Hc. inversion H; congruence.
  - intros H. apply lstrip_nil_iff in H. unfold strip. rewrite H. reflexivity.
Qed.

Lemma split_result_lines_surviving (text : pystr) :
  AiExplain.split_result_lines text
  = match surviving_lines text with
    | [] => None
    | first :: others => Some (first, join [LF] others)
    end.
Proof.
  unfold AiExplain.split_result_lines. rewrite map_filter_strip.
  change (List.filter truthy (map strip (split_lf (strip text))))
    with (surviving_lines (strip text)).
  rewrite surviving_strip.
  destruct (surviving_lines text) as [|first [|l ls]]; reflexivity.
Qed.

Lemma surviving_nil_iff (text : pystr) :
  surviving_lines text = [] <-> Forall (fun c => isspace c = true) text.
Proof.
  induction text as [|c s IH].
  - split; [constructor | reflexivity].
  - destruct (isspace c) eqn:E.
    + rewrite surviving_cons_space by exact E. rewrite IH.
      split; [intros H; constructor; assumption |].
      intros H. inversion H; assumption.
    + split; [| intros H; inversion H; congruence].
      intros H. exfalso. unfold surviving_lines in H. simpl split_lf in H.
      destruct (c =? LF) eqn:Ec.
      * apply N.eqb_eq in Ec. subst c. discriminate.
      * destruct (split_lf s) as [|l ls] eqn:El;
          [exact (split_lf_nonempty s El) |].
        cbn [map List.filter] in H.
        destruct (strip (c :: l)) as [|x r] eqn:Es.
        -- apply strip_nil_iff in Es. inversion Es; congruence.
        -- discriminate.
Qed.

Lemma lstrip_incl (s : pystr) (x : char) : In x (lstrip s) -> In x s.
Proof.
  destruct (lstrip_suffix s) as [w Hw]. intros H. rewrite Hw.
  apply in_or_app. right. exact H.
Qed.

Lemma strip_incl (s : pystr) (x : char) : In x (strip s) -> In x s.
Proof.
  unfold strip. intros H. apply lstrip_incl.
  destruct (rstrip_prefix (lstrip s)) as [w Hw]. rewrite Hw.
  apply in_or_app. left. exact H.
Qed.

Lemma split_lf_no_LF (s : pystr) : Forall (fun l => ~ In LF l) (split_lf s).
Proof.
  induction s as [|c s IH]; simpl.
  - constructor; [intros [] | constructor].
  - destruct (c =? LF) eqn:E.
    + constructor; [intros [] | exact IH].
    + destruct (split_lf s) as [|l ls]; [constructor; [| constructor] |].
      * intros [H | []]. apply N.eqb_neq in E. congruence.
      * inversion IH; subst. constructor; [| assumption].
        intros [H | H]; [apply N.eqb_neq in E; congruence | contradiction].
Qed.

Lemma surviving_lines_clean (text : pystr) :
  Forall clean_line (surviving_lines text).
Proof.
  unfold surviving_lines.
  pose proof (split_lf_no_LF text) as H.
  induction H as [|l ls Hl Hls IH]; simpl; [constructor |].
  destruct (strip l) as [|c r] eqn:E; simpl; [exact IH |].
  constructor; [| exact IH]. rewrite <- E. split; [congruence |]. split.
  - intros Hin. apply Hl. exact (strip_incl _ _ Hin).
  - apply strip_no_outer_space.
Qed.

Lemma split_lf_line (l : pystr) : ~ In LF l -> split_lf l = [l].
Proof.
  induction l as [|c l IH]; intros H; [reflexivity |].
  simpl. destruct (c =? LF) eqn:E.
  - apply N.eqb_eq in E. exfalso. apply H. left. exact E.
  - rewrite IH; [reflexivity |]. intros Hin. apply H. right. exact Hin.
Qed.

Lemma split_lf_app_line (l rest : pystr) :
  ~ In LF l -> split_lf (l ++ LF :: rest) = l :: split_lf rest.
Proof.
  induction l as [|c l IH]; intros H; [reflexivity |].
  simpl. destruct (c =? LF) eqn:E.
  - apply N.eqb_eq in E. exfalso. apply H. left. exact E.
  - rewrite IH; [reflexivity |]. intros Hin. apply H. right. exact Hin.
Qed.

Lemma split_lf_join (l : pystr) (ls : list pystr) :
  Forall (fun l => ~ In LF l) (l :: ls) ->
  split_lf (join [LF] (l :: ls)) = l :: ls.
Proof.
  revert l. induction ls as [|l' ls IH]; intros l H; inversion H; subst.
  - simpl. apply split_lf_line. assumption.
  - change (join [LF] (l :: l' :: ls)) with (l ++ LF :: join [LF] (l' :: ls)).
    rewrite split_lf_app_line by assumption. f_equal. apply IH. assumption.
Qed.

Lemma surviving_lines_join (l : pystr) (ls : list pystr) :
  Forall clean_line (l :: ls) ->
  surviving_lines (join [LF] (l :: ls)) = l :: ls.
Proof.
  intros H. unfold surviving_lines. rewrite split_lf_join.
  - induction H as [|x xs (Hne & _ & Hno) Hxs IH]; [reflexivity |].
    cbn [map List.filter]. rewrite (strip_fixed x Hno).
    destruct x; [congruence |]. cbn [truthy]. f_equal. exact IH.
  - eapply List.Forall_impl; [| exact H]. intros x (_ & Hx & _). exact Hx.
Qed.

End ResultLineFacts.

(** X5. [split_result_lines] gives the absent pair exactly for the texts
    that consist of whitespace only (the empty text among them). *)
Theorem split_result_lines_absent_iff_blank (text : pystr) :
  AiExplain.split_result_lines text = None
  <-> Forall (fun c => isspace c = true) text.
Proof.
  rewrite split_result_lines_surviving, <- surviving_nil_iff.
  destruct (surviving_lines text); split; congruence.
Qed.

(** X6. A judgment that [split_result_lines] returns is never empty, holds
    no newline and no whitespace at either end; the explanation is the
    newline-joined sequence of lines of the same kind. *)
Theorem split_result_lines_gives_clean_lines (text judgment explanation : pystr) :
  AiExplain.split_result_lines text = Some (judgment, explanation) ->
  clean_line judgment
  /\ exists others, explanation = join [LF] others /\ Forall clean_line others.
Proof.
  rewrite split_result_lines_surviving.
  pose proof (surviving_lines_clean text) as H.
  destruct (surviving_lines text) as [|first others]; [discriminate |].
  intros E. inversion E; subst. inversion H; subst.
  split; [assumption |]. exists others. split; [reflexivity | assumption].
Qed.

Lemma split_result_lines_gives_clean_lines_witness :
  AiExplain.split_result_lines (py " 错 " ++ [LF; LF] ++ py "解释B" ++ [LF] ++ py "续 ")
  = Some (py "错", py "解释B" ++ [LF] ++ py "续")
  /\ clean_line (py "错").
Proof.
  assert (H : AiExplain.split_result_lines
                (py " 错 " ++ [LF; LF] ++ py "解释B" ++ [LF] ++ py "续 ")
              = Some (py "错", py "解释B" ++ [LF] ++ py "续")) by reflexivity.
  split; [exact H |].
  exact (proj1 (split_result_lines_gives_clean_lines _ _ _ H)).
Defined.

(** X7. Parsing is stable under joining: the judgment followed by the
    lines of the explanation, joined by newlines, parses back to the same
    judgment and explanation. *)
Theorem split_result_lines_of_joined (judgment : pystr) (others : list pystr) :
  Forall clean_line (judgment :: others) ->
  AiExplain.split_result_lines (join [LF] (judgment :: others))
  = Some (judgment, join [LF] others).
Proof.
  intros H. rewrite split_result_lines_surviving, surviving_lines_join by exact H.
  reflexivity.
Qed.

Lemma split_result_lines_of_joined_witness :
  Forall clean_line [py "错"; py "解释B"; py "续"]
  /\ AiExplain.split_result_lines (join [LF] [py "错"; py "解释B"; py "续"])
     = Some (py "错", join [LF] [py "解释B"; py "续"]).
Proof.
  assert (H : Forall clean_line [py "错"; py "解释B"; py "续"]).
  { repeat constructor; try discriminate;
      try (intros Hin; vm_compute in Hin; intuition discriminate);
      try (intros c rest E; inversion E; reflexivity);
      try (intros body c E; apply (f_equal (@rev N)) in E;
           rewrite rev_app_distr in E; simpl in E; inversion E; reflexivity). }
  split; [exact H |].
  exact (split_result_lines_of_joined _ _ H).
Defined.

Section CleanFormattingFacts.

Lemma startswith_spec (d s : pystr) :
  startswith d s = true -> s = d ++ skipn (length d) s.
Proof.
  revert s. induction d as [|x d IH]; intros s H; [reflexivity |].
  destruct s as [|c s]; simpl in H; [discriminate |].
  apply andb_true_iff in H as [Hx Hd]. apply N.eqb_eq in Hx. subst c.
  simpl. f_equal. exact (IH s Hd).
Qed.

Lemma startswith_app (d s : pystr) : startswith d (d ++ s) = true.
Proof.
  induction d as [|x d IH]; [reflexivity |].
  simpl. rewrite N.eqb_refl. exact IH.
Qed.

Lemma startswith_head (d s : pystr) (c : char) :
  head d <> Some c -> d <> [] -> startswith d (c :: s) = false.
Proof.
  destruct d as [|x d]; [congruence |]. intros H _. simpl.
  destruct (x =? c) eqn:E; [| reflexivity].
  apply N.eqb_eq in E. subst x. simpl in H. congruence.
Qed.

Lemma lazy_until_spec (d s g r : pystr) :
  Regex.lazy_until d s = Some (g, r) -> s = g ++ d ++ r.
Proof.
  revert g. induction s as [|c s IH]; intros g; simpl.
  - destruct (startswith d []) eqn:E; [| discriminate].
    intros H. inversion H; subst. exact (startswith_spec d [] E).
  - destruct (startswith d (c :: s)) eqn:E.
    + intros H. inversion H; subst. exact (startswith_spec d (c :: s) E).
    + destruct (c =? LF); [discriminate |].
      destruct (Regex.lazy_until d s) as [[g' r']|]; [| discriminate].
      intros H. inversion H; subst. simpl. f_equal. exact (IH g' eq_refl).
Qed.

Lemma match_at_spec (delims : list pystr) (s g r : pystr) :
  Regex.match_at delims s = Some (g, r) ->
  exists d, In d delims /\ s = d ++ g ++ d ++ r.
Proof.
  induction delims as [|d ds IH]; simpl; [discriminate |].
  destruct (startswith d s) eqn:E.
  - destruct (Regex.lazy_until d (skipn (length d) s)) as [[g' r']|] eqn:El.
    + intros H. inversion H; subst. exists d. split; [left; reflexivity |].
      rewrite (startswith_spec d s E) at 1. f_equal.
      exact (lazy_until_spec _ _ _ _ El).
    + intros H. destruct (IH H) as (d' & Hd & Hs). eauto.
  - intros H. destruct (IH H) as (d' & Hd & Hs). eauto.
Qed.

Lemma sub_from_length (fuel : nat) (delims : list pystr) (s : pystr) :
  (length (Regex.sub_from fuel delims s) <= length s)%nat.
Proof.
  revert s. induction fuel as [|fuel IH]; intros s; simpl; [lia |].
  destruct s as [|c s]; [simpl; lia |].
  destruct (Regex.match_at delims (c :: s)) as [[g r]|] eqn:E.
  - destruct (match_at_spec _ _ _ _ E) as (d & _ & Hs). rewrite Hs.
    rewrite !length_app. specialize (IH r). lia.
  - simpl. specialize (IH s). lia.
Qed.

Lemma match_at_inert (delims : list pystr) (c : char) (s : pystr) :
  Forall (fun d => d <> []) delims ->
  (forall d, In d delims -> head d <> Some c) ->
  Regex.match_at delims (c :: s) = None.
Proof.
  intros Hne H. induction Hne as [|d ds Hd Hds IH]; [reflexivity |].
  simpl Regex.match_at.
  rewrite (startswith_head d s c (H d (or_introl eq_refl)) Hd).
  apply IH. intros d' Hd'. apply H. right. exact Hd'.
Qed.

Lemma sub_from_app_inert (delims : list pystr) (a rest : pystr) (fuel : nat) :
  Forall (fun d => d <> []) delims ->
  inert delims a ->
  Regex.sub_from (length a + fuel) delims (a ++ rest)
  = a ++ Regex.sub_from fuel delims rest.
Proof.
  intros Hne. induction a as [|c a IH]; intros Ha; [reflexivity |].
  cbn [length Nat.add app Regex.sub_from].
  rewrite match_at_inert; [| exact Hne |].
  - f_equal. apply IH. intros x Hx. apply Ha. right. exact Hx.
  - apply Ha. left. reflexivity.
Qed.

Lemma sub_pairs_inert (delims : list pystr) (s : pystr) :
  Forall (fun d => d <> []) delims ->
  inert delims s -> Regex.sub_pairs delims s = s.
Proof.
  intros Hne Hs. unfold Regex.sub_pairs.
  pose proof (sub_from_app_inert delims s [] 0 Hne Hs) as H.
  rewrite Nat.add_0_r, app_nil_r in H. rewrite H. simpl. apply app_nil_r.
Qed.

Lemma lazy_until_found (d b c : pystr) (m : char) :
  head d = Some m -> ~ In m b -> ~ In LF b ->
  Regex.lazy_until d (b ++ d ++ c) = Some (b, c).
Proof.
  intros Hd Hm Hlf. induction b as [|x b IH].
  - simpl app. destruct d as [|m' d']; [discriminate |].
    assert (E : startswith (m' :: d') ((m' :: d') ++ c) = true)
      by apply startswith_app.
    assert (Hs : skipn (length (m' :: d')) ((m' :: d') ++ c) = c).
    { rewrite skipn_app, Nat.sub_diag, skipn_all. reflexivity. }
    simpl in E |- *. simpl in Hs. rewrite E, Hs. reflexivity.
  - assert (Hx : startswith d (x :: b ++ d ++ c) = false).
    { apply startswith_head.
      - rewrite Hd. intros E. inversion E; subst. apply Hm. left. reflexivity.
      - intros ->. discriminate. }
    cbn [app Regex.lazy_until]. rewrite Hx.
    destruct (x =? LF) eqn:E.
    + apply N.eqb_eq in E. exfalso. apply Hlf. left. exact E.
    + rewrite IH; [reflexivity | |].
      * intros H. apply Hm. right. exact H.
      * intros H. apply Hlf. right. exact H.
Qed.

Lemma marker_free_inert (delims : list pystr) (s : pystr) :
  (forall d, In d delims -> exists m, head d = Some m /\ In m marker_chars) ->
  marker_free s -> inert delims s.
Proof.
  intros Hd Hs c Hc d Hin E. destruct (Hd d Hin) as (m & Hm & Hmark).
  rewrite Hm in E. inversion E; subst. exact (Hs c Hc Hmark).
Qed.

Lemma marker_free_app (a b : pystr) :
  marker_free a -> marker_free b -> marker_free (a ++ b).
Proof.
  intros Ha Hb c Hc. apply in_app_or in Hc as [H | H]; [apply Ha | apply Hb]; exact H.
Qed.

Lemma pass1_delims : forall d, In d [py "**"; py "__"] ->
  exists m, head d = Some m /\ In m marker_chars.
Proof.
  intros d [<- | [<- | []]]; eexists; (split; [reflexivity |]);
    unfold marker_chars; simpl; tauto.
Qed.

Lemma pass2_delims : forall d, In d [py "*"; py "_"] ->
  exists m, head d = Some m /\ In m marker_chars.
Proof.
  intros d [<- | [<- | []]]; eexists; (split; [reflexivity |]);
    unfold marker_chars; simpl; tauto.
Qed.

Lemma pass3_delims : forall d, In d [py "`"] ->
  exists m, head d = Some m /\ In m marker_chars.
Proof.
  intros d [<- | []]; eexists; (split; [reflexivity |]);
    unfold marker_chars; simpl; tauto.
Qed.

Lemma clean_formatting_marker_free (s : pystr) :
  marker_free s -> AiExplain.clean_formatting s = s.
Proof.
  intros H. unfold AiExplain.clean_formatting.
  rewrite (sub_pairs_inert [py "**"; py "__"] s);
    [| repeat constructor; discriminate
     | exact (marker_free_inert _ _ pass1_delims H)].
  rewrite (sub_pairs_inert [py "*"; py "_"] s);
    [| repeat constructor; discriminate
     | exact (marker_free_inert _ _ pass2_delims H)].
  apply sub_pairs_inert;
    [repeat constructor; discriminate
    | exact (marker_free_inert _ _ pass3_delims H)].
Qed.

(** One pass over a text with one pair of delimiters around [b]. *)
Lemma sub_pairs_one_pair (delims : list pystr) (d a b c : pystr) :
  Forall (fun d => d <> []) delims ->
  inert delims a -> inert delims c ->
  Regex.match_at delims (d ++ b ++ d ++ c) = Some (b, c) ->
  d <> [] ->
  Regex.sub_pairs delims (a ++ d ++ b ++ d ++ c) = a ++ b ++ c.
Proof.
  intros Hne Ha Hc Hm Hd. unfold Regex.sub_pairs. rewrite length_app.
  rewrite sub_from_app_inert by assumption. f_equal.
  destruct (length (d ++ b ++ d ++ c)) as [|fuel] eqn:El.
  - destruct d; [congruence | discriminate].
  - destruct (d ++ b ++ d ++ c) as [|x s] eqn:Es.
    + destruct d; [congruence | discriminate].
    + cbn [Regex.sub_from]. rewrite Hm. f_equal.
      pose proof (sub_from_app_inert delims c [] 0 Hne Hc) as H.
      rewrite Nat.add_0_r, app_nil_r in H.
      clear - Hne Hc. revert fuel.
      induction c as [|y c IH]; intros fuel; destruct fuel; try reflexivity.
      cbn [Regex.sub_from]. rewrite match_at_inert;
        [| exact Hne | apply Hc; left; reflexivity].
      f_equal. apply IH. intros z Hz. apply Hc. right. exact Hz.
Qed.

End CleanFormattingFacts.

(** X8. [clean_formatting] leaves a text without asterisk, underscore and
    backtick exactly as it is. *)
Theorem clean_formatting_keeps_plain_text (s : pystr) :
  marker_free s -> AiExplain.clean_formatting s = s.
Proof. exact (clean_formatting_marker_free s). Qed.

Lemma clean_formatting_keeps_plain_text_witness :
  marker_free (py "对" ++ [LF] ++ py "解释A")
  /\ AiExplain.clean_formatting (py "对" ++ [LF] ++ py "解释A")
     = py "对" ++ [LF] ++ py "解释A".
Proof.
  assert (H : marker_free (py "对" ++ [LF] ++ py "解释A")).
  { intros c Hc Hm. vm_compute in Hc, Hm.
    intuition (subst; discriminate). }
  split; [exact H |]. exact (clean_formatting_keeps_plain_text _ H).
Defined.

(** X9. [clean_formatting] only removes characters: its result is never
    longer than the text it is given. *)
Theorem clean_formatting_never_grows (s : pystr) :
  (length (AiExplain.clean_formatting s) <= length s)%nat.
Proof.
  unfold AiExplain.clean_formatting, Regex.sub_pairs.
  etransitivity; [apply sub_from_length |].
  etransitivity; [apply sub_from_length |].
  apply sub_from_length.
Qed.

Section PairFacts.

Lemma skipn_length_app (d s : pystr) : skipn (length d) (d ++ s) = s.
Proof. induction d as [|x d IH]; [reflexivity | exact IH]. Qed.

Lemma inert_pass12_with_backticks (delims : list pystr) (a b c : pystr) :
  (forall d, In d delims -> head d = Some 42 \/ head d = Some 95) ->
  marker_free a -> marker_free b -> marker_free c ->
  inert delims (a ++ [96] ++ b ++ [96] ++ c).
Proof.
  intros Hd Ha Hb Hc x Hx d Hin E.
  assert (Hx' : x = 96 \/ ~ In x marker_chars).
  { rewrite !in_app_iff in Hx. simpl in Hx.
    destruct Hx as [H | [[H | []] | [H | [[H | []] | H]]]]; auto. }
  destruct (Hd d Hin) as [H | H]; rewrite H in E; inversion E; subst x;
    destruct Hx' as [Hx' | Hx']; try discriminate;
    apply Hx'; unfold marker_chars; simpl; tauto.
Qed.

Lemma match_bold (b c : pystr) :
  ~ In 42 b -> ~ In LF b ->
  Regex.match_at [[42; 42]; [95; 95]] ([42; 42] ++ b ++ [42; 42] ++ c)
  = Some (b, c).
Proof.
  intros Hb Hlf. cbn [Regex.match_at]. rewrite startswith_app.
  rewrite skipn_length_app.
  rewrite (lazy_until_found [42; 42] b c 42 eq_refl Hb Hlf). reflexivity.
Qed.

Lemma match_underline (b c : pystr) :
  ~ In 95 b -> ~ In LF b ->
  Regex.match_at [[42; 42]; [95; 95]] ([95; 95] ++ b ++ [95; 95] ++ c)
  = Some (b, c).
Proof.
  intros Hb Hlf. cbn [Regex.match_at].
  change (startswith [42; 42] ([95; 95] ++ b ++ [95; 95] ++ c)) with false.
  cbv iota. rewrite startswith_app.
  rewrite skipn_length_app.
  rewrite (lazy_until_found [95; 95] b c 95 eq_refl Hb Hlf). reflexivity.
Qed.

Lemma match_code (b c : pystr) :
  ~ In 96 b -> ~ In LF b ->
  Regex.match_at [[96]] ([96] ++ b ++ [96] ++ c) = Some (b, c).
Proof.
  intros Hb Hlf. cbn [Regex.match_at]. rewrite startswith_app.
  rewrite skipn_length_app.
  rewrite (lazy_until_found [96] b c 96 eq_refl Hb Hlf). reflexivity.
Qed.

Lemma marker_free_not_in (s : pystr) (m : char) :
  In m marker_chars -> marker_free s -> ~ In m s.
Proof. intros Hm Hs Hin. exact (Hs m Hin Hm). Qed.

End PairFacts.

(** X10. [clean_formatting] drops a pair of bold markers, of double
    underscores or of backticks and keeps what they enclose: with plain
    text before, between (on one line) and after the pair, the result is
    the three texts joined. *)
Theorem clean_formatting_drops_pair (a b c : pystr) :
  marker_free a -> marker_free b -> marker_free c -> ~ In LF b ->
  AiExplain.clean_formatting (a ++ py "**" ++ b ++ py "**" ++ c) = a ++ b ++ c
  /\ AiExplain.clean_formatting (a ++ py "__" ++ b ++ py "__" ++ c) = a ++ b ++ c
  /\ AiExplain.clean_formatting (a ++ py "`" ++ b ++ py "`" ++ c) = a ++ b ++ c.
Proof.
  intros Ha Hb Hc Hlf.
  assert (Hbc : marker_free (a ++ b ++ c))
    by (repeat apply marker_free_app; assumption).
  assert (H42 : In 42 marker_chars) by (unfold marker_chars; simpl; tauto).
  assert (H95 : In 95 marker_chars) by (unfold marker_chars; simpl; tauto).
  assert (H96 : In 96 marker_chars) by (unfold marker_chars; simpl; tauto).
  assert (Hne1 : Forall (fun d : pystr => d <> []) [py "**"; py "__"])
    by (repeat constructor; discriminate).
  assert (Hne2 : Forall (fun d : pystr => d <> []) [py "*"; py "_"])
    by (repeat constructor; discriminate).
  assert (Hne3 : Forall (fun d : pystr => d <> []) [py "`"])
    by (repeat constructor; discriminate).
  split; [| split].
  - unfold AiExplain.clean_formatting.
    rewrite (sub_pairs_one_pair [py "**"; py "__"] (py "**") a b c Hne1
               (marker_free_inert _ _ pass1_delims Ha)
               (marker_free_inert _ _ pass1_delims Hc)
               (match_bold b c (marker_free_not_in b 42 H42 Hb) Hlf))
      by discriminate.
    rewrite (sub_pairs_inert _ _ Hne2 (marker_free_inert _ _ pass2_delims Hbc)).
    exact (sub_pairs_inert _ _ Hne3 (marker_free_inert _ _ pass3_delims Hbc)).
  - unfold AiExplain.clean_formatting.
    rewrite (sub_pairs_one_pair [py "**"; py "__"] (py "__") a b c Hne1
               (marker_free_inert _ _ pass1_delims Ha)
               (marker_free_inert _ _ pass1_delims Hc)
               (match_underline b c (marker_free_not_in b 95 H95 Hb) Hlf))
      by discriminate.
    rewrite (sub_pairs_inert _ _ Hne2 (marker_free_inert _ _ pass2_delims Hbc)).
    exact (sub_pairs_inert _ _ Hne3 (marker_free_inert _ _ pass3_delims Hbc)).
  - unfold AiExplain.clean_formatting.
    assert (H1 : inert [py "**"; py "__"] (a ++ py "`" ++ b ++ py "`" ++ c)).
    { apply (inert_pass12_with_backticks [py "**"; py "__"] a b c); try assumption.
      intros d [<- | [<- | []]]; [left | right]; reflexivity. }
    assert (H2 : inert [py "*"; py "_"] (a ++ py "`" ++ b ++ py "`" ++ c)).
    { apply (inert_pass12_with_backticks [py "*"; py "_"] a b c); try assumption.
      intros d [<- | [<- | []]]; [left | right]; reflexivity. }
    rewrite (sub_pairs_inert _ _ Hne1 H1), (sub_pairs_inert _ _ Hne2 H2).
    apply (sub_pairs_one_pair [py "`"] (py "`") a b c Hne3
             (marker_free_inert _ _ pass3_delims Ha)
             (marker_free_inert _ _ pass3_delims Hc)
             (match_code b c (marker_free_not_in b 96 H96 Hb) Hlf)).
    discriminate.
Qed.

Lemma clean_formatting_drops_pair_witness :
  marker_free (py "答：") /\ marker_free (py "对") /\ marker_free (py "。")
  /\ ~ In LF (py "对")
  /\ AiExplain.clean_formatting (py "答：**对**。") = py "答：对。".
Proof.
  assert (Ha : marker_free (py "答："))
    by (intros c Hc Hm; vm_compute in Hc, Hm; intuition (subst; discriminate)).
  assert (Hb : marker_free (py "对"))
    by (intros c Hc Hm; vm_compute in Hc, Hm; intuition (subst; discriminate)).
  assert (Hc : marker_free (py "。"))
    by (intros c Hc Hm; vm_compute in Hc, Hm; intuition (subst; discriminate)).
  assert (Hlf : ~ In LF (py "对"))
    by (intros H; vm_compute in H; intuition discriminate).
  repeat (split; [assumption |]).
  exact (proj1 (clean_formatting_drops_pair _ _ _ Ha Hb Hc Hlf)).
Defined.

Section RetryLoopFacts.

Variable api : remote.
Variable prompt : pystr.
Variable retries : nat.
Variable delay : N.

Lemma sleep_count_app (a b : trace) :
  sleep_count (a ++ b) = (sleep_count a + sleep_count b)%nat.
Proof. unfold sleep_count. rewrite List.filter_app, length_app. reflexivity. Qed.

Lemma adds_call (tr : trace) : adds tr (tr ++ [EvCall prompt]) 1 0.
Proof.
  unfold adds. rewrite call_count_app, retry_msg_count_app, sleep_count_app.
  repeat split; reflexivity.
Qed.

Lemma adds_retry (tr : trace) (i : nat) (e : pystr) :
  adds tr
    ((tr ++ [EvCall prompt]) ++ [EvRetryMsg (i + 1) retries e delay; EvSleep delay])
    1 1.
Proof.
  unfold adds.
  rewrite !call_count_app, !retry_msg_count_app, !sleep_count_app.
  unfold call_count, retry_msg_count, sleep_count. simpl. repeat split; lia.
Qed.

Lemma adds_failed_msg (tr : trace) : adds tr (tr ++ [EvFailedMsg prompt]) 0 0.
Proof.
  unfold adds. rewrite call_count_app, retry_msg_count_app, sleep_count_app.
  repeat split; reflexivity.
Qed.

Lemma adds_trans (a b c : trace) (c1 m1 c2 m2 : nat) :
  adds a b c1 m1 -> adds b c c2 m2 -> adds a c (c1 + c2) (m1 + m2).
Proof. unfold adds. intros (? & ? & ?) (? & ? & ?). repeat split; lia. Qed.

Lemma explain_loop_adds (n i : nat) (tr : trace) :
  exists c m,
    adds tr (snd (AiExplain.retry_loop api prompt retries delay i n tr)) c m
    /\ (m <= c <= n)%nat /\ (c <= m + 1)%nat.
Proof.
  revert i tr. induction n as [|n IH]; intros i tr; simpl.
  - exists 0%nat, 0%nat. unfold adds. repeat split; lia.
  - destruct (api prompt i) as [text | e | e]; simpl.
    + exists 1%nat, 0%nat. split; [apply adds_call | lia].
    + destruct (IH (S i) ((tr ++ [EvCall prompt])
                  ++ [EvRetryMsg (i + 1) retries e delay; EvSleep delay]))
        as (c & m & Ha & Hb).
      exists (1 + c)%nat, (1 + m)%nat.
      split; [exact (adds_trans _ _ _ _ _ _ _ (adds_retry tr i e) Ha) | lia].
    + exists 1%nat, 0%nat. split; [apply adds_call | lia].
Qed.

Lemma yes_no_loop_adds (n i : nat) (tr : trace) :
  exists c m,
    adds tr (snd (AiYesNo.retry_loop api prompt retries delay i n tr)) c m
    /\ (m <= c <= n)%nat /\ (c <= m + 1)%nat.
Proof.
  revert i tr. induction n as [|n IH]; intros i tr; simpl.
  - exists 0%nat, 0%nat. split; [apply adds_failed_msg | lia].
  - destruct (api prompt i) as [text | e | e]; simpl.
    + exists 1%nat, 0%nat. split; [apply adds_call | lia].
    + destruct (IH (S i) ((tr ++ [EvCall prompt])
                  ++ [EvRetryMsg (i + 1) retries e delay; EvSleep delay]))
        as (c & m & Ha & Hb).
      exists (1 + c)%nat, (1 + m)%nat.
      split; [exact (adds_trans _ _ _ _ _ _ _ (adds_retry tr i e) Ha) | lia].
    + exists 1%nat, 0%nat. split; [apply adds_call | lia].
Qed.

Lemma match_loop_adds (n i : nat) (tr : trace) :
  exists c m,
    adds tr (snd (AiMatch.retry_loop api prompt retries delay i n tr)) c m
    /\ (m <= c <= n)%nat /\ (c <= m + 1)%nat.
Proof.
  revert i tr. induction n as [|n IH]; intros i tr; simpl.
  - exists 0%nat, 0%nat. split; [apply adds_failed_msg | lia].
  - destruct (api prompt i) as [text | e | e]; simpl.
    + exists 1%nat, 0%nat. split; [apply adds_call | lia].
    + destruct (IH (S i) ((tr ++ [EvCall prompt])
                  ++ [EvRetryMsg (i + 1) retries e delay; EvSleep delay]))
        as (c & m & Ha & Hb).
      exists (1 + c)%nat, (1 + m)%nat.
      split; [exact (adds_trans _ _ _ _ _ _ _ (adds_retry tr i e) Ha) | lia].
    + destruct (IH (S i) ((tr ++ [EvCall prompt])
                  ++ [EvRetryMsg (i + 1) retries e delay; EvSleep delay]))
        as (c & m & Ha & Hb).
      exists (1 + c)%nat, (1 + m)%nat.
      split; [exact (adds_trans _ _ _ _ _ _ _ (adds_retry tr i e) Ha) | lia].
Qed.

(** After [k] server errors the loops of [ai_explain.py] and
    [ai_yes_no.py] stand at iteration [i + k] with [k] more calls and
    retry messages in the trace. *)
Lemma explain_loop_after_errors (k n i : nat) (tr : trace) :
  (forall j, (i <= j < i + k)%nat -> exists msg, api prompt j = ApiServerError msg) ->
  exists tr',
    AiExplain.retry_loop api prompt retries delay i (k + n) tr
    = AiExplain.retry_loop api prompt retries delay (i + k) n tr'
    /\ adds tr tr' k k.
Proof.
  revert i tr. induction k as [|k IH]; intros i tr H.
  - exists tr. rewrite Nat.add_0_r. split; [reflexivity |].
    unfold adds. repeat split; lia.
  - destruct (H i ltac:(lia)) as [msg Hmsg].
    destruct (IH (S i) ((tr ++ [EvCall prompt])
                ++ [EvRetryMsg (i + 1) retries msg delay; EvSleep delay]))
      as (tr' & Heq & Ha).
    { intros j Hj. apply H. lia. }
    exists tr'. split.
    + cbn [Nat.add AiExplain.retry_loop]. rewrite Hmsg, Heq.
      f_equal. lia.
    + exact (adds_trans _ _ _ _ _ _ _ (adds_retry tr i msg) Ha).
Qed.

Lemma yes_no_loop_after_errors (k n i : nat) (tr : trace) :
  (forall j, (i <= j < i + k)%nat -> exists msg, api prompt j = ApiServerError msg) ->
  exists tr',
    AiYesNo.retry_loop api prompt retries delay i (k + n) tr
    = AiYesNo.retry_loop api prompt retries delay (i + k) n tr'
    /\ adds tr tr' k k.
Proof.
  revert i tr. induction k as [|k IH]; intros i tr H.
  - exists tr. rewrite Nat.add_0_r. split; [reflexivity |].
    unfold adds. repeat split; lia.
  - destruct (H i ltac:(lia)) as [msg Hmsg].
    destruct (IH (S i) ((tr ++ [EvCall prompt])
                ++ [EvRetryMsg (i + 1) retries msg delay; EvSleep delay]))
      as (tr' & Heq & Ha).
    { intros j Hj. apply H. lia. }
    exists tr'. split.
    + cbn [Nat.add AiYesNo.retry_loop]. rewrite Hmsg, Heq.
      f_equal. lia.
    + exact (adds_trans _ _ _ _ _ _ _ (adds_retry tr i msg) Ha).
Qed.

Lemma match_loop_after_failures (k n i : nat) (tr : trace) :
  (forall j, (i <= j < i + k)%nat -> forall text, api prompt j <> ApiText text) ->
  exists tr',
    AiMatch.retry_loop api prompt retries delay i (k + n) tr
    = AiMatch.retry_loop api prompt retries delay (i + k) n tr'
    /\ adds tr tr' k k.
Proof.
  revert i tr. induction k as [|k IH]; intros i tr H.
  - exists tr. rewrite Nat.add_0_r. split; [reflexivity |].
    unfold adds. repeat split; lia.
  - pose proof (H i ltac:(lia)) as Hi.
    assert (Hrec : forall e, exists tr',
      AiMatch.retry_loop api prompt retries delay (S i) (k + n)
        ((tr ++ [EvCall prompt])
           ++ [EvRetryMsg (i + 1) retries e delay; EvSleep delay])
      = AiMatch.retry_loop api prompt retries delay (i + S k) n tr'
      /\ adds tr tr' (S k) (S k)).
    { intros e.
      destruct (IH (S i) ((tr ++ [EvCall prompt])
                  ++ [EvRetryMsg (i + 1) retries e delay; EvSleep delay]))
        as (tr' & Heq & Ha).
      { intros j Hj. apply H. lia. }
      exists tr'. split.
      - rewrite Heq. f_equal. lia.
      - exact (adds_trans _ _ _ _ _ _ _ (adds_retry tr i e) Ha). }
    cbn [Nat.add AiMatch.retry_loop].
    destruct (api prompt i) as [text | e | e];
      [exfalso; exact (Hi text eq_refl) | apply Hrec | apply Hrec].
Qed.

Lemma match_loop_returns (n i : nat) (tr : trace) :
  exists v, fst (AiMatch.retry_loop api prompt retries delay i n tr) = Returns v.
Proof.
  revert i tr. induction n as [|n IH]; intros i tr; simpl; [eauto |].
  destruct (api prompt i); simpl; eauto.
Qed.

End RetryLoopFacts.

Section RetryProcessFacts.

Variable api : remote.
Variable prompt : pystr.
Variable retries : nat.
Variable delay : N.
Variable k : nat.
Hypothesis within_budget : (k <= retries)%nat.

Lemma explain_process_after_errors :
  server_errors_before api prompt k ->
  exists tr',
    AiExplain.process_prompt_with_retry api prompt retries delay
    = AiExplain.retry_loop api prompt retries delay k (retries - k) tr'
    /\ adds [EvJitter 1 2] tr' k k.
Proof.
  intros H.
  destruct (explain_loop_after_errors api prompt retries delay k (retries - k) 0
              [EvJitter 1 2]) as (tr' & Heq & Ha).
  { intros j Hj. apply H. lia. }
  exists tr'. split; [| exact Ha].
  unfold AiExplain.process_prompt_with_retry.
  replace (k + (retries - k))%nat with retries in Heq by lia. exact Heq.
Qed.

Lemma yes_no_process_after_errors :
  server_errors_before api prompt k ->
  exists tr',
    AiYesNo.process_prompt_with_retry api prompt retries delay
    = AiYesNo.retry_loop api prompt retries delay k (retries - k) tr'
    /\ adds [EvJitter 1 2] tr' k k.
Proof.
  intros H.
  destruct (yes_no_loop_after_errors api prompt retries delay k (retries - k) 0
              [EvJitter 1 2]) as (tr' & Heq & Ha).
  { intros j Hj. apply H. lia. }
  exists tr'. split; [| exact Ha].
  unfold AiYesNo.process_prompt_with_retry.
  replace (k + (retries - k))%nat with retries in Heq by lia. exact Heq.
Qed.

Lemma match_process_after_failures :
  failures_before api prompt k ->
  exists tr',
    AiMatch.process_prompt_with_retry api prompt retries delay
    = AiMatch.retry_loop api prompt retries delay k (retries - k) tr'
    /\ adds [EvJitter 1 3] tr' k k.
Proof.
  intros H.
  destruct (match_loop_after_failures api prompt retries delay k (retries - k) 0
              [EvJitter 1 3]) as (tr' & Heq & Ha).
  { intros j Hj. apply H. lia. }
  exists tr'. split; [| exact Ha].
  unfold AiMatch.process_prompt_with_retry.
  replace (k + (retries - k))%nat with retries in Heq by lia. exact Heq.
Qed.

End RetryProcessFacts.

Lemma adds_from_jitter (lo hi : N) (tr : trace) (c m : nat) :
  adds [EvJitter lo hi] tr c m ->
  call_count tr = c /\ retry_msg_count tr = m.
Proof. intros (H1 & H2 & _). split; [exact H1 | exact H2]. Qed.

(** X11. Whatever the remote answers, [process_prompt_with_retry] of each
    of the three scripts makes at most [retries] calls; every retry
    message is followed by one sleep, and the calls exceed the retry
    messages by at most one. *)
Theorem retry_never_exceeds_budget (api : remote) (prompt : pystr)
    (retries : nat) (delay : N) :
  let bounded (tr : trace) :=
    (call_count tr <= retries)%nat
    /\ (retry_msg_count tr <= call_count tr <= retry_msg_count tr + 1)%nat
    /\ sleep_count tr = retry_msg_count tr in
  bounded (snd (AiExplain.process_prompt_with_retry api prompt retries delay))
  /\ bounded (snd (AiYesNo.process_prompt_with_retry api prompt retries delay))
  /\ bounded (snd (AiMatch.process_prompt_with_retry api prompt retries delay)).
Proof.
  intros bounded. unfold bounded.
  unfold AiExplain.process_prompt_with_retry, AiYesNo.process_prompt_with_retry,
    AiMatch.process_prompt_with_retry.
  split; [| split].
  - destruct (explain_loop_adds api prompt retries delay retries 0 [EvJitter 1 2])
      as (c & m & (H1 & H2 & H3) & Hb).
    rewrite H1, H2, H3. unfold call_count, retry_msg_count, sleep_count.
    simpl. lia.
  - destruct (yes_no_loop_adds api prompt retries delay retries 0 [EvJitter 1 2])
      as (c & m & (H1 & H2 & H3) & Hb).
    rewrite H1, H2, H3. unfold call_count, retry_msg_count, sleep_count.
    simpl. lia.
  - destruct (match_loop_adds api prompt retries delay retries 0 [EvJitter 1 3])
      as (c & m & (H1 & H2 & H3) & Hb).
    rewrite H1, H2, H3. unfold call_count, retry_msg_count, sleep_count.
    simpl. lia.
Qed.

(** X12. When the first [k] calls raise a server error and call [k] (still
    within the budget) returns a text, [process_prompt_with_retry] of
    [ai_explain.py] and of [ai_yes_no.py] returns that text after exactly
    [k + 1] calls and [k] retry messages. *)
Theorem retry_returns_first_success (api : remote) (prompt : pystr)
    (retries : nat) (delay : N) (k : nat) (text : option pystr) :
  (k < retries)%nat ->
  server_errors_before api prompt k ->
  api prompt k = ApiText text ->
  (let run := AiExplain.process_prompt_with_retry api prompt retries delay in
   fst run = Returns text
   /\ call_count (snd run) = S k /\ retry_msg_count (snd run) = k)
  /\
  (let run := AiYesNo.process_prompt_with_retry api prompt retries delay in
   fst run = Returns text
   /\ call_count (snd run) = S k /\ retry_msg_count (snd run) = k).
Proof.
  intros Hk Herr Hok. split; cbv zeta.
  - destruct (explain_process_after_errors api prompt retries delay k
                ltac:(lia) Herr) as (tr' & -> & Ha).
    apply adds_from_jitter in Ha as [H1 H2].
    destruct (retries - k)%nat as [|n] eqn:E; [lia |].
    cbn [AiExplain.retry_loop]. rewrite Hok. cbn [fst snd].
    rewrite call_count_app, retry_msg_count_app, H1, H2.
    unfold call_count, retry_msg_count. simpl. repeat split; lia.
  - destruct (yes_no_process_after_errors api prompt retries delay k
                ltac:(lia) Herr) as (tr' & -> & Ha).
    apply adds_from_jitter in Ha as [H1 H2].
    destruct (retries - k)%nat as [|n] eqn:E; [lia |].
    cbn [AiYesNo.retry_loop]. rewrite Hok. cbn [fst snd].
    rewrite call_count_app, retry_msg_count_app, H1, H2.
    unfold call_count, retry_msg_count. simpl. repeat split; lia.
Qed.

Lemma retry_returns_first_success_witness :
  let api : remote :=
    fun _ j => if (j <? 2)%nat then ApiServerError (py "503")
               else ApiText (Some (py "对")) in
  (2 < 3)%nat /\ server_errors_before api (py "p") 2
  /\ api (py "p") 2%nat = ApiText (Some (py "对"))
  /\ fst (AiExplain.process_prompt_with_retry api (py "p") 3 5)
     = Returns (Some (py "对")).
Proof.
  intros api.
  assert (H1 : (2 < 3)%nat) by lia.
  assert (H2 : server_errors_before api (py "p") 2).
  { intros j Hj. exists (py "503"). unfold api.
    destruct j as [|[|j]]; [reflexivity | reflexivity | lia]. }
  assert (H3 : api (py "p") 2%nat = ApiText (Some (py "对"))) by reflexivity.
  repeat (split; [assumption |]).
  exact (proj1 (proj1 (retry_returns_first_success api (py "p") 3 5 2 _ H1 H2 H3))).
Defined.

(** X13. An error of the call that is no server error is not retried by
    [ai_explain.py] and [ai_yes_no.py]: when it occurs at call [k] after
    [k] server errors, [process_prompt_with_retry] raises it at once, after
    [k + 1] calls. *)
Theorem retry_propagates_other_errors (api : remote) (prompt : pystr)
    (retries : nat) (delay : N) (k : nat) (e : pystr) :
  (k < retries)%nat ->
  server_errors_before api prompt k ->
  api prompt k = ApiOtherError e ->
  (let run := AiExplain.process_prompt_with_retry api prompt retries delay in
   fst run = Raises (OtherException e) /\ call_count (snd run) = S k)
  /\
  (let run := AiYesNo.process_prompt_with_retry api prompt retries delay in
   fst run = Raises (OtherException e) /\ call_count (snd run) = S k).
Proof.
  intros Hk Herr Hbad. split; cbv zeta.
  - destruct (explain_process_after_errors api prompt retries delay k
                ltac:(lia) Herr) as (tr' & -> & Ha).
    apply adds_from_jitter in Ha as [H1 _].
    destruct (retries - k)%nat as [|n] eqn:E; [lia |].
    cbn [AiExplain.retry_loop]. rewrite Hbad. cbn [fst snd].
    rewrite call_count_app, H1. unfold call_count. simpl.
    split; [reflexivity | lia].
  - destruct (yes_no_process_after_errors api prompt retries delay k
                ltac:(lia) Herr) as (tr' & -> & Ha).
    apply adds_from_jitter in Ha as [H1 _].
    destruct (retries - k)%nat as [|n] eqn:E; [lia |].
    cbn [AiYesNo.retry_loop]. rewrite Hbad. cbn [fst snd].
    rewrite call_count_app, H1. unfold call_count. simpl.
    split; [reflexivity | lia].
Qed.

Lemma retry_propagates_other_errors_witness :
  let api : remote :=
    fun _ j => if (j <? 1)%nat then ApiServerError (py "503")
               else ApiOtherError (py "401") in
  (1 < 3)%nat /\ server_errors_before api (py "p") 1
  /\ api (py "p") 1%nat = ApiOtherError (py "401")
  /\ fst (AiYesNo.process_prompt_with_retry api (py "p") 3 5)
     = Raises (OtherException (py "401")).
Proof.
  intros api.
  assert (H1 : (1 < 3)%nat) by lia.
  assert (H2 : server_errors_before api (py "p") 1).
  { intros j Hj. exists (py "503"). unfold api.
    destruct j as [|j]; [reflexivity | lia]. }
  assert (H3 : api (py "p") 1%nat = ApiOtherError (py "401")) by reflexivity.
  repeat (split; [assumption |]).
  exact (proj1 (proj2 (retry_propagates_other_errors api (py "p") 3 5 1 _ H1 H2 H3))).
Defined.

(** X14. [process_prompt_with_retry] of [ai_match.py] retries on every
    kind of error and never raises: when all [retries] calls fail, in
    whichever way, it returns [None] after exactly [retries] calls and
    [retries] retry messages. *)
Theorem match_retry_swallows_every_error (api : remote) (prompt : pystr)
    (retries : nat) (delay : N) :
  (exists v,
     fst (AiMatch.process_prompt_with_retry api prompt retries delay) = Returns v)
  /\ (failures_before api prompt retries ->
      let run := AiMatch.process_prompt_with_retry api prompt retries delay in
      fst run = Returns None
      /\ call_count (snd run) = retries
      /\ retry_msg_count (snd run) = retries).
Proof.
  unfold AiMatch.process_prompt_with_retry. split.
  - apply match_loop_returns.
  - intros H. cbv zeta.
    fold (AiMatch.process_prompt_with_retry api prompt retries delay).
    destruct (match_process_after_failures api prompt retries delay retries
                ltac:(lia) H) as (tr' & -> & Ha).
    apply adds_from_jitter in Ha as [H1 H2].
    rewrite Nat.sub_diag. cbn [AiMatch.retry_loop fst snd].
    rewrite call_count_app, retry_msg_count_app, H1, H2.
    unfold call_count, retry_msg_count. simpl. repeat split; lia.
Qed.

Lemma match_retry_swallows_every_error_witness :
  let api : remote := fun _ _ => ApiOtherError (py "401") in
  failures_before api (py "p") 3
  /\ fst (AiMatch.process_prompt_with_retry api (py "p") 3 5) = Returns None
  /\ call_count (snd (AiMatch.process_prompt_with_retry api (py "p") 3 5)) = 3%nat.
Proof.
  intros api.
  assert (H : failures_before api (py "p") 3).
  { intros j _ text. discriminate. }
  split; [exact H |].
  destruct (proj2 (match_retry_swallows_every_error api (py "p") 3 5) H)
    as (H1 & H2 & _).
  split; [exact H1 | exact H2].
Defined.

Section ExplainCsvFacts.

Lemma pystr_eqb_eq (a b : pystr) : pystr_eqb a b = true <-> a = b.
Proof.
  revert b. induction a as [|x a IH]; intros [|y b]; simpl;
    try (split; [discriminate | congruence]); [split; reflexivity |].
  rewrite andb_true_iff, N.eqb_eq, IH. split; [intros [-> ->] | intros H; inversion H]; auto.
Qed.

Lemma index_of_lookup (x : pystr) (l : list pystr) (j : nat) :
  index_of x l = Some j -> l !! j = Some x.
Proof.
  revert j. induction l as [|y l IH]; intros j; simpl; [discriminate |].
  destruct (pystr_eqb y x) eqn:E.
  - intros H. inversion H; subst. apply pystr_eqb_eq in E. subst. reflexivity.
  - destruct (index_of x l) as [k|]; [| discriminate].
    intros H. inversion H; subst. simpl. exact (IH k eq_refl).
Qed.

Lemma index_of_app_l (x : pystr) (l t : list pystr) (j : nat) :
  index_of x l = Some j -> index_of x (l ++ t) = Some j.
Proof.
  revert j. induction l as [|y l IH]; intros j; simpl; [discriminate |].
  destruct (pystr_eqb y x); [trivial |].
  destruct (index_of x l) as [k|]; [| discriminate].
  intros H. rewrite (IH k eq_refl). exact H.
Qed.

Lemma index_of_snoc (x : pystr) (l : list pystr) :
  exists j, index_of x (l ++ [x]) = Some j.
Proof.
  induction l as [|y l [j IH]]; simpl.
  - assert (E : pystr_eqb x x = true) by (apply pystr_eqb_eq; reflexivity).
    rewrite E. eauto.
  - destruct (pystr_eqb y x); [eauto |]. rewrite IH. simpl. eauto.
Qed.

Lemma str_in_index_of (x : pystr) (l : list pystr) :
  str_in x l = true -> exists j, index_of x l = Some j.
Proof.
  unfold str_in. induction l as [|y l IH]; simpl; [discriminate |].
  destruct (pystr_eqb y x) eqn:E; [eauto |].
  destruct (pystr_eqb x y) eqn:E'.
  - apply pystr_eqb_eq in E'. subst.
    assert (pystr_eqb y y = true) by (apply pystr_eqb_eq; reflexivity). congruence.
  - simpl. intros H. destruct (IH H) as [j ->]. simpl. eauto.
Qed.

Lemma ensure_column_index (name : pystr) (header : row) :
  exists j, index_of name (AiExplain.ensure_column name header) = Some j.
Proof.
  unfold AiExplain.ensure_column. destruct (str_in name header) eqn:E.
  - exact (str_in_index_of _ _ E).
  - apply index_of_snoc.
Qed.

Lemma ensure_column_extends (name : pystr) (header : row) :
  exists added, AiExplain.ensure_column name header = header ++ added.
Proof.
  unfold AiExplain.ensure_column. destruct (str_in name header).
  - exists []. symmetry. apply app_nil_r.
  - eauto.
Qed.

Lemma explain_header_columns (header : row) :
  exists jc ec,
    index_of (py "ai判断") (explain_header header) = Some jc
    /\ index_of (py "ai理解") (explain_header header) = Some ec
    /\ jc <> ec.
Proof.
  unfold explain_header.
  destruct (ensure_column_index (py "ai判断") header) as [jc Hj].
  destruct (ensure_column_extends (py "ai理解")
              (AiExplain.ensure_column (py "ai判断") header)) as [added Ha].
  destruct (ensure_column_index (py "ai理解")
              (AiExplain.ensure_column (py "ai判断") header)) as [ec He].
  exists jc, ec. rewrite Ha in *. rewrite (index_of_app_l _ _ added _ Hj).
  split; [reflexivity |]. split; [exact He |].
  intros ->. apply index_of_lookup in He.
  pose proof (index_of_lookup _ _ _ (index_of_app_l _ _ added _ Hj)) as Hj'.
  rewrite He in Hj'. vm_compute in Hj'. discriminate.
Qed.

Lemma write_cells_written_row (header : row) (data_rows : list row)
    (row_index : nat) (r : row) (text : pystr) :
  data_rows !! row_index = Some r ->
  AiExplain.write_cells (explain_header header) data_rows row_index
    (option_map fst (AiExplain.split_result_lines text))
    (option_map snd (AiExplain.split_result_lines text))
  = Returns (<[row_index := written_row (explain_header header) r text]> data_rows).
Proof.
  intros Hr. destruct (explain_header_columns header) as (jc & ec & Hj & He & _).
  rewrite (explain_write_cells_in_range _ _ _ jc ec r _ _ Hr Hj He).
  unfold written_row. rewrite Hj, He. reflexivity.
Qed.

Lemma result_for_before (offset i : nat) (results : list (option pystr)) (k : nat) :
  (k < offset + i)%nat ->
  result_for (offset + i) results k = None.
Proof.
  intros H. unfold result_for.
  destruct (Nat.leb_spec (offset + i) k); [lia | reflexivity].
Qed.

Lemma write_results_spec (header : row) (offset : nat)
    (results : list (option pystr)) :
  forall (i : nat) (data : list row),
    (results = [] \/ offset + i + length results <= length data)%nat ->
    exists data',
      AiExplain.write_results (explain_header header) data offset i results
      = Returns data'
      /\ length data' = length data
      /\ forall k r, data !! k = Some r ->
           data' !! k
           = Some (match result_for (offset + i) results k with
                   | Some text => written_row (explain_header header) r text
                   | None => r
                   end).
Proof.
  induction results as [|result rest IH]; intros i data Hlen.
  - exists data. split; [reflexivity |]. split; [reflexivity |].
    intros k r Hk. unfold result_for.
    destruct (offset + i <=? k)%nat; [rewrite lookup_nil |]; exact Hk.
  - destruct Hlen as [Hlen | Hlen]; [discriminate |]. simpl length in Hlen.
    cbn [AiExplain.write_results].
    set (step := match result with
                 | Some text =>
                     if truthy text
                     then AiExplain.write_cells (explain_header header) data
                            (offset + i)
                            (option_map fst (AiExplain.split_result_lines text))
                            (option_map snd (AiExplain.split_result_lines text))
                     else Returns data
                 | None => Returns data
                 end).
    assert (Hstep : exists data1,
      step = Returns data1 /\ length data1 = length data
      /\ forall k r, data !! k = Some r ->
           data1 !! k
           = Some (if (k =? offset + i)%nat then
                     match result with
                     | Some text =>
                         if truthy text
                         then written_row (explain_header header) r text else r
                     | None => r
                     end
                   else r)).
    { destruct (lookup_lt_is_Some_2 data (offset + i)%nat ltac:(lia)) as [r0 Hr0].
      unfold step. destruct result as [text|].
      - destruct (truthy text).
        + rewrite (write_cells_written_row header data _ r0 text Hr0).
          eexists. split; [reflexivity |]. split; [apply length_insert |].
          intros k r Hk. destruct (Nat.eqb_spec k (offset + i)) as [-> | Hne].
          * rewrite list_lookup_insert_eq by lia. congruence.
          * rewrite list_lookup_insert_ne by congruence. exact Hk.
        + exists data. split; [reflexivity |]. split; [reflexivity |].
          intros k r Hk. rewrite Hk. destruct (k =? offset + i)%nat; reflexivity.
      - exists data. split; [reflexivity |]. split; [reflexivity |].
        intros k r Hk. rewrite Hk. destruct (k =? offset + i)%nat; reflexivity. }
    destruct Hstep as (data1 & -> & Hlen1 & Hrows1). cbn [bind].
    destruct (IH (S i) data1) as (data' & Hrun & Hlen' & Hrows').
    { right. rewrite Hlen1. lia. }
    exists data'. split; [exact Hrun |]. split; [lia |].
    intros k r Hk. rewrite (Hrows' k _ (Hrows1 k r Hk)). f_equal.
    replace (offset + S i)%nat with (S (offset + i)) by lia.
    unfold result_for.
    destruct (Nat.eqb_spec k (offset + i)) as [-> | Hne].
    + destruct (Nat.leb_spec (S (offset + i)) (offset + i)); [lia |].
      rewrite Nat.leb_refl, Nat.sub_diag. cbn [lookup list_lookup].
      destruct result as [text|]; [destruct (truthy text) |]; reflexivity.
    + destruct (Nat.leb_spec (S (offset + i)) k) as [Hle | Hgt].
      * destruct (Nat.leb_spec (offset + i) k); [| lia].
        replace (k - (offset + i))%nat with (S (k - S (offset + i))) by lia.
        reflexivity.
      * destruct (Nat.leb_spec (offset + i) k); [lia | reflexivity].
Qed.

End ExplainCsvFacts.

Section ExplainCsvWrite.

Lemma explain_header_extends (header : row) :
  exists added, explain_header header = header ++ added.
Proof.
  unfold explain_header.
  destruct (ensure_column_extends (py "ai判断") header) as [a1 ->].
  destruct (ensure_column_extends (py "ai理解") (header ++ a1)) as [a2 ->].
  exists (a1 ++ a2). symmetry. apply app_assoc.
Qed.

Lemma write_results_to_csv_spec (header : row) (data : list row)
    (results : list (option pystr)) (offset : nat) :
  (results = [] \/ offset + length results <= length data)%nat ->
  exists data',
    AiExplain.write_results_to_csv (header :: data) results offset
    = Returns (explain_header header :: data')
    /\ length data' = length data
    /\ forall k r, data !! k = Some r ->
         data' !! k
         = Some (match result_for offset results k with
                 | Some text => written_row (explain_header header) r text
                 | None => r
                 end).
Proof.
  intros Hlen.
  destruct (write_results_spec header offset results 0 data) as (data' & Hrun & Hl & Hrows).
  { destruct Hlen as [-> | Hlen]; [left; reflexivity | right; lia]. }
  exists data'. unfold AiExplain.write_results_to_csv.
  fold (explain_header header). rewrite Hrun. split; [reflexivity |].
  split; [exact Hl |]. intros k r Hk. rewrite (Hrows k r Hk).
  rewrite Nat.add_0_r. reflexivity.
Qed.

Lemma written_row_cells (header r : row) (text : pystr) (jc ec : nat) :
  index_of (py "ai判断") (explain_header header) = Some jc ->
  index_of (py "ai理解") (explain_header header) = Some ec ->
  jc <> ec ->
  let R := written_row (explain_header header) r text in
  let parsed := AiExplain.split_result_lines text in
  R !! jc = Some (AiExplain.or_empty (option_map fst parsed))
  /\ R !! ec = Some (AiExplain.or_empty (option_map snd parsed))
  /\ length R = Nat.max (length r) (length (explain_header header))
  /\ (forall c, c <> jc -> c <> ec -> (c < length r)%nat -> R !! c = r !! c)
  /\ (forall c, c <> jc -> c <> ec ->
        (length r <= c < length (explain_header header))%nat -> R !! c = Some []).
Proof.
  intros Hj He Hne R parsed. unfold R, written_row. rewrite Hj, He.
  cbn [default from_option]. unfold id. fold parsed.
  pose proof (index_of_lt _ _ _ Hj) as Hjc.
  pose proof (index_of_lt _ _ _ He) as Hec.
  set (H := explain_header header) in *.
  assert (Hpad : length (AiExplain.pad_row (length H) r)
                 = Nat.max (length r) (length H)).
  { unfold AiExplain.pad_row. rewrite length_app, length_replicate. lia. }
  split; [| split; [| split; [| split]]].
  - rewrite list_lookup_insert_ne by lia.
    apply list_lookup_insert_eq. rewrite Hpad. lia.
  - apply list_lookup_insert_eq. rewrite length_insert, Hpad. lia.
  - rewrite !length_insert. exact Hpad.
  - intros c Hc1 Hc2 Hlt. rewrite !list_lookup_insert_ne by lia.
    unfold AiExplain.pad_row. apply lookup_app_l. exact Hlt.
  - intros c Hc1 Hc2 Hlt. rewrite !list_lookup_insert_ne by lia.
    unfold AiExplain.pad_row. rewrite lookup_app_r by lia.
    apply lookup_replicate_2. lia.
Qed.

End ExplainCsvWrite.

(** X15. When the table has a data row for every position of the batch,
    [write_results_to_csv] of [ai_explain.py] does not raise: it returns
    the header with the two result columns (appended when missing, the
    given cells kept in place), as many data rows as before, and every
    data row that receives no non-empty result is unchanged. *)
Theorem explain_csv_write_in_range (header : row) (data : list row)
    (results : list (option pystr)) (offset : nat) :
  (offset + length results <= length data)%nat ->
  exists data',
    AiExplain.write_results_to_csv (header :: data) results offset
    = Returns (explain_header header :: data')
    /\ (exists added, explain_header header = header ++ added)
    /\ length data' = length data
    /\ forall k, result_for offset results k = None -> data' !! k = data !! k.
Proof.
  intros Hlen.
  destruct (write_results_to_csv_spec header data results offset (or_intror Hlen))
    as (data' & Hrun & Hl & Hrows).
  exists data'. split; [exact Hrun |]. split; [apply explain_header_extends |].
  split; [exact Hl |]. intros k Hk.
  destruct (data !! k) as [r|] eqn:E.
  - rewrite (Hrows k r E), Hk. reflexivity.
  - apply lookup_ge_None. apply lookup_ge_None in E. lia.
Qed.

Lemma explain_csv_write_in_range_witness :
  (1 + length [Some (py "对"); None] <= length [[py "a"]; [py "b"]; [py "c"; py "x"]])%nat
  /\ AiExplain.write_results_to_csv
       [[py "原句"]; [py "a"]; [py "b"]; [py "c"; py "x"]]
       [Some (py "对"); None] 1
     = Returns [[py "原句"; py "ai判断"; py "ai理解"];
                [py "a"]; [py "b"; py "对"; []]; [py "c"; py "x"]].
Proof.
  assert (H : (1 + length [Some (py "对"); None]
               <= length [[py "a"]; [py "b"]; [py "c"; py "x"]])%nat)
    by (simpl; lia).
  split; [exact H |].
  destruct (explain_csv_write_in_range [py "原句"]
              [[py "a"]; [py "b"]; [py "c"; py "x"]] [Some (py "对"); None] 1 H)
    as (data' & Hrun & _).
  reflexivity.
Defined.

(** X16. A non-empty result that [write_results_to_csv] of
    [ai_explain.py] stores in an existing data row leaves the parsed
    judgment and explanation in the two result columns, pads the row with
    empty cells up to the header's width, and changes no other cell of
    the row. *)
Theorem explain_csv_write_cells (header : row) (data : list row)
    (results : list (option pystr)) (offset k : nat) (r : row) (text : pystr)
    (csv' : table) :
  (offset + length results <= length data)%nat ->
  data !! k = Some r ->
  result_for offset results k = Some text ->
  AiExplain.write_results_to_csv (header :: data) results offset = Returns csv' ->
  exists (R : row) (jc ec : nat),
    csv' !! S k = Some R
    /\ index_of (py "ai判断") (explain_header header) = Some jc
    /\ index_of (py "ai理解") (explain_header header) = Some ec
    /\ R !! jc = Some (AiExplain.or_empty
                         (option_map fst (AiExplain.split_result_lines text)))
    /\ R !! ec = Some (AiExplain.or_empty
                         (option_map snd (AiExplain.split_result_lines text)))
    /\ length R = Nat.max (length r) (length (explain_header header))
    /\ (forall c, c <> jc -> c <> ec -> (c < length r)%nat -> R !! c = r !! c)
    /\ (forall c, c <> jc -> c <> ec ->
          (length r <= c < length (explain_header header))%nat ->
          R !! c = Some []).
Proof.
  intros Hlen Hr Hres Hrun.
  destruct (write_results_to_csv_spec header data results offset (or_intror Hlen))
    as (data' & Hrun' & _ & Hrows).
  rewrite Hrun' in Hrun. inversion Hrun; subst csv'. clear Hrun.
  destruct (explain_header_columns header) as (jc & ec & Hj & He & Hne).
  exists (written_row (explain_header header) r text), jc, ec.
  split.
  { change (data' !! k = Some (written_row (explain_header header) r text)).
    rewrite (Hrows k r Hr), Hres. reflexivity. }
  split; [exact Hj |]. split; [exact He |].
  exact (written_row_cells header r text jc ec Hj He Hne).
Qed.

Lemma explain_csv_write_cells_witness :
  let data := [[py "a"]; [py "b"]; [py "c"; py "x"]] in
  let results := [Some (py "对" ++ [LF] ++ py "解释"); None] in
  let csv' := [[py "原句"; py "ai判断"; py "ai理解"];
               [py "a"]; [py "b"; py "对"; py "解释"]; [py "c"; py "x"]] in
  (1 + length results <= length data)%nat
  /\ data !! 1%nat = Some [py "b"]
  /\ result_for 1 results 1 = Some (py "对" ++ [LF] ++ py "解释")
  /\ AiExplain.write_results_to_csv ([py "原句"] :: data) results 1 = Returns csv'
  /\ exists R : row, csv' !! 2%nat = Some R /\ length R = 3%nat.
Proof.
  intros data results csv'.
  assert (H1 : (1 + length results <= length data)%nat) by (simpl; lia).
  assert (H2 : data !! 1%nat = Some [py "b"]) by reflexivity.
  assert (H3 : result_for 1 results 1 = Some (py "对" ++ [LF] ++ py "解释"))
    by reflexivity.
  assert (H4 : AiExplain.write_results_to_csv ([py "原句"] :: data) results 1
               = Returns csv') by reflexivity.
  repeat (split; [assumption |]).
  destruct (explain_csv_write_cells [py "原句"] data results 1 1 [py "b"] _ csv'
              H1 H2 H3 H4) as (R & jc & ec & HR & _ & _ & _ & _ & Hlen & _).
  exists R. split; [exact HR | exact Hlen].
Defined.

Section BatchWriteFacts.

Lemma batch_length (l : list (N * pystr)) (current_index : nat) :
  length (firstn AiExplain.batch_size (skipn current_index l))
  = Nat.min AiExplain.batch_size (length l - current_index).
Proof. rewrite length_firstn, length_skipn. reflexivity. Qed.

Lemma batch_lookup (l : list (N * pystr)) (current_index p : nat)
    (x : N * pystr) :
  firstn AiExplain.batch_size (skipn current_index l) !! p = Some x ->
  l !! (current_index + p)%nat = Some x /\ (p < AiExplain.batch_size)%nat.
Proof.
  intros H. destruct (Nat.lt_ge_cases p AiExplain.batch_size) as [Hp | Hp].
  - change firstn with (@take (N * pystr)) in H.
    change skipn with (@drop (N * pystr)) in H.
    rewrite lookup_take_lt in H by exact Hp. rewrite lookup_drop in H.
    split; [exact H | exact Hp].
  - apply lookup_lt_Some in H. rewrite length_firstn in H. lia.
Qed.

End BatchWriteFacts.

(** X17. The batch write of [main] in [ai_explain.py] cannot run out of
    rows on the file that was loaded: as long as the CSV keeps the number
    of rows it had at loading time, [write_results_to_csv] called with
    the results of any batch and that batch's offset returns, and returns
    a table with the same number of rows. *)
Theorem batch_write_never_raises (t csv : table) (current_index : nat)
    (results : list (option pystr)) :
  csv <> [] ->
  length (tl csv) = length (tl t) ->
  length results
  = length (firstn AiExplain.batch_size
              (skipn current_index (AiExplain.load_sentences_from_csv t))) ->
  exists csv',
    AiExplain.write_results_to_csv csv results current_index = Returns csv'
    /\ length csv' = length csv.
Proof.
  intros Hne Hrows Hres. destruct csv as [|header data]; [congruence |].
  cbn [tl] in Hrows. rewrite batch_length in Hres.
  pose proof (load_rows_length 1 (tl t)) as Hload.
  fold (AiExplain.load_sentences_from_csv t) in Hload.
  destruct (write_results_to_csv_spec header data results current_index)
    as (data' & Hrun & Hlen & _).
  { destruct results as [|x results]; [left; reflexivity | right].
    simpl length in *. lia. }
  exists (explain_header header :: data'). split; [exact Hrun |].
  simpl. rewrite Hlen. reflexivity.
Qed.

Lemma batch_write_never_raises_witness :
  let t := [[py "原句"]; [py "天气很好。"]; [py ""]; [py "明天."]] in
  t <> []
  /\ length (tl t) = length (tl t)
  /\ length [Some (py "对"); None]
     = length (firstn AiExplain.batch_size
                 (skipn 0 (AiExplain.load_sentences_from_csv t)))
  /\ exists csv',
       AiExplain.write_results_to_csv t [Some (py "对"); None] 0 = Returns csv'
       /\ length csv' = length t.
Proof.
  intros t.
  assert (H1 : t <> []) by discriminate.
  assert (H2 : length (tl t) = length (tl t)) by reflexivity.
  assert (H3 : length [Some (py "对"); None]
     = length (firstn AiExplain.batch_size
                 (skipn 0 (AiExplain.load_sentences_from_csv t)))) by reflexivity.
  repeat (split; [assumption |]).
  exact (batch_write_never_raises t t 0 _ H1 H2 H3).
Defined.

(** X18. When the loader skips no row, the batch write of [main] in
    [ai_explain.py] is aligned: the non-empty result of the sentence with
    index [idx] is stored in data row [idx - 1] of the table, whatever
    batch the sentence belongs to. *)
Theorem batch_write_aligned_without_skipped_rows
    (header : row) (data : list row) (current_index p : nat)
    (results : list (option pystr)) (idx : N) (s text : pystr) :
  Forall kept_row data ->
  let batch :=
    firstn AiExplain.batch_size
      (skipn current_index (AiExplain.load_sentences_from_csv (header :: data))) in
  length results = length batch ->
  batch !! p = Some (idx, s) ->
  results !! p = Some (Some text) ->
  truthy text = true ->
  exists csv' r,
    AiExplain.write_results_to_csv (header :: data) results current_index
    = Returns csv'
    /\ data !! (N.to_nat idx - 1)%nat = Some r
    /\ csv' !! N.to_nat idx = Some (written_row (explain_header header) r text).
Proof.
  intros Hkept batch Hlen Hp Hres Htext.
  pose proof (lookup_lt_Some _ _ _ Hp) as Hpb.
  unfold batch in Hlen, Hpb. rewrite batch_length in Hlen, Hpb.
  apply batch_lookup in Hp as [Hp _].
  assert (Hidx : idx = N.of_nat (S (current_index + p))).
  { pose proof (load_rows_all_kept 1 data Hkept) as Hmap.
    apply (f_equal (fun l => l !! (current_index + p)%nat)) in Hmap.
    unfold AiExplain.load_sentences_from_csv in Hp. cbn [tl] in Hp.
    rewrite list_lookup_fmap, Hp in Hmap. cbn [fmap option_fmap option_map fst] in Hmap.
    destruct (lookup_lt_is_Some_2 (seq 0 (length data)) (current_index + p)%nat)
      as [j Hj].
    { rewrite length_seq.
      pose proof (load_rows_length 1 data) as Hl.
      apply lookup_lt_Some in Hp. lia. }
    rewrite list_lookup_fmap, Hj in Hmap. cbn in Hmap.
    apply lookup_seq in Hj as [-> _]. inversion Hmap. lia. }
  pose proof (load_rows_length 1 data) as Hload.
  unfold AiExplain.load_sentences_from_csv in Hlen, Hpb. cbn [tl] in Hlen, Hpb.
  destruct (write_results_to_csv_spec header data results current_index)
    as (data' & Hrun & _ & Hrows).
  { right. lia. }
  destruct (lookup_lt_is_Some_2 data (current_index + p)%nat ltac:(lia)) as [r Hr].
  exists (explain_header header :: data'), r. split; [exact Hrun |].
  subst idx. rewrite Nat2N.id.
  replace (S (current_index + p) - 1)%nat with (current_index + p)%nat by lia.
  split; [exact Hr |].
  change (data' !! (current_index + p)%nat
          = Some (written_row (explain_header header) r text)).
  rewrite (Hrows _ r Hr). unfold result_for.
  destruct (Nat.leb_spec current_index (current_index + p)); [| lia].
  replace (current_index + p - current_index)%nat with p by lia.
  rewrite Hres, Htext. reflexivity.
Qed.

Lemma batch_write_aligned_without_skipped_rows_witness :
  let data := [[py "天气很好。"]; [py "明天."]] in
  let results := [Some (py "对"); Some (py "错")] in
  Forall kept_row data
  /\ exists csv',
       AiExplain.write_results_to_csv ([py "原句"] :: data) results 0 = Returns csv'
       /\ csv' !! 2%nat
          = Some (written_row (explain_header [py "原句"]) [py "明天."] (py "错")).
Proof.
  intros data results.
  assert (H : Forall kept_row data).
  { repeat constructor; eexists _, _; (split; [reflexivity | vm_compute; discriminate]). }
  split; [exact H |].
  destruct (batch_write_aligned_without_skipped_rows [py "原句"] data 0 1 results
              2 (py "明天.") (py "错") H eq_refl eq_refl eq_refl eq_refl)
    as (csv' & r & Hrun & Hr & Hrow).
  exists csv'. split; [exact Hrun |].
  inversion Hr; subst r. exact Hrow.
Defined.

Section YesNoCsvFacts.

Lemma yes_no_write_result_length (rows : table) (x : N * pystr * pystr) :
  length (AiYesNo.write_result rows x) = Nat.max (length rows) (S (target x)).
Proof.
  destruct x as [[idx s] res]. unfold AiYesNo.write_result, AiYesNo.grow_rows, target.
  cbn [fst]. set (i := N.to_nat idx).
  set (grown := rows ++ replicate (S i - length rows)
                          (replicate (length (hd [] rows)) [])).
  assert (Hlen : length grown = Nat.max (length rows) (S i)).
  { unfold grown. rewrite length_app, length_replicate. lia. }
  destruct (grown !! i); [rewrite length_insert |]; exact Hlen.
Qed.

Lemma yes_no_write_result_other (rows : table) (x : N * pystr * pystr) (k : nat) :
  k <> target x -> (k < length rows)%nat ->
  AiYesNo.write_result rows x !! k = rows !! k.
Proof.
  destruct x as [[idx s] res]. unfold AiYesNo.write_result, AiYesNo.grow_rows, target.
  cbn [fst]. set (i := N.to_nat idx). intros Hne Hk.
  set (grown := rows ++ replicate (S i - length rows)
                          (replicate (length (hd [] rows)) [])).
  assert (Hg : grown !! k = rows !! k) by (apply lookup_app_l; exact Hk).
  destruct (grown !! i); [rewrite list_lookup_insert_ne by lia |]; exact Hg.
Qed.

Lemma yes_no_write_result_same (rows : table) (idx : N) (s res : pystr) (r : row) :
  rows !! N.to_nat idx = Some r ->
  AiYesNo.write_result rows (idx, s, res) !! N.to_nat idx
  = Some (s :: res :: drop 2 r).
Proof.
  intros Hr. unfold AiYesNo.write_result, AiYesNo.grow_rows.
  set (i := N.to_nat idx) in *.
  pose proof (lookup_lt_Some _ _ _ Hr) as Hlt.
  replace (S i - length rows)%nat with 0%nat by lia.
  cbn [replicate]. rewrite app_nil_r, Hr.
  rewrite list_lookup_insert_eq by exact Hlt. f_equal.
  destruct r as [|c0 [|c1 rest]]; try reflexivity.
  simpl. rewrite app_nil_r. reflexivity.
Qed.

Lemma yes_no_fold_length (results : list (N * pystr * pystr)) (rows : table) :
  (length rows <= length (fold_left AiYesNo.write_result results rows))%nat.
Proof.
  revert rows. induction results as [|x results IH]; intros rows; simpl; [lia |].
  specialize (IH (AiYesNo.write_result rows x)).
  rewrite yes_no_write_result_length in IH. lia.
Qed.

Lemma yes_no_fold_untouched (results : list (N * pystr * pystr)) (rows : table)
    (k : nat) :
  (k < length rows)%nat ->
  (forall x, In x results -> target x <> k) ->
  fold_left AiYesNo.write_result results rows !! k = rows !! k.
Proof.
  revert rows. induction results as [|x results IH]; intros rows Hk Hun; simpl.
  - reflexivity.
  - rewrite IH.
    + apply yes_no_write_result_other; [| exact Hk].
      intros E. exact (Hun x (or_introl eq_refl) (eq_sym E)).
    + rewrite yes_no_write_result_length. lia.
    + intros y Hy. apply Hun. right. exact Hy.
Qed.

Lemma yes_no_fold_written (results : list (N * pystr * pystr)) (rows : table)
    (idx : N) (s res : pystr) :
  List.NoDup (map target results) ->
  In (idx, s, res) results ->
  exists rest,
    fold_left AiYesNo.write_result results rows !! N.to_nat idx
    = Some (s :: res :: rest)
    /\ forall r, rows !! N.to_nat idx = Some r -> rest = drop 2 r.
Proof.
  revert rows. induction results as [|x results IH]; intros rows Hnd Hin.
  - destruct Hin.
  - cbn [map] in Hnd. apply List.NoDup_cons_iff in Hnd as [Hx Hnd].
    cbn [fold_left]. destruct Hin as [-> | Hin].
    + destruct (yes_no_write_result_at_index rows idx s res) as [rest Hrest].
      exists rest. split.
      * rewrite yes_no_fold_untouched; [exact Hrest | |].
        -- rewrite yes_no_write_result_length. unfold target. cbn [fst]. lia.
        -- intros y Hy E. apply Hx.
           change (target (idx, s, res)) with (N.to_nat idx).
           rewrite <- E. apply in_map. exact Hy.
      * intros r Hr. rewrite (yes_no_write_result_same rows idx s res r Hr) in Hrest.
        inversion Hrest. reflexivity.
    + destruct (IH (AiYesNo.write_result rows x) Hnd Hin) as (rest & Hrest & Hdrop).
      exists rest. split; [exact Hrest |].
      intros r Hr. apply Hdrop.
      rewrite yes_no_write_result_other; [exact Hr | | exact (lookup_lt_Some _ _ _ Hr)].
      intros E. apply Hx. rewrite <- E.
      change (N.to_nat idx) with (target (idx, s, res)). apply in_map. exact Hin.
Qed.

Lemma yes_no_write_results_to_csv_start (csv : option table)
    (results : list (N * pystr * pystr)) :
  AiYesNo.write_results_to_csv csv results
  = fold_left AiYesNo.write_result results (yes_no_start csv).
Proof.
  unfold AiYesNo.write_results_to_csv, yes_no_start, yes_no_header.
  destruct csv as [[|header data]|]; try reflexivity.
  destruct (length header <? 2)%nat; reflexivity.
Qed.

End YesNoCsvFacts.

(** X19. [write_results_to_csv] of [ai_yes_no.py] never drops a row: the
    table it writes has at least the rows it started from, and every row
    that no result of the call is addressed to is written back
    unchanged. *)
Theorem yes_no_csv_keeps_other_rows (csv : option table)
    (results : list (N * pystr * pystr)) (k : nat) :
  (length (yes_no_start csv)
   <= length (AiYesNo.write_results_to_csv csv results))%nat
  /\ ((k < length (yes_no_start csv))%nat ->
      (forall x, In x results -> target x <> k) ->
      AiYesNo.write_results_to_csv csv results !! k = yes_no_start csv !! k).
Proof.
  rewrite yes_no_write_results_to_csv_start. split.
  - apply yes_no_fold_length.
  - apply yes_no_fold_untouched.
Qed.

Lemma yes_no_csv_keeps_other_rows_witness :
  let csv := Some [[py "原句"; py "AI理解"]; [py "a"; py "b"; py "c"]] in
  (1 < length (yes_no_start csv))%nat
  /\ (forall x, In x [(3, py "s", py "r")] -> target x <> 1%nat)
  /\ AiYesNo.write_results_to_csv csv [(3, py "s", py "r")] !! 1%nat
     = Some [py "a"; py "b"; py "c"].
Proof.
  intros csv.
  assert (H1 : (1 < length (yes_no_start csv))%nat) by (simpl; lia).
  assert (H2 : forall x, In x [(3, py "s", py "r")] -> target x <> 1%nat).
  { intros x [<- | []]. vm_compute. lia. }
  repeat (split; [assumption |]).
  exact (proj2 (yes_no_csv_keeps_other_rows csv [(3, py "s", py "r")] 1) H1 H2).
Defined.

(** X20. When the results of one call of [write_results_to_csv] of
    [ai_yes_no.py] are addressed to distinct rows, each of them is found
    afterwards in the row numbered by its index, sentence first and result
    second; a row that existed before keeps its cells from the third
    on. *)
Theorem yes_no_csv_rows_by_index (csv : option table)
    (results : list (N * pystr * pystr)) (idx : N) (s res : pystr) :
  List.NoDup (map target results) ->
  In (idx, s, res) results ->
  exists rest,
    AiYesNo.write_results_to_csv csv results !! N.to_nat idx
    = Some (s :: res :: rest)
    /\ forall r, yes_no_start csv !! N.to_nat idx = Some r -> rest = drop 2 r.
Proof.
  rewrite yes_no_write_results_to_csv_start. apply yes_no_fold_written.
Qed.

Lemma yes_no_csv_rows_by_index_witness :
  let csv := Some [[py "原句"; py "AI理解"]; [py "a"; py "b"; py "c"]] in
  let results := [(3, py "s3", py "r3"); (1, py "s1", py "r1")] in
  List.NoDup (map target results)
  /\ In (1, py "s1", py "r1") results
  /\ AiYesNo.write_results_to_csv csv results !! 1%nat
     = Some [py "s1"; py "r1"; py "c"].
Proof.
  intros csv results.
  assert (H1 : List.NoDup (map target results)).
  { repeat constructor; simpl; intuition discriminate. }
  assert (H2 : In (1, py "s1", py "r1") results) by (right; left; reflexivity).
  repeat (split; [assumption |]).
  destruct (yes_no_csv_rows_by_index csv results 1 (py "s1") (py "r1") H1 H2)
    as (rest & Hrow & Hrest).
  rewrite (Hrest [py "a"; py "b"; py "c"] eq_refl) in Hrow. exact Hrow.
Defined.

Section FailureLogFacts.

Lemma existsb_in_dec (x : N) (l : list N) :
  negb (existsb (N.eqb x) l) = if in_dec N.eq_dec x l then false else true.
Proof.
  destruct (in_dec N.eq_dec x l) as [H | H].
  - apply negb_false_iff, existsb_exists. exists x. split; [exact H |].
    apply N.eqb_refl.
  - apply negb_true_iff. destruct (existsb (N.eqb x) l) eqn:E; [| reflexivity].
    apply existsb_exists in E as (y & Hy & Exy). apply N.eqb_eq in Exy.
    subst. contradiction.
Qed.

Lemma update_failed_txt_log (f : file) (failed : list (N * pystr))
    (succeeded : list N) :
  AiYesNo.update_failed_txt f failed succeeded
  = Some (log_lines (still_failed failed succeeded)).
Proof.
  assert (Hf : List.filter
                 (fun fs : N * pystr => negb (existsb (N.eqb (fst fs)) succeeded))
                 failed
               = still_failed failed succeeded).
  { apply List.filter_ext. intros p. apply existsb_in_dec. }
  unfold AiYesNo.update_failed_txt, write_w. rewrite Hf. unfold log_lines.
  do 2 f_equal. apply map_ext. intros [idx s]. unfold AiExplain.failed_line.
  reflexivity.
Qed.

Lemma universal_newlines_app_lf (n : nat) :
  forall a b : pystr, (length a <= n)%nat ->
    universal_newlines (a ++ LF :: b)
    = universal_newlines (a ++ [LF]) ++ universal_newlines b
    /\ exists u, universal_newlines (a ++ [LF]) = u ++ [LF].
Proof.
  induction n as [|n IH]; intros a b Hlen.
  - destruct a; [| simpl in Hlen; lia]. split; [reflexivity | exists []; reflexivity].
  - destruct a as [|c a]; [split; [reflexivity | exists []; reflexivity] |].
    simpl in Hlen. cbn [app universal_newlines].
    destruct (c =? CR) eqn:Ec.
    + destruct a as [|c' a].
      * split; [reflexivity | exists []; reflexivity].
      * cbn [app]. destruct (c' =? LF) eqn:Ec'.
        -- destruct (IH a b ltac:(simpl in Hlen; lia)) as [-> [u ->]].
           split; [reflexivity | exists (LF :: u); reflexivity].
        -- destruct (IH (c' :: a) b ltac:(simpl in *; lia)) as [H [u Hu]].
           cbn [app] in H, Hu. rewrite H, Hu.
           split; [reflexivity | exists (LF :: u); reflexivity].
    + destruct (IH a b ltac:(lia)) as [-> [u ->]].
      split; [reflexivity | exists (c :: u); reflexivity].
Qed.

Lemma lines_of_app_lf (u v : pystr) :
  lines_of ((u ++ [LF]) ++ v) = lines_of (u ++ [LF]) ++ lines_of v.
Proof.
  induction u as [|c u IH]; [reflexivity |].
  cbn [app lines_of]. destruct (c =? LF).
  - cbn [app] in IH. rewrite IH. reflexivity.
  - cbn [app] in IH. rewrite IH.
    destruct (lines_of (u ++ [LF])) as [|l ls] eqn:E; [| reflexivity].
    exfalso. clear -E. destruct u as [|x u]; simpl in E; [discriminate |].
    destruct (x =? LF); [discriminate |].
    destruct (lines_of (u ++ [LF])); discriminate.
Qed.

Lemma read_lines_app (old new : pystr) :
  (old = [] \/ exists body, old = body ++ [LF]) ->
  read_lines (old ++ new) = read_lines old ++ read_lines new.
Proof.
  intros [-> | [body ->]]; [reflexivity |]. unfold read_lines.
  rewrite <- app_assoc. cbn [app].
  destruct (universal_newlines_app_lf (length body) body new (le_n _))
    as [-> [u ->]].
  apply lines_of_app_lf.
Qed.

End FailureLogFacts.

(** X21. After [update_failed_txt], the failure log reads back as the
    failed pairs whose index is not among the succeeded ones, in their
    order (for sentences that are non-empty, without line feed or carriage
    return and without whitespace at either end); what the file held
    before is gone. *)
Theorem update_failed_txt_round_trip (to_decimal : char -> option N)
    (f : file) (failed : list (N * pystr)) (succeeded : list N) :
  unicode_agrees_on_ascii to_decimal ->
  (forall idx s, In (idx, s) failed -> loggable_sentence s) ->
  AiYesNo.load_failed_sentences to_decimal
    (AiYesNo.update_failed_txt f failed succeeded)
  = still_failed failed succeeded.
Proof.
  intros Hdb H. rewrite update_failed_txt_log.
  apply (load_log_lines to_decimal (still_failed failed succeeded) Hdb).
  intros idx s Hin. apply (H idx s).
  unfold still_failed in Hin. apply filter_In in Hin as [Hin _]. exact Hin.
Qed.

Lemma update_failed_txt_round_trip_witness :
  let failed := [(2, py "明天."); (5, py "你好。")] in
  unicode_agrees_on_ascii Regex.ascii_decimal
  /\ (forall idx s, In (idx, s) failed -> loggable_sentence s)
  /\ AiYesNo.load_failed_sentences Regex.ascii_decimal
       (AiYesNo.update_failed_txt (Some (py "old")) failed [2])
     = [(5, py "你好。")].
Proof.
  intros failed.
  assert (Hdb : unicode_agrees_on_ascii Regex.ascii_decimal).
  { intros c _. reflexivity. }
  assert (H : forall idx s, In (idx, s) failed -> loggable_sentence s).
  { intros idx s [E | [E | []]]; inversion E; subst;
      (split; [discriminate |]);
      (split; [intros Hin; vm_compute in Hin; intuition discriminate |]);
      (split; [intros Hin; vm_compute in Hin; intuition discriminate |]);
      apply no_outer_space_intro; reflexivity. }
  split; [exact Hdb |]. split; [exact H |].
  exact (update_failed_txt_round_trip Regex.ascii_decimal (Some (py "old"))
           failed [2] Hdb H).
Defined.

(** X22. [write_results_to_txt] of [ai_yes_no.py] accumulates: on a log
    that is absent, empty or ends with a newline, what is read back after
    the call is what was read back before, followed by the pairs of the
    batch whose result is absent or empty. *)
Theorem failure_log_append_accumulates (to_decimal : char -> option N)
    (old : file) (indexed_sentences : list (N * pystr))
    (results : list (option pystr)) :
  unicode_agrees_on_ascii to_decimal ->
  ends_with_newline old ->
  (forall idx s, In (idx, s) indexed_sentences -> loggable_sentence s) ->
  AiYesNo.load_failed_sentences to_decimal
    (AiYesNo.write_results_to_txt indexed_sentences results old)
  = AiYesNo.load_failed_sentences to_decimal old
    ++ pairs_where is_absent_or_empty indexed_sentences results.
Proof.
  intros Hdb Hold H.
  set (new := pairs_where is_absent_or_empty indexed_sentences results).
  assert (Hnew : forall idx s, In (idx, s) new -> loggable_sentence s).
  { intros idx s Hin. apply (H idx s). unfold new, pairs_where in Hin.
    apply in_map_iff in Hin as ([p r] & E & Hin). cbn [fst] in E. subst p.
    apply filter_In in Hin as [Hin _]. exact (in_combine_l _ _ _ _ Hin). }
  destruct (load_log_lines to_decimal new Hdb Hnew) as [_ Hload].
  unfold AiYesNo.write_results_to_txt, write_a.
  rewrite yes_no_failed_output. fold new.
  destruct old as [text|].
  - unfold AiYesNo.load_failed_sentences in *.
    rewrite (read_lines_app text (log_lines new) Hold).
    rewrite map_app, concat_app, Hload. reflexivity.
  - rewrite Hload. reflexivity.
Qed.

Lemma failure_log_append_accumulates_witness :
  let old := Some (py "[1] 天气很好。" ++ [LF]) in
  unicode_agrees_on_ascii Regex.ascii_decimal
  /\ ends_with_newline old
  /\ (forall idx s, In (idx, s) [(2, py "明天.")] -> loggable_sentence s)
  /\ AiYesNo.load_failed_sentences Regex.ascii_decimal
       (AiYesNo.write_results_to_txt [(2, py "明天.")] [None] old)
     = [(1, py "天气很好。"); (2, py "明天.")].
Proof.
  intros old.
  assert (Hdb : unicode_agrees_on_ascii Regex.ascii_decimal).
  { intros c _. reflexivity. }
  assert (Hold : ends_with_newline old).
  { right. exists (py "[1] 天气很好。"). reflexivity. }
  assert (H : forall idx s, In (idx, s) [(2, py "明天.")] -> loggable_sentence s).
  { intros idx s [E | []]; inversion E; subst;
      (split; [discriminate |]);
      (split; [intros Hin; vm_compute in Hin; intuition discriminate |]);
      (split; [intros Hin; vm_compute in Hin; intuition discriminate |]);
      apply no_outer_space_intro; reflexivity. }
  repeat (split; [assumption |]).
  exact (failure_log_append_accumulates Regex.ascii_decimal old
           [(2, py "明天.")] [None] Hdb Hold H).
Defined.

Section BatchLoopFacts.

Variable answers : nat -> pystr.

Lemma batch_offsets_done (fuel total ci asked : nat) :
  (total <= ci)%nat -> batch_offsets fuel total ci asked answers = [].
Proof.
  intros H. destruct fuel; [reflexivity |]. simpl.
  destruct (Nat.ltb_spec ci total); [lia | reflexivity].
Qed.

Lemma offsets_from (ci n : nat) :
  ci :: map (fun j => ci + AiExplain.batch_size + AiExplain.batch_size * j)%nat
          (seq 0 n)
  = map (fun j => ci + AiExplain.batch_size * j)%nat (seq 0 (S n)).
Proof.
  cbn [seq map]. f_equal; [lia |].
  rewrite <- seq_shift, map_map. apply map_ext. intros j. lia.
Qed.

Lemma batch_offsets_shape (fuel total ci asked : nat) :
  exists n,
    batch_offsets fuel total ci asked answers
    = map (fun j => ci + AiExplain.batch_size * j)%nat (seq 0 n)
    /\ ((0 < n)%nat -> (ci + AiExplain.batch_size * (n - 1) < total)%nat)
    /\ ((ci < total)%nat -> (0 < fuel)%nat -> (0 < n)%nat)
    /\ ((forall k, is_yes (answers k) = true) -> (total - ci < fuel)%nat ->
        (total <= ci + AiExplain.batch_size * n)%nat).
Proof.
  revert ci asked. induction fuel as [|fuel IH]; intros ci asked.
  - exists 0%nat. cbn. repeat split; lia.
  - cbn [batch_offsets]. destruct (Nat.ltb_spec ci total) as [Hlt | Hge].
    + destruct (Nat.ltb_spec (ci + AiExplain.batch_size) total) as [Hlt2 | Hge2].
      * destruct (is_yes (answers asked)) eqn:Ey.
        -- destruct (IH (ci + AiExplain.batch_size)%nat (S asked))
             as (n & -> & Hb & _ & Hall).
           exists (S n). split; [apply offsets_from |].
           split.
           { intros _. destruct n as [|n]; [lia |].
             specialize (Hb ltac:(lia)).
             replace (S (S n) - 1)%nat with (S n) by lia.
             replace (S n - 1)%nat with n in Hb by lia.
             unfold AiExplain.batch_size in *. lia. }
           split; [lia |].
           intros Hy Hf. specialize (Hall Hy).
           unfold AiExplain.batch_size in *. lia.
        -- exists 1%nat. split; [cbn; f_equal; lia |].
           split; [intros _; unfold AiExplain.batch_size in *; cbn; lia |]. split; [lia |].
           intros Hy _. rewrite Hy in Ey. discriminate.
      * rewrite batch_offsets_done by exact Hge2.
        exists 1%nat. split; [cbn; f_equal; lia |].
        split; [intros _; unfold AiExplain.batch_size in *; cbn; lia |]. split; [lia |].
        intros _ _. unfold AiExplain.batch_size in *. lia.
    + exists 0%nat. cbn. repeat split; lia.
Qed.

Lemma firstn_add {A} (a b : nat) (x : list A) :
  firstn (a + b) x = firstn a x ++ firstn b (skipn a x).
Proof.
  revert x. induction a as [|a IH]; intros x; [reflexivity |].
  destruct x as [|y x]; simpl.
  - destruct b; reflexivity.
  - f_equal. apply IH.
Qed.

Lemma slices_concat {A} (l : list A) (ci n : nat) :
  concat (map (fun c => firstn AiExplain.batch_size (skipn c l))
            (map (fun j => ci + AiExplain.batch_size * j)%nat (seq 0 n)))
  = firstn (AiExplain.batch_size * n) (skipn ci l).
Proof.
  revert ci. induction n as [|n IH]; intros ci.
  - rewrite Nat.mul_0_r. reflexivity.
  - rewrite <- offsets_from. cbn [map concat]. rewrite IH.
    replace (AiExplain.batch_size * S n)%nat
      with (AiExplain.batch_size + AiExplain.batch_size * n)%nat by lia.
    rewrite firstn_add, List.skipn_skipn.
    replace (AiExplain.batch_size + ci)%nat with (ci + AiExplain.batch_size)%nat
      by lia.
    reflexivity.
Qed.

End BatchLoopFacts.

(** X23. The batch loop of [main] works through the sentences in order,
    without gap or repetition: whatever the operator answers, the batches
    it processes, put end to end, are a prefix of the sentence list made
    of whole batches; each batch holds between one and ten sentences; a
    non-empty list always has its first batch processed; and when the
    operator answers yes every time, the batches are the whole list. *)
Theorem main_batches_cover_in_order (indexed_sentences : list (N * pystr))
    (answers : nat -> pystr) :
  let batches := main_batches indexed_sentences answers in
  concat batches
  = firstn (AiExplain.batch_size * length batches) indexed_sentences
  /\ Forall (fun b => (0 < length b <= AiExplain.batch_size)%nat) batches
  /\ (indexed_sentences <> [] -> batches <> [])
  /\ ((forall k, is_yes (answers k) = true) -> concat batches = indexed_sentences).
Proof.
  intros batches. unfold batches, main_batches, main_offsets.
  destruct (batch_offsets_shape answers (S (length indexed_sentences))
              (length indexed_sentences) 0 0) as (n & -> & Hb & Hpos & Hall).
  rewrite slices_concat, !length_map, length_seq. cbn [skipn].
  split; [reflexivity |]. split; [| split].
  - apply List.Forall_forall. intros b Hin.
    apply in_map_iff in Hin as (c & <- & Hc).
    apply in_map_iff in Hc as (j & <- & Hj). apply in_seq in Hj.
    rewrite length_firstn, length_skipn.
    specialize (Hb ltac:(lia)).
    assert (AiExplain.batch_size * j <= AiExplain.batch_size * (n - 1))%nat
      by (apply Nat.mul_le_mono_l; lia).
    unfold AiExplain.batch_size in *. lia.
  - intros Hne. assert (0 < n)%nat as Hn.
    { apply Hpos; [| lia]. destruct indexed_sentences; [congruence | simpl; lia]. }
    destruct n; [lia | discriminate].
  - intros Hy. specialize (Hall Hy ltac:(lia)).
    apply firstn_all2. lia.
Qed.

Lemma main_batches_cover_in_order_witness :
  let l := map (fun k => (N.of_nat k, py "句。")) (seq 1 23) in
  (forall k : nat, is_yes ((fun _ => py "Y") k) = true)
  /\ map (@length (N * pystr)) (main_batches l (fun _ => py "Y")) = [10; 10; 3]%nat
  /\ concat (main_batches l (fun _ => py "Y")) = l.
Proof.
  intros l.
  assert (H : forall k : nat, is_yes ((fun _ => py "Y") k) = true)
    by (intros k; reflexivity).
  split; [exact H |]. split; [reflexivity |].
  exact (proj2 (proj2 (proj2 (main_batches_cover_in_order l (fun _ => py "Y")))) H).
Defined.

Lemma batch_offsets_fuel (answers : nat -> pystr) (total : nat) :
  forall fuel fuel' ci asked,
    (total - ci < fuel)%nat -> (total - ci < fuel')%nat ->
    batch_offsets fuel total ci asked answers
    = batch_offsets fuel' total ci asked answers.
Proof.
  induction fuel as [|fuel IH]; intros fuel' ci asked H H'; [lia |].
  destruct fuel' as [|fuel']; [lia |]. cbn [batch_offsets].
  destruct (Nat.ltb_spec ci total) as [Hlt | Hge]; [| reflexivity].
  assert (Hrec : forall a,
    batch_offsets fuel total (ci + AiExplain.batch_size) a answers
    = batch_offsets fuel' total (ci + AiExplain.batch_size) a answers).
  { intros a. apply IH; unfold AiExplain.batch_size; lia. }
  rewrite !Hrec. reflexivity.
Qed.

(** X24. For a non-empty result, the retry path of [main] in
    [ai_explain.py] writes what the batch write would write for that
    single result at offset [idx - 1], on every table whose header already
    holds the two result columns; both raise the same error when the row
    or the header is missing. *)
Theorem retry_write_as_batch_write (csv : table) (idx : N) (text : pystr) :
  1 <= idx ->
  truthy text = true ->
  (forall header data, csv = header :: data ->
     str_in (py "ai判断") header = true /\ str_in (py "ai理解") header = true) ->
  AiExplain.retry_write csv idx text
  = AiExplain.write_results_to_csv csv [Some text] (N.to_nat idx - 1).
Proof.
  intros _ Htext Hcols. destruct csv as [|header data]; [reflexivity |].
  destruct (Hcols header data eq_refl) as [Hj He].
  unfold AiExplain.retry_write, AiExplain.write_results_to_csv.
  assert (E1 : AiExplain.ensure_column (py "ai判断") header = header)
    by (unfold AiExplain.ensure_column; rewrite Hj; reflexivity).
  rewrite E1.
  assert (E2 : AiExplain.ensure_column (py "ai理解") header = header)
    by (unfold AiExplain.ensure_column; rewrite He; reflexivity).
  rewrite E2. cbn [AiExplain.write_results]. rewrite Htext.
  unfold AiExplain.write_cells. rewrite Nat.add_0_r.
  destruct (data !! (N.to_nat idx - 1)%nat) as [r|]; [| reflexivity].
  destruct (AiExplain.column (py "ai判断") header) as [jc|e]; [| reflexivity].
  cbn [bind].
  destruct (AiExplain.set_cell (AiExplain.pad_row (length header) r) jc _)
    as [r1|e]; [| reflexivity].
  cbn [bind].
  destruct (AiExplain.column (py "ai理解") header) as [ec|e]; [| reflexivity].
  cbn [bind].
  destruct (AiExplain.set_cell r1 ec _) as [r2|e]; reflexivity.
Qed.

Lemma retry_write_as_batch_write_witness :
  let csv := [[py "原句"; py "ai判断"; py "ai理解"]; [py "天气很好。"]; [py "明天."]] in
  1 <= 2
  /\ truthy (py "错") = true
  /\ (forall header data, csv = header :: data ->
        str_in (py "ai判断") header = true /\ str_in (py "ai理解") header = true)
  /\ AiExplain.write_results_to_csv csv [Some (py "错")] (N.to_nat 2 - 1)
     = Returns [[py "原句"; py "ai判断"; py "ai理解"]; [py "天气很好。"];
                [py "明天."; py "错"; []]].
Proof.
  intros csv.
  assert (H0 : 1 <= 2) by lia.
  assert (H1 : truthy (py "错") = true) by reflexivity.
  assert (H2 : forall header data, csv = header :: data ->
        str_in (py "ai判断") header = true /\ str_in (py "ai理解") header = true).
  { intros header data E. inversion E; subst. split; reflexivity. }
  repeat (split; [assumption |]).
  rewrite <- (retry_write_as_batch_write csv 2 (py "错") H0 H1 H2). reflexivity.
Defined.

Section YesNoBatchFacts.

Lemma loaded_increasing (t : table) :
  increasing (AiExplain.load_sentences_from_csv t).
Proof. intros i j a b. apply load_rows_increasing. Qed.

Lemma batch_increasing (l : list (N * pystr)) (current_index : nat) :
  increasing l ->
  increasing (firstn AiExplain.batch_size (skipn current_index l)).
Proof.
  intros H i j a b Hij Ha Hb.
  apply batch_lookup in Ha as [Ha _]. apply batch_lookup in Hb as [Hb _].
  apply (H (current_index + i)%nat (current_index + j)%nat); [lia | exact Ha | exact Hb].
Qed.

Lemma increasing_tail (x : N * pystr) (l : list (N * pystr)) :
  increasing (x :: l) ->
  increasing l /\ forall y, In y l -> fst x < fst y.
Proof.
  intros H. split.
  - intros i j a b Hij Ha Hb. exact (H (S i) (S j) a b ltac:(lia) Ha Hb).
  - intros y Hy. apply list_elem_of_In, list_elem_of_lookup in Hy as [j Hj].
    exact (H 0%nat (S j) x y ltac:(lia) eq_refl Hj).
Qed.

Lemma main_written_from_batch (batch : list (N * pystr))
    (results : list (option pystr)) (x : N * pystr * pystr) :
  In x (main_written batch results) -> In (fst x) batch.
Proof.
  unfold main_written. intros H. apply in_flat_map in H as ([[idx s] r] & Hc & Hx).
  apply in_combine_l in Hc.
  destruct r as [[|c text]|]; try destruct Hx.
  - subst x. exact Hc.
  - destruct H.
Qed.

Lemma main_written_targets_distinct (batch : list (N * pystr))
    (results : list (option pystr)) :
  increasing batch -> List.NoDup (map target (main_written batch results)).
Proof.
  revert results. induction batch as [|[idx s] batch IH]; intros results Hinc.
  - constructor.
  - destruct results as [|r results]; [constructor |].
    apply increasing_tail in Hinc as [Hinc Hlt].
    unfold main_written. cbn [combine flat_map]. fold (main_written batch results).
    rewrite map_app. specialize (IH results Hinc).
    destruct r as [[|c text]|]; cbn [map app]; try exact IH.
    constructor; [| exact IH].
    intros Hin. apply in_map_iff in Hin as (y & Ey & Hy).
    apply main_written_from_batch in Hy. specialize (Hlt _ Hy).
    unfold target in Ey. cbn [fst] in Ey, Hlt. apply N2Nat.inj in Ey. lia.
Qed.

Lemma main_written_lookup (batch : list (N * pystr))
    (results : list (option pystr)) (p : nat) (idx : N) (s text : pystr) :
  batch !! p = Some (idx, s) ->
  results !! p = Some (Some text) ->
  truthy text = true ->
  In (idx, s, text) (main_written batch results).
Proof.
  revert results p. induction batch as [|x batch IH]; intros results p Hb Hr Ht.
  - destruct p; discriminate.
  - destruct results as [|r results]; [destruct p; discriminate |].
    unfold main_written. cbn [combine flat_map]. fold (main_written batch results).
    apply in_or_app. destruct p as [|p].
    + left. cbn in Hb, Hr. inversion Hb; inversion Hr; subst.
      destruct text; [discriminate | left; reflexivity].
    + right. exact (IH results p Hb Hr Ht).
Qed.

End YesNoBatchFacts.

(** X25. One batch of [main] in [ai_yes_no.py], taken from the loaded
    sentences, is stored by index even when the loader skipped rows: every
    sentence of the batch whose result is non-empty is found in the
    written table in the row numbered by its own index, sentence first and
    result second. *)
Theorem yes_no_batch_stored_by_index (t : table) (csv : option table)
    (current_index p : nat) (results : list (option pystr))
    (idx : N) (s text : pystr) :
  let batch :=
    firstn AiExplain.batch_size
      (skipn current_index (AiYesNo.load_sentences_from_csv t)) in
  batch !! p = Some (idx, s) ->
  results !! p = Some (Some text) ->
  truthy text = true ->
  exists rest,
    AiYesNo.write_results_to_csv csv (main_written batch results) !! N.to_nat idx
    = Some (s :: text :: rest).
Proof.
  intros batch Hb Hr Ht. rewrite yes_no_write_results_to_csv_start.
  destruct (yes_no_fold_written (main_written batch results) (yes_no_start csv)
              idx s text) as (rest & Hrow & _).
  - apply main_written_targets_distinct, batch_increasing, loaded_increasing.
  - exact (main_written_lookup batch results p idx s text Hb Hr Ht).
  - exists rest. exact Hrow.
Qed.

Lemma yes_no_batch_stored_by_index_witness :
  let batch :=
    firstn AiExplain.batch_size
      (skipn 0 (AiYesNo.load_sentences_from_csv skipped_row_table)) in
  let results := [Some (py "对"); Some (py "错")] in
  batch !! 1%nat = Some (3, py "明天.")
  /\ results !! 1%nat = Some (Some (py "错"))
  /\ truthy (py "错") = true
  /\ exists rest,
       AiYesNo.write_results_to_csv None (main_written batch results) !! 3%nat
       = Some (py "明天." :: py "错" :: rest).
Proof.
  intros batch results.
  assert (H1 : batch !! 1%nat = Some (3, py "明天.")) by reflexivity.
  assert (H2 : results !! 1%nat = Some (Some (py "错"))) by reflexivity.
  assert (H3 : truthy (py "错") = true) by reflexivity.
  repeat (split; [assumption |]).
  exact (yes_no_batch_stored_by_index skipped_row_table None 0 1 results 3
           (py "明天.") (py "错") H1 H2 H3).
Defined.

(** X26. [main] of [ai_yes_no.py] loses no sentence of a batch: with one
    result per sentence, the sentences passed on to the CSV and the
    sentences reported as failed are, together, the sentences of the
    batch, each one in exactly one of the two groups. *)
Theorem yes_no_batch_written_or_failed (batch : list (N * pystr))
    (results : list (option pystr)) :
  length results = length batch ->
  Permutation (map fst (main_written batch results) ++ main_failed batch results)
    batch
  /\ Forall (fun x => snd x <> []) (main_written batch results).
Proof.
  revert results. induction batch as [|[idx s] batch IH]; intros results Hlen.
  - split; [apply perm_nil | constructor].
  - destruct results as [|r results]; [discriminate |].
    destruct (IH results ltac:(simpl in Hlen; lia)) as [Hp Hf].
    unfold main_written, main_failed. cbn [combine flat_map List.filter].
    fold (main_written batch results).
    destruct r as [[|c text]|]; cbn [map app fst List.filter].
    + split; [| exact Hf]. fold (main_failed batch results).
      apply Permutation_sym, Permutation_cons_app, Permutation_sym. exact Hp.
    + split; [apply perm_skip; exact Hp |].
      constructor; [discriminate | exact Hf].
    + split; [| exact Hf]. fold (main_failed batch results).
      apply Permutation_sym, Permutation_cons_app, Permutation_sym. exact Hp.
Qed.

Lemma yes_no_batch_written_or_failed_witness :
  let batch := [(1, py "天气很好。"); (3, py "明天.")] in
  let results := [Some (py "对"); None] in
  length results = length batch
  /\ map fst (main_written batch results) = [(1, py "天气很好。")]
  /\ main_failed batch results = [(3, py "明天.")]
  /\ Permutation (map fst (main_written batch results) ++ main_failed batch results)
       batch.
Proof.
  intros batch results.
  assert (H : length results = length batch) by reflexivity.
  split; [exact H |]. split; [reflexivity |]. split; [reflexivity |].
  exact (proj1 (yes_no_batch_written_or_failed batch results H)).
Defined.

Section MatchCountFacts.

Variable isdigit : char -> bool.
Variable to_decimal : char -> option N.
Variable max_str_digits : nat.

Lemma ascii_filter (text : pystr) :
  ascii_digits_only isdigit text ->
  List.filter isdigit text = List.filter Format.is_ascii_digit text.
Proof.
  intros H. induction text as [|c text IH]; [reflexivity |].
  simpl. rewrite (H c (or_introl eq_refl)), IH; [reflexivity |].
  intros x Hx. apply H. right. exact Hx.
Qed.

Lemma ascii_digit_range (c : char) :
  Format.is_ascii_digit c = true <-> 48 <= c <= 57.
Proof.
  unfold Format.is_ascii_digit. rewrite andb_true_iff, !N.leb_le. reflexivity.
Qed.

Lemma filtered_digits_range (text : pystr) :
  Forall (fun c => 48 <= c <= 57) (List.filter Format.is_ascii_digit text).
Proof.
  apply List.Forall_forall. intros c Hc. apply filter_In in Hc as [_ Hc].
  apply ascii_digit_range. exact Hc.
Qed.

Lemma int_of_ascii_digit_string (s : pystr) :
  unicode_agrees_on_ascii to_decimal ->
  Forall (fun c => 48 <= c <= 57) s ->
  within_digit_limit max_str_digits s ->
  s <> [] ->
  AiMatchScore.int_of_digit_string to_decimal max_str_digits s
  = Returns (fold_left digit_step s 0).
Proof.
  intros Hdb Hs Hlim Hne. unfold AiMatchScore.int_of_digit_string.
  destruct s as [|c s]; [congruence |].
  assert (Hall : forallb (Regex.is_decimal to_decimal) (c :: s) = true).
  { apply forallb_forall. intros x Hx. rewrite List.Forall_forall in Hs.
    exact (proj1 (is_decimal_digit to_decimal Hdb x (Hs x Hx))). }
  rewrite Hall.
  assert (Hok : (0 <? max_str_digits)%nat && (max_str_digits <? length (c :: s))%nat
                = false).
  { destruct Hlim as [-> | Hlim]; [reflexivity |].
    apply andb_false_iff. right. apply Nat.ltb_ge. exact Hlim. }
  rewrite Hok. unfold Regex.int_of.
  rewrite (int_of_ascii_digits to_decimal Hdb (c :: s) 0 Hs). reflexivity.
Qed.

End MatchCountFacts.

(** X27. [evaluate_match] never raises, whatever the remote does, and it
    counts 0 when there is no response or the response holds no digit
    character. *)
Theorem evaluate_match_total_and_zero_without_digits
    (isdigit : char -> bool) (to_decimal : char -> option N)
    (max_str_digits : nat) (api : remote) (dis_values ai_value : pystr) :
  (exists matched,
     AiMatchScore.evaluate_match isdigit to_decimal max_str_digits api
       dis_values ai_value = Returns matched)
  /\ AiMatchScore.count_from_response isdigit to_decimal max_str_digits None = 0
  /\ (forall text, (forall c, In c text -> isdigit c = false) ->
        AiMatchScore.count_from_response isdigit to_decimal max_str_digits
          (Some text) = 0).
Proof.
  split; [| split].
  - unfold AiMatchScore.evaluate_match.
    destruct (match_loop_returns api
                (AiMatchScore.match_prompt dis_values ai_value) 3 5 3 0
                [EvJitter 1 3]) as [v Hv].
    unfold AiMatch.process_prompt_with_retry. rewrite Hv. eauto.
  - reflexivity.
  - intros text H. unfold AiMatchScore.count_from_response.
    assert (E : List.filter isdigit text = []).
    { induction text as [|c text IH]; [reflexivity |].
      simpl. rewrite (H c (or_introl eq_refl)). apply IH.
      intros x Hx. apply H. right. exact Hx. }
    rewrite E. reflexivity.
Qed.

Lemma evaluate_match_total_and_zero_without_digits_witness :
  let api : remote := fun _ _ => ApiText (Some (py "两个")) in
  (exists matched,
     AiMatchScore.evaluate_match Format.is_ascii_digit Regex.ascii_decimal 4300
       api (py "去银行取钱; 去河岸") (py "去银行取钱") = Returns matched)
  /\ AiMatchScore.count_from_response Format.is_ascii_digit Regex.ascii_decimal
       4300 (Some (py "两个")) = 0.
Proof.
  intros api.
  destruct (evaluate_match_total_and_zero_without_digits Format.is_ascii_digit
              Regex.ascii_decimal 4300 api (py "去银行取钱; 去河岸")
              (py "去银行取钱")) as [H1 [_ H3]].
  split; [exact H1 |]. apply H3.
  intros c Hc. vm_compute in Hc.
  destruct Hc as [<- | [<- | []]]; reflexivity.
Defined.

(** X28. On a response whose digit characters are ASCII digits,
    [evaluate_match] counts the number spelled by all the digits of the
    response taken together, in their order (so "2/3" counts 23), as long
    as the numeral is within the interpreter's length limit. *)
Theorem evaluate_match_joins_all_digits
    (isdigit : char -> bool) (to_decimal : char -> option N)
    (max_str_digits : nat) (text : pystr) :
  unicode_agrees_on_ascii to_decimal ->
  ascii_digits_only isdigit text ->
  within_digit_limit max_str_digits (List.filter Format.is_ascii_digit text) ->
  AiMatchScore.count_from_response isdigit to_decimal max_str_digits (Some text)
  = fold_left digit_step (List.filter Format.is_ascii_digit text) 0.
Proof.
  intros Hdb Hascii Hlim. unfold AiMatchScore.count_from_response.
  rewrite (ascii_filter isdigit text Hascii).
  destruct (List.filter Format.is_ascii_digit text) as [|c s] eqn:E;
    [reflexivity |].
  rewrite (int_of_ascii_digit_string to_decimal max_str_digits (c :: s) Hdb);
    [reflexivity | | exact Hlim | discriminate].
  rewrite <- E. apply filtered_digits_range.
Qed.

Lemma evaluate_match_joins_all_digits_witness :
  let text := py "匹配2个，共3个" in
  unicode_agrees_on_ascii Regex.ascii_decimal
  /\ ascii_digits_only Format.is_ascii_digit text
  /\ within_digit_limit 4300 (List.filter Format.is_ascii_digit text)
  /\ AiMatchScore.count_from_response Format.is_ascii_digit Regex.ascii_decimal
       4300 (Some text) = 23.
Proof.
  intros text.
  assert (H1 : unicode_agrees_on_ascii Regex.ascii_decimal)
    by (intros c _; reflexivity).
  assert (H2 : ascii_digits_only Format.is_ascii_digit text)
    by (intros c _; reflexivity).
  assert (H3 : within_digit_limit 4300 (List.filter Format.is_ascii_digit text))
    by (right; vm_compute; lia).
  repeat (split; [assumption |]).
  exact (evaluate_match_joins_all_digits Format.is_ascii_digit Regex.ascii_decimal
           4300 text H1 H2 H3).
Defined.

Lemma split_on_nonempty (sep : char) (s : pystr) :
  AiMatchScore.split_on sep s <> [].
Proof.
  destruct s as [|c s]; simpl; [discriminate |].
  destruct (c =? sep); [discriminate |].
  destruct (AiMatchScore.split_on sep s); discriminate.
Qed.

Lemma split_on_piece (sep : char) (v : pystr) :
  ~ In sep v -> AiMatchScore.split_on sep v = [v].
Proof.
  induction v as [|c v IH]; intros H; [reflexivity |].
  simpl. destruct (N.eqb_spec c sep) as [-> | _].
  - exfalso. apply H. left. reflexivity.
  - rewrite IH; [reflexivity |]. intros Hin. apply H. right. exact Hin.
Qed.

Lemma split_on_app_piece (sep : char) (v rest : pystr) :
  ~ In sep v ->
  AiMatchScore.split_on sep (v ++ sep :: rest)
  = v :: AiMatchScore.split_on sep rest.
Proof.
  induction v as [|c v IH]; intros H.
  - simpl. rewrite N.eqb_refl. reflexivity.
  - simpl. destruct (N.eqb_spec c sep) as [-> | _].
    + exfalso. apply H. left. reflexivity.
    + rewrite IH; [reflexivity |]. intros Hin. apply H. right. exact Hin.
Qed.

Lemma split_on_joined (v : pystr) (vs : list pystr) :
  Forall (fun v => ~ In 59 v) (v :: vs) ->
  AiMatchScore.split_on 59 (join [59; 32] (v :: vs)) = v :: map (cons 32) vs.
Proof.
  revert v. induction vs as [|v' vs IH]; intros v H; inversion H; subst.
  - simpl. apply split_on_piece. assumption.
  - change (join [59; 32] (v :: v' :: vs))
      with (v ++ 59 :: (32 :: join [59; 32] (v' :: vs))).
    rewrite split_on_app_piece by assumption. f_equal.
    change (32 :: join [59; 32] (v' :: vs)) with ([32] ++ join [59; 32] (v' :: vs)).
    cbn [app]. cbn [AiMatchScore.split_on].
    change (32 =? 59) with false. cbv iota.
    rewrite IH by assumption. reflexivity.
Qed.

Lemma gold_count_joined (vs : list pystr) :
  Forall (fun v => ~ In 59 v) vs ->
  Forall (fun v => strip v <> []) vs ->
  AiMatchScore.gold_count (join [59; 32] vs) = length vs.
Proof.
  intros Hsemi Hblank. unfold AiMatchScore.gold_count. rewrite length_map.
  destruct vs as [|v vs]; [reflexivity |].
  rewrite split_on_joined by assumption.
  inversion Hblank as [|? ? Hv Hvs]; subst.
  cbn [List.filter]. destruct (strip v) eqn:E; [congruence |].
  cbn [truthy length]. f_equal.
  clear -Hvs. induction vs as [|x vs IH]; [reflexivity |].
  inversion Hvs; subst. cbn [map List.filter].
  rewrite (strip_cons_space 32 x eq_refl).
  destruct (strip x) eqn:E; [congruence |]. cbn [truthy length].
  f_equal. apply IH. assumption.
Qed.

Lemma dis_list_values (row : AiMatchScore.dict_row) :
  Forall (fun v => strip v <> [] /\ no_outer_space v /\ v <> py "无")
    (AiMatchScore.dis_list row)
  /\ (length (AiMatchScore.dis_list row) <= 4)%nat.
Proof.
  unfold AiMatchScore.dis_list. split.
  - apply List.Forall_forall. intros v Hv. apply filter_In in Hv as [Hin Hv].
    apply andb_true_iff in Hv as [Ht Hn].
    apply in_map_iff in Hin as [f [<- _]].
    repeat split.
    + rewrite strip_idempotent. destruct (strip _); [discriminate | discriminate].
    + apply strip_no_outer_space.
    + apply strip_no_outer_space.
    + intros E. rewrite E in Hn. vm_compute in Hn. discriminate.
  - etransitivity; [apply List.filter_length_le |]. rewrite length_map.
    vm_compute. lia.
Qed.

(** X29. Every pair that [read_csv] of [ai_match.py] returns comes from a
    row with a non-empty trimmed AI cell and between one and four kept
    disambiguation values, joined with "; "; and the gold count that
    [calculate_precision_recall] recomputes from the joined string is the
    number of kept values whenever no kept value contains a semicolon. *)
Theorem gold_count_is_number_of_kept_values
    (rows : list AiMatchScore.dict_row) (dis ai : pystr) :
  In (dis, ai) (AiMatchScore.read_csv rows) ->
  exists row,
    In row rows
    /\ dis = join (py "; ") (AiMatchScore.dis_list row)
    /\ ai = strip (AiExplain.or_empty (row AiMatchScore.AI_FIELD))
    /\ ai <> []
    /\ (1 <= length (AiMatchScore.dis_list row) <= 4)%nat
    /\ (Forall (fun v => ~ In 59 v) (AiMatchScore.dis_list row) ->
        AiMatchScore.gold_count dis = length (AiMatchScore.dis_list row)).
Proof.
  intros H. unfold AiMatchScore.read_csv in H.
  apply in_flat_map in H as [row [Hrow H]]. exists row.
  destruct (dis_list_values row) as [Hvals Hlen].
  assert (Hin : AiMatchScore.dis_list row <> []
                /\ strip (AiExplain.or_empty (row AiMatchScore.AI_FIELD)) <> []
                /\ dis = join (py "; ") (AiMatchScore.dis_list row)
                /\ ai = strip (AiExplain.or_empty (row AiMatchScore.AI_FIELD))).
  { unfold AiMatchScore.read_row in H.
    destruct (AiMatchScore.dis_list row) as [|v vs]; [destruct H |].
    destruct (strip (AiExplain.or_empty (row AiMatchScore.AI_FIELD))) as [|c a];
      [destruct H |].
    cbn [truthy] in H. destruct H as [H | []].
    split; [discriminate |]. split; [discriminate |]. split; congruence. }
  clear H. destruct Hin as (Hne & Hai & -> & ->).
  split; [exact Hrow |]. split; [reflexivity |]. split; [reflexivity |].
  split; [exact Hai |]. split.
  - split; [| exact Hlen].
    destruct (AiMatchScore.dis_list row); [congruence | simpl; lia].
  - intros Hsemi. change (py "; ") with [59; 32].
    apply gold_count_joined; [exact Hsemi |].
    eapply List.Forall_impl; [| exact Hvals]. intros x [Hx _]. exact Hx.
Qed.

Lemma gold_count_is_number_of_kept_values_witness :
  let row : AiMatchScore.dict_row := fun field =>
    if pystr_eqb field (py "歧义句消岐1") then Some (py " 去银行取钱 ")
    else if pystr_eqb field (py "歧义句消岐2") then Some (py "去河岸")
    else if pystr_eqb field (py "歧义句消岐3") then Some (py "无")
    else if pystr_eqb field (py "ai理解") then Some (py "去银行取钱")
    else None in
  In (py "去银行取钱; 去河岸", py "去银行取钱") (AiMatchScore.read_csv [row])
  /\ exists r,
       In r [row]
       /\ py "去银行取钱; 去河岸" = join (py "; ") (AiMatchScore.dis_list r)
       /\ py "去银行取钱" = strip (AiExplain.or_empty (r AiMatchScore.AI_FIELD))
       /\ py "去银行取钱" <> []
       /\ (1 <= length (AiMatchScore.dis_list r) <= 4)%nat
       /\ (Forall (fun v => ~ In 59 v) (AiMatchScore.dis_list r) ->
           AiMatchScore.gold_count (py "去银行取钱; 去河岸")
           = length (AiMatchScore.dis_list r)).
Proof.
  intros row.
  assert (H : In (py "去银行取钱; 去河岸", py "去银行取钱")
                (AiMatchScore.read_csv [row])) by (left; reflexivity).
  split; [exact H |].
  exact (gold_count_is_number_of_kept_values [row] _ _ H).
Defined.

Lemma universal_newlines_no_cr (n : nat) :
  forall s : pystr, (length s <= n)%nat -> ~ In CR (universal_newlines s).
Proof.
  induction n as [|n IH]; intros s Hlen.
  - destruct s; [intros [] | simpl in Hlen; lia].
  - destruct s as [|c s]; [intros [] |].
    simpl in Hlen. cbn [universal_newlines].
    destruct (N.eqb_spec c CR) as [-> | Hc].
    + intros [H | H]; [discriminate |].
      destruct s as [|c' s]; [destruct H |].
      simpl in Hlen. destruct (c' =? LF).
      * exact (IH s ltac:(lia) H).
      * exact (IH (c' :: s) ltac:(simpl; lia) H).
    + intros [H | H]; [congruence |]. exact (IH s ltac:(lia) H).
Qed.

Lemma universal_newlines_first_line (first rest : pystr) :
  ~ In CR first ->
  universal_newlines (first ++ LF :: rest)
  = first ++ LF :: universal_newlines rest.
Proof.
  induction first as [|c first IH]; intros H.
  - reflexivity.
  - cbn [app universal_newlines].
    destruct (N.eqb_spec c CR) as [-> | _].
    + exfalso. apply H. left. reflexivity.
    + rewrite IH; [reflexivity |]. intros Hin. apply H. right. exact Hin.
Qed.

Lemma lines_of_first_line (first rest : pystr) :
  ~ In LF first ->
  lines_of (first ++ LF :: rest) = (first ++ [LF]) :: lines_of rest.
Proof.
  induction first as [|c first IH]; intros H.
  - reflexivity.
  - cbn [app lines_of].
    destruct (N.eqb_spec c LF) as [-> | _].
    + exfalso. apply H. left. reflexivity.
    + rewrite IH; [reflexivity |]. intros Hin. apply H. right. exact Hin.
Qed.

Lemma lines_of_last_line (c : char) (s : pystr) :
  ~ In LF (c :: s) -> lines_of (c :: s) = [c :: s].
Proof.
  revert c. induction s as [|x s IH]; intros c H.
  - cbn [lines_of]. destruct (N.eqb_spec c LF) as [-> | _]; [| reflexivity].
    exfalso. apply H. left. reflexivity.
  - cbn [lines_of] in *. destruct (N.eqb_spec c LF) as [-> | _].
    + exfalso. apply H. left. reflexivity.
    + rewrite IH; [reflexivity |]. intros Hin. apply H. right. exact Hin.
Qed.

Lemma first_line_break (s : pystr) :
  ~ In LF s \/ exists first rest, s = first ++ LF :: rest /\ ~ In LF first.
Proof.
  induction s as [|c s IH].
  - left. intros [].
  - destruct (N.eqb_spec c LF) as [-> | Hc].
    + right. exists [], s. split; [reflexivity | intros []].
    + destruct IH as [IH | (first & rest & -> & Hf)].
      * left. intros [H | H]; [congruence | exact (IH H)].
      * right. exists (c :: first), rest. split; [reflexivity |].
        intros [H | H]; [congruence | exact (Hf H)].
Qed.

Lemma isspace_LF : isspace LF = true.
Proof. reflexivity. Qed.

(** X30. The prompt template is one line: whatever the file holds,
    [load_prompt_template] returns a text without line break, and for a
    file whose first line [first] ends with a line feed it returns [first]
    trimmed, so that every later line of the file is ignored. *)
Theorem load_prompt_template_first_line_only :
  (forall content,
     ~ In LF (load_prompt_template content)
     /\ ~ In CR (load_prompt_template content))
  /\ (forall first rest,
        ~ In LF first -> ~ In CR first ->
        load_prompt_template (first ++ LF :: rest) = strip first).
Proof.
  split.
  - intros content. unfold load_prompt_template, readline, read_lines.
    pose proof (universal_newlines_no_cr (length content) content (le_n _)) as Hcr.
    set (u := universal_newlines content) in *.
    assert (E : exists body, incl body u /\ ~ In LF body
                  /\ strip match lines_of u with line :: _ => line | [] => [] end
                     = strip body).
    { destruct (first_line_break u) as [H | (first & rest & Hu & Hf)].
      - exists u. split; [apply incl_refl |]. split; [exact H |].
        destruct u as [|c s]; [reflexivity |].
        rewrite lines_of_last_line by exact H. reflexivity.
      - exists first. split; [| split; [exact Hf |]].
        + rewrite Hu. apply incl_appl, incl_refl.
        + rewrite Hu. rewrite lines_of_first_line by exact Hf.
          apply strip_snoc_space. exact isspace_LF. }
    destruct E as (body & Hincl & Hlf & ->).
    split; intros H; apply strip_incl in H; [exact (Hlf H) |].
    exact (Hcr (Hincl _ H)).
  - intros first rest Hlf Hcr. unfold load_prompt_template, readline, read_lines.
    rewrite universal_newlines_first_line by exact Hcr.
    rewrite lines_of_first_line by exact Hlf.
    apply strip_snoc_space. exact isspace_LF.
Qed.

Lemma load_prompt_template_first_line_only_witness :
  let first := py " 请解释这句话：{} " in
  let rest := py "第二行" ++ [CR; LF] ++ py "第三行" in
  ~ In LF first /\ ~ In CR first
  /\ load_prompt_template (first ++ LF :: rest) = py "请解释这句话：{}".
Proof.
  intros first rest.
  assert (H1 : ~ In LF first) by (vm_compute; intuition discriminate).
  assert (H2 : ~ In CR first) by (vm_compute; intuition discriminate).
  repeat (split; [assumption |]).
  exact (proj2 load_prompt_template_first_line_only first rest H1 H2).
Defined.
(** * The example scenario, run through [main] *)

Section ScenarioRunFacts.

Variables response msg : pystr.

Let cleaned : pystr := AiExplain.clean_formatting response.

Lemma scenario_csv_write :
  AiExplain.write_results_to_csv scenario_table [Some cleaned; None] 0
  = Returns [[py "原句"; py "ai判断"; py "ai理解"];
             scenario_first_row cleaned;
             [py "明天."]].
Proof.
  unfold scenario_first_row. generalize cleaned. intros c.
  destruct c as [|x c]; reflexivity.
Qed.

Lemma scenario_main_batch (order : list nat) :
  order = [0; 1]%nat \/ order = [1; 0]%nat ->
  AiExplain.main_batch scenario_template
    [(1, py "天气很好。"); (2, py "明天.")] 0
    (scenario_apis response msg) order scenario_table
  = Some (Returns
            ([Some cleaned; None],
             [[py "原句"; py "ai判断"; py "ai理解"];
              scenario_first_row cleaned;
              [py "明天."]])).
Proof.
  intros Horder. unfold AiExplain.main_batch.
  change (firstn AiExplain.batch_size
            (skipn 0 [(1, py "天气很好。"); (2, py "明天.")]))
    with [(1, py "天气很好。"); (2, py "明天.")].
  rewrite scenario_prompts.
  rewrite (scenario_results response msg order Horder).
  fold cleaned. rewrite scenario_csv_write. reflexivity.
Qed.

Lemma scenario_retry_results :
  AiExplain.process_all_prompts (fun _ _ _ => ApiServerError msg)
    [py "判断：明天."] [0%nat]
  = [None].
Proof. reflexivity. Qed.

End ScenarioRunFacts.

Section ScenarioRun.

Variables response msg retry_choice cont : pystr.
Variables failed_txt success_txt : file.

Lemma scenario_pass_body (order : list nat) (said : list pystr) :
  order = [0; 1]%nat \/ order = [1; 0]%nat ->
  ExplainRun.pass_body scenario_template
    [(1, py "天气很好。"); (2, py "明天.")] 0
    (scenario_pass response msg order retry_choice cont)
    (ExplainRun.World scenario_table failed_txt success_txt said)
  = Some (Returns
            (ExplainRun.World
               [[py "原句"; py "ai判断"; py "ai理解"];
                scenario_first_row (AiExplain.clean_formatting response);
                [py "明天."]]
               failed_txt success_txt
               (said ++ firstn 5 (scenario_console retry_choice)))).
Proof.
  intros Horder. unfold ExplainRun.pass_body, scenario_pass.
  change (firstn AiExplain.batch_size
            (skipn 0 [(1, py "天气很好。"); (2, py "明天.")]))
    with [(1, py "天气很好。"); (2, py "明天.")].
  cbn [ExplainRun.apis ExplainRun.order ExplainRun.retry_choice
       ExplainRun.retry_apis ExplainRun.retry_order ExplainRun.csv_file].
  rewrite (scenario_main_batch response msg order Horder).
  cbn [ExplainRun.bind_run fst snd].
  generalize (AiExplain.clean_formatting response). intros c.
  change (ExplainRun.failed_indices [Some c; None]) with [1%nat].
  unfold scenario_console.
  destruct (is_yes retry_choice).
  - cbn [ExplainRun.report ExplainRun.pick ExplainRun.bind_run lookup list_lookup
         bind ExplainRun.say ExplainRun.set_csv ExplainRun.csv_file
         ExplainRun.failed_txt ExplainRun.success_txt ExplainRun.console].
    change (AiExplain.build_prompts scenario_template [(2, py "明天.")])
      with (Some (Returns [py "判断：明天."])).
    cbn [ExplainRun.bind_run]. rewrite scenario_retry_results.
    cbn [ExplainRun.retry_writes ExplainRun.bind_run ExplainRun.say
         ExplainRun.set_csv ExplainRun.csv_file ExplainRun.failed_txt
         ExplainRun.success_txt ExplainRun.console firstn].
    unfold ExplainRun.say, ExplainRun.set_csv.
    cbn [ExplainRun.csv_file ExplainRun.failed_txt ExplainRun.success_txt
         ExplainRun.console].
    rewrite <- !app_assoc. reflexivity.
  - cbn [ExplainRun.report ExplainRun.pick ExplainRun.bind_run lookup list_lookup
         bind ExplainRun.say ExplainRun.set_csv ExplainRun.csv_file
         ExplainRun.failed_txt ExplainRun.success_txt ExplainRun.console firstn].
    unfold ExplainRun.say, ExplainRun.set_csv.
    cbn [ExplainRun.csv_file ExplainRun.failed_txt ExplainRun.success_txt
         ExplainRun.console].
    rewrite <- !app_assoc. reflexivity.
Qed.

Lemma scenario_run_result (order : list nat) :
  order = [0; 1]%nat \/ order = [1; 0]%nat ->
  scenario_run response msg order retry_choice cont failed_txt success_txt
  = Some (Returns
            (ExplainRun.World
               [[py "原句"; py "ai判断"; py "ai理解"];
                scenario_first_row (AiExplain.clean_formatting response);
                [py "明天."]]
               failed_txt success_txt (scenario_console retry_choice))).
Proof.
  intros Horder. unfold scenario_run, ExplainRun.main.
  cbn [ExplainRun.csv_file].
  change (load_prompt_template scenario_template) with scenario_template.
  change (AiExplain.load_sentences_from_csv scenario_table)
    with [(1, py "天气很好。"); (2, py "明天.")].
  cbn [length ExplainRun.loop]. change (0 <? 2)%nat with true. cbv iota.
  rewrite (scenario_pass_body order [] Horder).
  cbn [ExplainRun.bind_run].
  change (0 + AiExplain.batch_size <? 2)%nat with false. cbv iota.
  change (0 + AiExplain.batch_size <? 2)%nat with false. cbv iota.
  reflexivity.
Qed.

End ScenarioRun.

(** C9, as stated, fails: a run of [main] on the scenario opens no text
    log, so a failure log that was absent is absent afterwards and holds
    no line at all; and the line that [write_failed_to_txt] gives for the
    batch and the results of that run keeps the ASCII full stop of the
    sentence, a recognized terminator, so it is not the line with the
    ideographic full stop either. *)
Lemma scenario_run_failure_log_counterexample :
  let response := py "对" ++ [LF] ++ py "解释A" in
  exists w,
    scenario_run response (py "503") [0; 1]%nat (py "n") (py "n") None None
    = Some (Returns w)
    /\ ExplainRun.failed_txt w = None
    /\ ExplainRun.failed_txt w <> Some (py "[2] 明天。" ++ [LF])
    /\ ExplainRun.success_txt w = None
    /\ AiExplain.write_failed_to_txt
         (AiExplain.load_sentences_from_csv scenario_table)
         [Some (AiExplain.clean_formatting response); None] None
       <> Some (py "[2] 明天。" ++ [LF]).
Proof.
  intros response. eexists. split; [vm_compute; reflexivity |].
  cbn [ExplainRun.failed_txt ExplainRun.success_txt].
  split; [reflexivity |]. split; [discriminate |]. split; [reflexivity |].
  vm_compute. discriminate.
Qed.

(** C9 (amended).  In the two-row scenario, when row 1 is answered and
    every call for row 2 raises a server error, a run of [main] of
    [ai_explain.py] leaves the failure log and the success log as they
    were, in whichever order the two workers complete and whatever the
    operator answers: it writes the result of row 1 into the CSV and
    reports the failed sentence on the console as [[行号 2] 明天.].  On
    the batch and the results of that run, [write_failed_to_txt] writes
    exactly the line [[2] 明天.] (the sentence as loaded, with its ASCII
    full stop) and [write_success_results_to_txt] adds to a success log
    that is absent or empty exactly the block of row 1. *)
Theorem scenario_run_leaves_logs_unwritten
    (response msg retry_choice cont : pystr) (failed_txt success_txt : file) :
  let cleaned := AiExplain.clean_formatting response in
  let batch := [(1, py "天气很好。"); (2, py "明天.")] in
  let results := [Some cleaned; None] in
  let csv :=
    [[py "原句"; py "ai判断"; py "ai理解"];
     scenario_first_row cleaned;
     [py "明天."]] in
  let after :=
    Some (Returns (ExplainRun.World csv failed_txt success_txt
                     (scenario_console retry_choice))) in
  let block := AiExplain.success_block 1 (py "天气很好。") cleaned in
  (scenario_run response msg [0; 1]%nat retry_choice cont failed_txt success_txt
   = after
   /\ scenario_run response msg [1; 0]%nat retry_choice cont failed_txt
        success_txt = after)
  /\ AiExplain.load_sentences_from_csv scenario_table = batch
  /\ (AiExplain.main_batch scenario_template batch 0
        (scenario_apis response msg) [0; 1]%nat scenario_table
      = Some (Returns (results, csv))
      /\ AiExplain.main_batch scenario_template batch 0
           (scenario_apis response msg) [1; 0]%nat scenario_table
         = Some (Returns (results, csv)))
  /\ AiExplain.write_failed_to_txt batch results failed_txt
     = Some (py "[2] 明天." ++ [LF])
  /\ AiExplain.write_success_results_to_txt batch results None = Some block
  /\ AiExplain.write_success_results_to_txt batch results (Some []) = Some block.
Proof.
  intros cleaned batch results csv after block.
  split; [split; apply scenario_run_result; auto |].
  split; [reflexivity |].
  split; [split; apply scenario_main_batch; auto |].
  unfold AiExplain.write_failed_to_txt, AiExplain.write_success_results_to_txt,
    write_w, write_a, batch, results.
  cbn [combine map concat]. rewrite !app_nil_r. cbn [app].
  repeat split; reflexivity.
Qed.
